(** * ok777-backend: deposit reconciliation and pool withdrawals

    A shallow embedding of the deposit-detection / crediting pipeline, the
    price oracle and the pool withdrawal functions of the backend, followed by
    the properties of the specification that were checked against it.

    Conventions of the embedding:
    - a JavaScript [number] is an IEEE-754 binary64 value, i.e. a primitive
      [float]; [NaN] is [nan];
    - a bignumber.js [BigNumber] is an exact decimal, embedded in [Q];
    - an [async] function that may reject is a function into [result];
    - the Prisma client is a record of tables threaded through the calls;
    - an awaited call to the outside world (RPC node, price API) receives its
      outcome as an argument. *)

From Stdlib Require Import ZArith QArith Floats Ascii String List Bool Lia Lqa.
From Stdlib Require Import DecimalString.
From stdpp Require Import gmap strings list.
Import ListNotations.

Local Open Scope string_scope.
Local Open Scope Z_scope.

(** ** Results of awaited calls *)

(** The error carried by a rejected promise / thrown exception. *)
Inductive error :=
| NetworkError (msg : string)      (* axios / RPC node failure *)
| UniqueViolation (field : string) (* Prisma P2002 on a unique column *)
| StoreError (msg : string)        (* any other persistence failure *)
| JsError (msg : string).          (* [throw new Error(msg)] in the source *)

Inductive result (A : Type) :=
| Ok (a : A)
| Throw (e : error).
Arguments Ok {A} a.
Arguments Throw {A} e.

Definition is_ok {A} (r : result A) : bool :=
  match r with Ok _ => true | Throw _ => false end.

(** ** utils/exchange.ts *)

Module Exchange.

(** The part of the CoinGecko response that [getRate] reads. *)
Record PriceData := {
  tron_usd : float;
  ethereum_usd : float;
  solana_usd : float
}.

Record Rates := {
  TRX_USDT : float;
  ETH_USDT : float;
  SOL_USDT : float;
  USDT_USDT : float
}.

(** [getRate]: the awaited [axios.get] either rejects or yields the data. *)
Definition getRate (http : result PriceData) : result Rates :=
  match http with
  | Throw e => Throw e
  | Ok data =>
      Ok {| TRX_USDT := tron_usd data;
            ETH_USDT := ethereum_usd data;
            SOL_USDT := solana_usd data;
            USDT_USDT := 1%float |}
  end.

(** [String.prototype.toUpperCase]; currency symbols are ASCII strings, on
    which it maps [a-z] to [A-Z] and leaves the other characters. *)
Definition upper_ascii (c : ascii) : ascii :=
  let n := nat_of_ascii c in
  if (andb (Nat.leb 97 n) (Nat.leb n 122)) then ascii_of_nat (n - 32) else c.

Fixpoint toUpperCase (s : string) : string :=
  match s with
  | EmptyString => EmptyString
  | String c rest => String (upper_ascii c) (toUpperCase rest)
  end.

(** The object literal [toUSDT] of [convert]. *)
Definition toUSDT (rates : Rates) : gmap string float :=
  <["TRX" := TRX_USDT rates]>
  (<["ETH" := ETH_USDT rates]>
  (<["SOL" := SOL_USDT rates]>
  (<["USD" := 1%float]>
  (<["USDT" := 1%float]>
  (<["USDC" := 1%float]> ∅))))).

(** A property read that misses yields [undefined]; used as an operand of
    [*] or [/] it is converted by ToNumber to [NaN]. *)
Definition ToNumber (v : option float) : float :=
  match v with
  | Some x => x
  | None => nan
  end.

Definition convert (http : result PriceData) (amount : float)
    (fromSymbol toSymbol : string) : result float :=
  match getRate http with
  | Throw e => Throw e
  | Ok rates =>
      let normalizedFromSymbol := toUpperCase fromSymbol in
      let normalizedToSymbol := toUpperCase toSymbol in
      let amountInUSDT :=
        (amount * ToNumber (toUSDT rates !! normalizedFromSymbol))%float in
      let result :=
        (amountInUSDT / ToNumber (toUSDT rates !! normalizedToSymbol))%float in
      Ok result
  end.

(** The symbols the table has an entry for. *)
Definition supported : list string :=
  ["TRX"; "ETH"; "SOL"; "USD"; "USDT"; "USDC"].

(** The symbols pegged 1:1. *)
Definition stable : list string := ["USD"; "USDT"; "USDC"].

End Exchange.

(** ** The persistent store (Prisma client) *)

Module Store.

Inductive DepositStatus := pending | confirmed | failed.

(** A row of the Deposit table, with the columns the source writes. *)
Record Deposit := {
  userId : Z;
  orderId : string;
  txHash : string;
  fromAddress : option string;
  toAddress : string;
  currency : string;
  network : string;
  amount : float;
  rate : option float;
  realArrival : option float;
  status : DepositStatus;
  type : string;
  blockNumber : option Z;
  confirmations : Z;
  confirmedAt : option Z
}.

(** The tables the deposit pipeline touches. The Balance table has one row per
    (userId, currency). *)
Record Db := {
  deposits : list Deposit;
  balances : gmap (Z * string) float
}.

Definition empty : Db := {| deposits := []; balances := ∅ |}.

(** A computation against the store that may reject. A rejected call leaves
    the writes made before it in place (no implicit rollback). *)
Definition Prisma (A : Type) : Type := Db -> result A * Db.

Definition ret {A} (a : A) : Prisma A := fun db => (Ok a, db).

Definition bind {A B} (m : Prisma A) (k : A -> Prisma B) : Prisma B :=
  fun db =>
    match m db with
    | (Ok a, db') => k a db'
    | (Throw e, db') => (Throw e, db')
    end.

(** The outcome the store gives an awaited call: [None] when the store serves
    it, [Some e] when the call rejects for a reason outside the model
    (connection lost, timeout, ...). *)
Definition fault := option error.

Definition has_txHash (h : string) (d : Deposit) : bool := String.eqb (txHash d) h.

(** [prisma.deposit.findFirst({ where: { txHash } })] *)
Definition deposit_findFirst (f : fault) (h : string) : Prisma (option Deposit) :=
  fun db =>
    match f with
    | Some e => (Throw e, db)
    | None => (Ok (List.find (has_txHash h) (deposits db)), db)
    end.

(** [prisma.deposit.count({ where: { txHash } })] *)
Definition deposit_count (f : fault) (h : string) : Prisma nat :=
  fun db =>
    match f with
    | Some e => (Throw e, db)
    | None => (Ok (length (List.filter (has_txHash h) (deposits db))), db)
    end.

(** Modelled from the spec: the Prisma schema is not part of the sources. The
    specification gives the Deposit table a unique index on [txHash]
    ("[Store.createDeposit(record)] fails with [DuplicateTxHash] if [txHash]
    already exists"), and the source addresses rows by
    [where: { txHash }] in [update] and [findUnique], which Prisma only
    accepts for a unique column.

    [prisma.deposit.create({ data })] *)
Definition deposit_create (f : fault) (d : Deposit) : Prisma Deposit :=
  fun db =>
    match f with
    | Some e => (Throw e, db)
    | None =>
        if existsb (has_txHash (txHash d)) (deposits db)
        then (Throw (UniqueViolation "txHash"), db)
        else (Ok d, {| deposits := deposits db ++ [d]; balances := balances db |})
    end.

(** [prisma.deposit.update({ where: { txHash }, data })]: rejects when no row
    has this [txHash]. *)
Definition deposit_update (f : fault) (h : string) (upd : Deposit -> Deposit)
  : Prisma Deposit :=
  fun db =>
    match f with
    | Some e => (Throw e, db)
    | None =>
        match List.find (has_txHash h) (deposits db) with
        | None => (Throw (StoreError "Record to update not found"), db)
        | Some d =>
            (Ok (upd d),
             {| deposits :=
                  map (fun x => if has_txHash h x then upd x else x) (deposits db);
                balances := balances db |})
        end
    end.

(** [balance.findFirst({ where: { userId, currency } })] *)
Definition balance_findFirst (f : fault) (u : Z) (c : string) : Prisma (option float) :=
  fun db =>
    match f with
    | Some e => (Throw e, db)
    | None => (Ok (balances db !! (u, c)), db)
    end.

(** [balance.create({ data: { userId, currency, amount } })] *)
Definition balance_create (f : fault) (u : Z) (c : string) (a : float) : Prisma unit :=
  fun db =>
    match f with
    | Some e => (Throw e, db)
    | None =>
        match balances db !! (u, c) with
        | Some _ => (Throw (UniqueViolation "userId_currency"), db)
        | None =>
            (Ok tt, {| deposits := deposits db;
                       balances := <[(u, c) := a]> (balances db) |})
        end
    end.

(** [balance.update({ where, data: { amount: { increment: a } } })] *)
Definition balance_increment (f : fault) (u : Z) (c : string) (a : float) : Prisma unit :=
  fun db =>
    match f with
    | Some e => (Throw e, db)
    | None =>
        match balances db !! (u, c) with
        | None => (Throw (StoreError "Record to update not found"), db)
        | Some b =>
            (Ok tt, {| deposits := deposits db;
                       balances := <[(u, c) := (b + a)%float]> (balances db) |})
        end
    end.

(** [prisma.$transaction(async (tx) => body)]: the writes of [body] are
    committed when it resolves and discarded when it rejects. *)
Definition transaction {A} (body : Prisma A) : Prisma A :=
  fun db =>
    match body db with
    | (Ok a, db') => (Ok a, db')
    | (Throw e, _) => (Throw e, db)
    end.

End Store.

Notation "x <- m ;; k" := (Store.bind m (fun x => k))
  (at level 20, m at level 99, k at level 200, only parsing).

(** ** blockchain/depositListeners/{solana,ethereum,tron}.ts

    The three listeners share [isTransactionProcessed] and [processDeposit]
    word for word, up to the network name and the currency (a constant 'SOL'
    in solana.ts, a parameter defaulting to 'ETH' / 'TRX' in the other two). *)

Module DepositListener.
Import Store.

(** Module state of a listener process: the store it talks to and its
    [processedTransactions] set. *)
Record World := {
  db : Db;
  processedTransactions : gset string
}.

(** A transfer parsed from a chain transaction and destined for a monitored
    address: the arguments of [processDeposit]. *)
Record Candidate := {
  c_userId : Z;
  c_txHash : string;
  c_fromAddress : string;
  c_toAddress : string;
  c_amount : float;
  c_blockNumber : Z
}.

(** What the outside world answers to the awaited calls made while one
    candidate is handled. *)
Record Env := {
  orderIdGen : string;              (* `${currency}_${Date.now()}_${random}` *)
  now : Z;                          (* new Date() *)
  http_rate : result Exchange.PriceData;     (* fetch behind convert(1, ..) *)
  http_arrival : result Exchange.PriceData;  (* fetch behind convert(amount, ..) *)
  find_fault : fault;
  create_fault : fault;
  balance_find_fault : fault;
  balance_write_fault : fault
}.

(** No store call rejects for a reason outside the model. *)
Definition store_reliable (e : Env) : Prop :=
  find_fault e = None /\ create_fault e = None
  /\ balance_find_fault e = None /\ balance_write_fault e = None.

Definition with_db (w : World) (d : Db) : World :=
  {| db := d; processedTransactions := processedTransactions w |}.

Definition add_processed (h : string) (w : World) : World :=
  {| db := db w; processedTransactions := {[ h ]} ∪ processedTransactions w |}.

(** Run a store computation in the world. *)
Definition lift {A} (m : Prisma A) (w : World) : result A * World :=
  let '(r, d) := m (db w) in (r, with_db w d).

Definition isTransactionProcessed (e : Env) (h : string) (w : World)
  : result bool * World :=
  if decide (h ∈ processedTransactions w) then (Ok true, w)
  else
    match lift (deposit_findFirst (find_fault e) h) w with
    | (Throw err, w') => (Throw err, w')
    | (Ok (Some _), w') => (Ok true, add_processed h w')
    | (Ok None, w') => (Ok false, w')
    end.

(** The inner [try { rate = await convert(1, ..); realArrival = await
    convert(amount, ..) } catch { warn }] with its 1:1 defaults. *)
Definition exchangeRate (e : Env) (cur : string) (amount : float) : float * float :=
  match Exchange.convert (http_rate e) 1%float cur "USD" with
  | Throw _ => (1%float, amount)
  | Ok rate =>
      match Exchange.convert (http_arrival e) amount cur "USD" with
      | Throw _ => (rate, amount)
      | Ok realArrival => (rate, realArrival)
      end
  end.

Definition depositData (net cur : string) (e : Env) (c : Candidate)
    (rate realArrival : float) : Deposit :=
  {| userId := c_userId c;
     orderId := orderIdGen e;
     txHash := c_txHash c;
     fromAddress := Some (c_fromAddress c);
     toAddress := c_toAddress c;
     currency := cur;
     network := net;
     amount := c_amount c;
     rate := Some rate;
     realArrival := Some realArrival;
     status := confirmed;
     type := "crypto";
     blockNumber := Some (c_blockNumber c);
     confirmations := 1;
     confirmedAt := Some (now e) |}.

(** The callback passed to [prisma.$transaction]. *)
Definition balanceUpdate (e : Env) (u : Z) (cur : string) (amount : float) : Prisma unit :=
  balance <- balance_findFirst (balance_find_fault e) u cur ;;
  match balance with
  | None => balance_create (balance_write_fault e) u cur amount
  | Some _ => balance_increment (balance_write_fault e) u cur amount
  end.

(** [processDeposit]: the outer [catch] logs and rethrows, so a rejection is
    returned as it is. *)
Definition processDeposit (net cur : string) (e : Env) (c : Candidate) (w : World)
  : result unit * World :=
  let '(rate, realArrival) := exchangeRate e cur (c_amount c) in
  match lift (deposit_create (create_fault e) (depositData net cur e c rate realArrival)) w with
  | (Throw err, w1) => (Throw err, w1)
  | (Ok _, w1) =>
      match lift (transaction (balanceUpdate e (c_userId c) cur (c_amount c))) w1 with
      | (Throw err, w2) => (Throw err, w2)
      | (Ok _, w2) => (Ok tt, add_processed (c_txHash c) w2)
      end
  end.

(** How the handling of one candidate ended. *)
Inductive outcome :=
| Skipped                (* already processed: [continue] *)
| Processed              (* [processDeposit] resolved *)
| Failed (e : error).    (* a rejection, logged by the caller *)

(** The body of the [for] loop of [monitorSolanaAddress] (and of its Ethereum
    and Tron twins) for a signature whose transaction parses to [c]. Fetching
    and parsing the transaction, between the two calls, touches neither the
    store nor the set. *)
Definition handleCandidate (net cur : string) (e : Env) (c : Candidate) (w : World)
  : outcome * World :=
  match isTransactionProcessed e (c_txHash c) w with
  | (Throw err, w1) => (Failed err, w1)
  | (Ok true, w1) => (Skipped, w1)
  | (Ok false, w1) =>
      match processDeposit net cur e c w1 with
      | (Throw err, w2) => (Failed err, w2)
      | (Ok _, w2) => (Processed, w2)
      end
  end.

(** *** Interleaved handling

    Between two [await]s a handler runs without interruption; at each [await]
    another handler of the same process (an overlapping poll cycle) may run.
    A handler is therefore a sequence of atomic steps; the control point says
    which one is next. *)
Inductive pc :=
| AtHas                                   (* processedTransactions.has *)
| AtFindFirst                             (* the store runs findFirst *)
| AtFound (existing : option Deposit)     (* continuation of findFirst *)
| AtConvertRate                           (* convert(1, cur, 'USD') *)
| AtConvertArrival (rate : float)         (* convert(amount, cur, 'USD') *)
| AtCreate (rate realArrival : float)     (* the store runs deposit.create *)
| AtBalanceTx                             (* the store runs the transaction *)
| AtAdd                                   (* processedTransactions.add *)
| Finished (o : outcome).

Definition step (net cur : string) (e : Env) (c : Candidate) (p : pc) (w : World)
  : pc * World :=
  match p with
  | AtHas =>
      if decide (c_txHash c ∈ processedTransactions w)
      then (Finished Skipped, w) else (AtFindFirst, w)
  | AtFindFirst =>
      match lift (deposit_findFirst (find_fault e) (c_txHash c)) w with
      | (Throw err, w') => (Finished (Failed err), w')
      | (Ok existing, w') => (AtFound existing, w')
      end
  | AtFound (Some _) => (Finished Skipped, add_processed (c_txHash c) w)
  | AtFound None => (AtConvertRate, w)
  | AtConvertRate =>
      match Exchange.convert (http_rate e) 1%float cur "USD" with
      | Throw _ => (AtCreate 1%float (c_amount c), w)
      | Ok rate => (AtConvertArrival rate, w)
      end
  | AtConvertArrival rate =>
      match Exchange.convert (http_arrival e) (c_amount c) cur "USD" with
      | Throw _ => (AtCreate rate (c_amount c), w)
      | Ok realArrival => (AtCreate rate realArrival, w)
      end
  | AtCreate rate realArrival =>
      match lift (deposit_create (create_fault e)
                    (depositData net cur e c rate realArrival)) w with
      | (Throw err, w') => (Finished (Failed err), w')
      | (Ok _, w') => (AtBalanceTx, w')
      end
  | AtBalanceTx =>
      match lift (transaction (balanceUpdate e (c_userId c) cur (c_amount c))) w with
      | (Throw err, w') => (Finished (Failed err), w')
      | (Ok _, w') => (AtAdd, w')
      end
  | AtAdd => (Finished Processed, add_processed (c_txHash c) w)
  | Finished o => (Finished o, w)
  end.

(** One handler run on its own for [n] steps. *)
Fixpoint run (net cur : string) (e : Env) (c : Candidate) (n : nat) (p : pc) (w : World)
  : pc * World :=
  match n with
  | O => (p, w)
  | S n' => let '(p', w') := step net cur e c p w in run net cur e c n' p' w'
  end.

(** Two handlers of the same candidate, interleaved by a schedule: [false]
    lets the first one take its next step, [true] the second. *)
Fixpoint run2 (net cur : string) (eA eB : Env) (c : Candidate) (sched : list bool)
    (pA pB : pc) (w : World) : pc * pc * World :=
  match sched with
  | [] => (pA, pB, w)
  | false :: rest =>
      let '(pA', w') := step net cur eA c pA w in run2 net cur eA eB c rest pA' pB w'
  | true :: rest =>
      let '(pB', w') := step net cur eB c pB w in run2 net cur eA eB c rest pA pB' w'
  end.

(** A handler needs at most eight steps. *)
Definition fuel : nat := 8.

(** Every handler gets to take all its steps. *)
Definition complete (sched : list bool) : Prop :=
  (fuel <= length (List.filter negb sched))%nat
  /\ (fuel <= length (List.filter id sched))%nat.

Definition is_finished (p : pc) : bool :=
  match p with Finished _ => true | _ => false end.

(** A process restart: the store persists, the in-memory set does not. *)
Definition restart (w : World) : World :=
  {| db := db w; processedTransactions := ∅ |}.

(** Number of Deposit rows with a given [txHash]. *)
Definition recordCount (h : string) (w : World) : nat :=
  length (List.filter (has_txHash h) (deposits (db w))).

Definition balanceOf (u : Z) (cur : string) (w : World) : option float :=
  balances (db w) !! (u, cur).

(** The Balance row after one credit of [a]. *)
Definition credited (a : float) (before : option float) : option float :=
  match before with
  | None => Some a
  | Some b => Some (b + a)%float
  end.

(** The value of the Balance row after one credit. *)
Definition creditedValue (a : float) (before : option float) : float :=
  match before with
  | None => a
  | Some b => (b + a)%float
  end.

(** *** The bookkeeping behind deduplication

    Which control points lie after the creation of the Deposit row, after the
    credit, and after the handler has learnt that a row exists. *)
Definition created (p : pc) : bool :=
  match p with
  | AtBalanceTx | AtAdd | Finished Processed => true
  | _ => false
  end.

Definition has_credit (p : pc) : bool :=
  match p with
  | AtAdd | Finished Processed => true
  | _ => false
  end.

Definition saw_record (p : pc) : bool :=
  match p with
  | AtFound (Some _) | Finished Skipped | Finished (Failed _) => true
  | _ => false
  end.

(** What holds of the world while two handlers of the candidate [c], at [p]
    and [q], run from [w0]: the rows with its [txHash] are those the handlers
    have created, there is at most one, and the balance was credited by the
    handler that is past its credit, if any. *)
Definition Inv (cur : string) (c : Candidate) (w0 : World) (p q : pc) (w : World)
  : Prop :=
  let h := c_txHash c in
  let u := c_userId c in
  let a := c_amount c in
  recordCount h w = (Nat.b2n (created p) + Nat.b2n (created q))%nat
  /\ (recordCount h w <= 1)%nat
  /\ balanceOf u cur w
     = (if has_credit p || has_credit q
        then credited a (balanceOf u cur w0) else balanceOf u cur w0)
  /\ (h ∈ processedTransactions w -> (1 <= recordCount h w)%nat)
  /\ (saw_record p = true -> (1 <= recordCount h w)%nat)
  /\ (saw_record q = true -> (1 <= recordCount h w)%nat).

(** What holds of the world while two handlers of [c] run from [w0], whatever
    the store answers: there is at most one row with its [txHash], a handler
    between its [deposit.create] and the end of its credit has its row
    there, and the balance was credited by the handler that is past its
    credit, if any. *)
Definition AtMostOnce (cur : string) (c : Candidate) (w0 : World) (p q : pc) (w : World)
  : Prop :=
  let h := c_txHash c in
  let u := c_userId c in
  let a := c_amount c in
  (recordCount h w <= 1)%nat
  /\ (Nat.b2n (created p) + Nat.b2n (created q) <= recordCount h w)%nat
  /\ balanceOf u cur w
     = (if has_credit p || has_credit q
        then credited a (balanceOf u cur w0) else balanceOf u cur w0).

(** Number of steps a handler still has to take. *)
Definition rank (p : pc) : nat :=
  match p with
  | AtHas => 8
  | AtFindFirst => 7
  | AtFound _ => 6
  | AtConvertRate => 5
  | AtConvertArrival _ => 4
  | AtCreate _ _ => 3
  | AtBalanceTx => 2
  | AtAdd => 1
  | Finished _ => 0
  end.

End DepositListener.

(** The reading of "one atomic logical transaction" for [processDeposit]:
    between the world before and the world after the call, either the Deposit
    row and the Balance credit are both there, or neither is. *)
Definition both_or_neither (cur : string) (c : DepositListener.Candidate)
    (before after : DepositListener.World) : Prop :=
  let h := DepositListener.c_txHash c in
  let u := DepositListener.c_userId c in
  (DepositListener.recordCount h after = S (DepositListener.recordCount h before)
   /\ DepositListener.balanceOf u cur after
      = DepositListener.credited (DepositListener.c_amount c)
          (DepositListener.balanceOf u cur before))
  \/ (DepositListener.recordCount h after = DepositListener.recordCount h before
      /\ DepositListener.balanceOf u cur after
         = DepositListener.balanceOf u cur before).

(** The reading of "exactly one Deposit Record and the amount reflected
    exactly once" for the world [after] two presentations of [c] to a
    listener that started from [before]. *)
Definition exactly_once (cur : string) (c : DepositListener.Candidate)
    (before after : DepositListener.World) : Prop :=
  DepositListener.recordCount (DepositListener.c_txHash c) after = 1%nat
  /\ DepositListener.balanceOf (DepositListener.c_userId c) cur after
     = DepositListener.credited (DepositListener.c_amount c)
         (DepositListener.balanceOf (DepositListener.c_userId c) cur before).

(** The reading of "at most one Deposit Record and the amount reflected at
    most once" for two presentations of [c] that ended as [oA] and [oB]: at
    most one row, at most one presentation resolved; if one did, the row is
    there and the balance reflects the amount once; if none did, the balance
    is as it was. *)
Definition at_most_once (cur : string) (c : DepositListener.Candidate)
    (before : DepositListener.World) (oA oB : DepositListener.outcome)
    (after : DepositListener.World) : Prop :=
  (DepositListener.recordCount (DepositListener.c_txHash c) after <= 1)%nat
  /\ ~ (oA = DepositListener.Processed /\ oB = DepositListener.Processed)
  /\ (oA = DepositListener.Processed \/ oB = DepositListener.Processed ->
      exactly_once cur c before after)
  /\ (oA <> DepositListener.Processed -> oB <> DepositListener.Processed ->
      DepositListener.balanceOf (DepositListener.c_userId c) cur after
      = DepositListener.balanceOf (DepositListener.c_userId c) cur before).

(** The reading of "oracle degradation" in the specification: the row of the
    deposit carries the face amount and null USD-equivalent fields. *)
Definition degraded_to_null (h : string) (a : float) (db : Store.Db) : Prop :=
  exists d, In d (Store.deposits db)
    /\ Store.txHash d = h /\ Store.amount d = a
    /\ Store.rate d = None /\ Store.realArrival d = None.

(** ** db/deposits.ts *)

Module DbDeposits.
Import Store.

Record CreateDepositData := {
  d_userId : Z;
  d_txHash : string;
  d_fromAddress : option string;
  d_toAddress : string;
  d_currency : string;
  d_network : string;
  d_amount : float;
  d_blockNumber : option Z;
  d_confirmations : option Z
}.

(** What the outside world answers to the awaited calls made while one
    detected transfer is recorded. *)
Record Env := {
  orderIdGen : string;                 (* `DEP_${Date.now()}_${uuid}` *)
  now : Z;
  http : result Exchange.PriceData;    (* fetch behind convert(1, ..) *)
  count_fault : fault;
  create_fault : fault;
  update_fault : fault;
  balance_find_fault : fault;
  balance_write_fault : fault
}.

Definition store_reliable (e : Env) : Prop :=
  count_fault e = None /\ create_fault e = None /\ update_fault e = None
  /\ balance_find_fault e = None /\ balance_write_fault e = None.

(** The [try { if (currency !== 'USD') .. else .. } catch { warn }] block:
    [rate] and [realArrival] start as [null] and stay so when [convert]
    rejects. *)
Definition usdValue (e : Env) (cur : string) (amount : float)
  : option float * option float :=
  if negb (String.eqb cur "USD") then
    match Exchange.convert (http e) 1%float cur "USD" with
    | Ok rate => (Some rate, Some (amount * rate)%float)
    | Throw _ => (None, None)
    end
  else (Some 1%float, Some amount).

(** [data.confirmations || 0] *)
Definition orZero (n : option Z) : Z :=
  match n with
  | Some k => k
  | None => 0
  end.

Definition createDeposit (e : Env) (data : CreateDepositData) : Prisma Deposit :=
  let '(rate, realArrival) := usdValue e (d_currency data) (d_amount data) in
  deposit_create (create_fault e)
    {| userId := d_userId data;
       orderId := orderIdGen e;
       txHash := d_txHash data;
       fromAddress := d_fromAddress data;
       toAddress := d_toAddress data;
       currency := d_currency data;
       network := d_network data;
       amount := d_amount data;
       rate := rate;
       realArrival := realArrival;
       status := pending;
       type := "crypto";
       blockNumber := d_blockNumber data;
       confirmations := orZero (d_confirmations data);
       confirmedAt := None |}.

Definition applyStatus (e : Env) (s : DepositStatus) (conf : option Z) (d : Deposit)
  : Deposit :=
  {| userId := userId d;
     orderId := orderId d;
     txHash := txHash d;
     fromAddress := fromAddress d;
     toAddress := toAddress d;
     currency := currency d;
     network := network d;
     amount := amount d;
     rate := rate d;
     realArrival := realArrival d;
     status := s;
     type := type d;
     blockNumber := blockNumber d;
     confirmations := match conf with Some k => k | None => confirmations d end;
     confirmedAt := match s with confirmed => Some (now e) | _ => confirmedAt d end |}.

Definition updateDepositStatus (e : Env) (h : string) (s : DepositStatus)
    (conf : option Z) : Prisma Deposit :=
  deposit_update (update_fault e) h (applyStatus e s conf).

(** [depositExists]: a rejected count is logged and reported as [false]. *)
Definition depositExists (e : Env) (h : string) : Prisma bool :=
  fun db =>
    match deposit_count (count_fault e) h db with
    | (Ok n, db') => (Ok (0 <? n)%nat, db')
    | (Throw _, db') => (Ok false, db')
    end.

(** [updateUserBalanceAfterDeposit]: find, then increment or create, outside
    any transaction. *)
Definition updateUserBalanceAfterDeposit (e : Env) (u : Z) (cur : string)
    (amount : float) : Prisma unit :=
  balance <- balance_findFirst (balance_find_fault e) u cur ;;
  match balance with
  | Some _ => balance_increment (balance_write_fault e) u cur amount
  | None => balance_create (balance_write_fault e) u cur amount
  end.

End DbDeposits.

(** ** blockchain/solana-deposits.ts: recording a detected transfer *)

Module SolanaDeposits.
Import Store DbDeposits.

Record UserAddress := {
  ua_userId : Z;
  ua_address : string;
  ua_blockchain : string
}.

(** The result of [isSolTransferToAddress(transaction, address)]; reading the
    balances out of the chain transaction is outside the model. *)
Record TransferInfo := {
  isTransfer : bool;
  ti_amount : float;
  ti_fromAddress : option string
}.

(** One user address of the [for] loop, with the transfer the transaction
    makes to it and the answers of the outside world during its iteration. *)
Record Detected := {
  userAddress : UserAddress;
  transferInfo : TransferInfo;
  env : Env
}.

(** One iteration of the loop; [Ok tt] also stands for [continue]. *)
Definition recordTransfer (signature : string) (slot : Z) (x : Detected) : Prisma unit :=
  let ua := userAddress x in
  let ti := transferInfo x in
  let e := env x in
  if negb (String.eqb (ua_blockchain ua) "Solana") then ret tt
  else if isTransfer ti && (0 <? ti_amount ti)%float then
    exists_ <- depositExists e signature ;;
    if (exists_ : bool) then ret tt
    else
      _ <- createDeposit e
             {| d_userId := ua_userId ua;
                d_txHash := signature;
                d_fromAddress := ti_fromAddress ti;
                d_toAddress := ua_address ua;
                d_currency := "SOL";
                d_network := "Solana";
                d_amount := ti_amount ti;
                d_blockNumber := Some slot;
                d_confirmations := Some 1 |} ;;
      _ <- updateDepositStatus e signature confirmed (Some 1) ;;
      updateUserBalanceAfterDeposit e (ua_userId ua) "SOL" (ti_amount ti)
  else ret tt.

Fixpoint forEach (signature : string) (slot : Z) (xs : list Detected) : Prisma unit :=
  match xs with
  | [] => ret tt
  | x :: rest => _ <- recordTransfer signature slot x ;; forEach signature slot rest
  end.

(** [processSolanaTransaction]: [metaOk] is [transaction.meta &&
    !transaction.meta.err]. The surrounding [try/catch] logs a rejection and
    returns, keeping what was written before it. *)
Definition processSolanaTransaction (signature : string) (metaOk : bool) (slot : Z)
    (userAddresses : list Detected) (db : Db) : Db :=
  if negb metaOk then db
  else snd (forEach signature slot userAddresses db).

End SolanaDeposits.

(** ** Listing recent transactions *)

(** *** blockchain/depositListeners/tron.ts *)

Module TronListener.

Record TronTx := {
  txID : string;
  tx_blockNumber : Z;
  contractType : string;
  to_address : string;
  owner_address : string;
  amountSun : Z
}.

(** What [trx.getTransactionsRelated(address, 'to', limit)] settles to. *)
Inductive RpcReply :=
| Rejected (e : error)
| NotAnArray
| Transactions (txs : list TronTx).

(** The two module-level clients; [None] when [require('tronweb')] failed at
    load time, otherwise the answer the endpoint gives to this call. *)
Record Clients := {
  tronWebShasta : option RpcReply;
  tronWebMainnet : option RpcReply
}.

(** [uniq.set(tx.txID, tx)]: a [Map] keeps the position of the first insertion
    of a key and the value of the last. *)
Fixpoint mapSet (tx : TronTx) (m : list TronTx) : list TronTx :=
  match m with
  | [] => [tx]
  | x :: rest =>
      if String.eqb (txID x) (txID tx) then tx :: rest else x :: mapSet tx rest
  end.

Definition uniqValues (results : list TronTx) : list TronTx :=
  fold_left (fun m tx => mapSet tx m) results [].

(** One [if (client) { try { .. results.push(...txs) } catch { } }] block. *)
Definition pushRelated (client : option RpcReply) (results : list TronTx)
  : list TronTx :=
  match client with
  | Some (Transactions txs) => results ++ txs
  | Some NotAnArray => results
  | Some (Rejected _) => results
  | None => results
  end.

Definition getRecentTransactions (cl : Clients) (address : string) (limit : Z)
  : result (list TronTx) :=
  match tronWebShasta cl, tronWebMainnet cl with
  | None, None => Ok []
  | _, _ =>
      let results := pushRelated (tronWebShasta cl) [] in
      let results := pushRelated (tronWebMainnet cl) results in
      Ok (uniqValues results)
  end.

(** The clients as they would be had every call that was rejected answered
    that there are no transactions. *)
Definition foundNothing (client : option RpcReply) : option RpcReply :=
  match client with
  | Some (Rejected _) => Some (Transactions [])
  | answered => answered
  end.

Definition failuresAsNothing (cl : Clients) : Clients :=
  {| tronWebShasta := foundNothing (tronWebShasta cl);
     tronWebMainnet := foundNothing (tronWebMainnet cl) |}.

End TronListener.

(** *** The Ethereum JSON-RPC provider *)

Module Ethers.

Record Log := { transactionHash : string }.

Record TransactionResponse := {
  hash : string;
  tx_from : string;
  tx_to : option string;
  value : Z;
  tx_blockNumber : option Z
}.

Record TransactionReceipt := {
  receipt_status : Z;
  receipt_blockNumber : Z
}.

Record Filter := {
  f_address : string;
  fromBlock : Z;
  toBlock : Z;
  topics : list string
}.

(** The answers of the node to the calls the listing functions make. *)
Record Provider := {
  getBlockNumber : result Z;
  getLogs : Filter -> result (list Log);
  getTransaction : string -> result (option TransactionResponse);
  getTransactionReceipt : string -> result (option TransactionReceipt)
}.

(** The node as it would be had every rejected [getLogs] answered with no
    logs and every rejected [getTransaction] or [getTransactionReceipt] with
    [null], its answer for a hash it does not know. *)
Definition failuresAsNothing (p : Provider) : Provider :=
  {| getBlockNumber := getBlockNumber p;
     getLogs := fun f =>
       match getLogs p f with Throw _ => Ok [] | answered => answered end;
     getTransaction := fun h =>
       match getTransaction p h with Throw _ => Ok None | answered => answered end;
     getTransactionReceipt := fun h =>
       match getTransactionReceipt p h with
       | Throw _ => Ok None
       | answered => answered
       end |}.

End Ethers.

(** *** blockchain/depositListeners/ethereum.ts *)

Module EthereumListener.
Import Ethers.

(** [ethers.id('Transfer(address,address,uint256)')] *)
Definition transferTopic : string :=
  "0xddf252ad1be2c89b69c2b068fc378daa952ba7f163c4a11628f55a4df523b3ef".

(** The [for (const log of logs)] loop: a transaction whose fetch rejects, or
    that the node does not know, is left out. *)
Fixpoint collect (p : Provider) (logs : list Log) : list TransactionResponse :=
  match logs with
  | [] => []
  | log :: rest =>
      match getTransaction p (transactionHash log) with
      | Ok (Some tx) => tx :: collect p rest
      | Ok None => collect p rest
      | Throw _ => collect p rest
      end
  end.

Definition getRecentTransactions (p : Provider) (address : string) (from : Z)
  : result (list TransactionResponse) :=
  match getBlockNumber p with
  | Throw _ => Ok []
  | Ok currentBlock =>
      let to := Z.min currentBlock (from + 1000) in
      let filter := {| f_address := address; fromBlock := from; toBlock := to;
                       topics := [transferTopic] |} in
      match getLogs p filter with
      | Throw _ => Ok []
      | Ok logs => Ok (collect p logs)
      end
  end.

End EthereumListener.

(** *** blockchain/ethereum-deposits.ts *)

Module EthereumDeposits.
Import Ethers.

Fixpoint collect (p : Provider) (logs : list Log)
  : list (TransactionResponse * TransactionReceipt) :=
  match logs with
  | [] => []
  | log :: rest =>
      match getTransaction p (transactionHash log) with
      | Ok tx =>
          match getTransactionReceipt p (transactionHash log) with
          | Ok receipt =>
              match tx, receipt with
              | Some t, Some r => (t, r) :: collect p rest
              | _, _ => collect p rest
              end
          | Throw _ => collect p rest
          end
      | Throw _ => collect p rest
      end
  end.

Definition getRecentTransactionsForAddress (p : Provider) (address : string)
    (from to : Z) : result (list (TransactionResponse * TransactionReceipt)) :=
  let filter := {| f_address := address; fromBlock := from; toBlock := to;
                   topics := [] |} in
  match getLogs p filter with
  | Throw _ => Ok []
  | Ok logs => Ok (collect p logs)
  end.

End EthereumDeposits.

(** The reading of "an RPC failure propagates and is never turned into an
    empty result" for a listing function: when the call rejects, so does the
    listing. *)
Definition propagates {A B} (rpc : result A) (listing : result B) : Prop :=
  is_ok rpc = false -> is_ok listing = false.

(** ** Poll cycles *)

Module Poller.

(** What the event loop knows of one poller: the module variable [isPolling]
    (solana-deposits.ts and ethereum-deposits.ts only) and the number of
    invocations that are suspended at an [await] in the middle of a scan. *)
Record Runtime := {
  isPolling : bool;
  inFlight : nat
}.

Definition idle : Runtime := {| isPolling := false; inFlight := 0 |}.

(** What can happen to a poller: the interval timer (or any other caller)
    invokes the polling function, a suspended scan runs to its end, or
    [stop...DepositMonitoring] is called. *)
Inductive event := Invoke | Settle | Stop.

(** Which polling function the timer was given. ([monitorTronDeposits]
    returns at once when no TronWeb client could be created; the model is of a
    process in which the clients exist.) *)
Inductive poller :=
| pollForDeposits      (* blockchain/solana-deposits.ts, ethereum-deposits.ts *)
| monitorDeposits.     (* depositListeners: monitorSolanaDeposits and its twins *)

(** The synchronous prefix of an invocation, up to its first [await]. *)
Definition invoke (k : poller) (r : Runtime) : Runtime :=
  match k with
  | pollForDeposits =>
      if isPolling r then r
      else {| isPolling := true; inFlight := S (inFlight r) |}
  | monitorDeposits =>
      {| isPolling := isPolling r; inFlight := S (inFlight r) |}
  end.

(** The end of a scan; [pollForDeposits] resets the flag in its [finally]. *)
Definition settle (k : poller) (r : Runtime) : Runtime :=
  match inFlight r with
  | O => r
  | S n =>
      match k with
      | pollForDeposits => {| isPolling := false; inFlight := n |}
      | monitorDeposits => {| isPolling := isPolling r; inFlight := n |}
      end
  end.

(** [stopSolanaDepositMonitoring]: [isPolling = false], whatever is running;
    the listeners have no stop function that touches their state. *)
Definition stop (k : poller) (r : Runtime) : Runtime :=
  match k with
  | pollForDeposits => {| isPolling := false; inFlight := inFlight r |}
  | monitorDeposits => r
  end.

Definition react (k : poller) (r : Runtime) (e : event) : Runtime :=
  match e with
  | Invoke => invoke k r
  | Settle => settle k r
  | Stop => stop k r
  end.

Definition runEvents (k : poller) (trace : list event) (r : Runtime) : Runtime :=
  fold_left (react k) trace r.

Definition noStop (trace : list event) : Prop :=
  Forall (fun e => e <> Stop) trace.

(** With the guard, the flag tells whether a scan is in flight. *)
Definition flagTracksFlight (r : Runtime) : Prop :=
  inFlight r = Nat.b2n (isPolling r).

End Poller.

(** ** JavaScript numbers as decimal strings *)

Module JsNumber.
Local Open Scope Z_scope.

(** A positive finite number as [Number.prototype.toString] sees it: the
    digits [d1 .. dk] of its shortest decimal form ([d1] and [dk] non-zero)
    and the exponent [n], for the value [0.d1..dk * 10^n]. *)
Record Decimal := {
  digits : list nat;
  exp10 : Z
}.

Definition wf (d : Decimal) : Prop :=
  digits d <> [] /\ Forall (fun x => (x < 10)%nat) (digits d)
  /\ hd 0%nat (digits d) <> 0%nat /\ List.last (digits d) 0%nat <> 0%nat.

Definition digitChar (d : nat) : ascii := ascii_of_nat (48 + d).

Fixpoint digitString (ds : list nat) : string :=
  match ds with
  | [] => ""
  | d :: rest => String (digitChar d) (digitString rest)
  end.

Fixpoint zeros (n : nat) : string :=
  match n with
  | O => ""
  | S n' => String "0" (zeros n')
  end.

(** The decimal numeral of a natural number (for the exponent part). *)
Definition natString (n : nat) : string :=
  DecimalString.NilZero.string_of_uint (Nat.to_uint n).

(** [Number::toString(x)] of ECMA-262 for radix 10 and [x > 0]. *)
Definition toString (d : Decimal) : string :=
  let ds := digits d in
  let k := Z.of_nat (length ds) in
  let n := exp10 d in
  if (k <=? n)%Z && (n <=? 21)%Z then
    digitString ds ++ zeros (Z.to_nat (n - k))
  else if (0 <? n)%Z && (n <=? 21)%Z then
    digitString (firstn (Z.to_nat n) ds) ++ "." ++ digitString (skipn (Z.to_nat n) ds)
  else if (-6 <? n)%Z && (n <=? 0)%Z then
    "0." ++ zeros (Z.to_nat (- n)) ++ digitString ds
  else
    let e := n - 1 in
    let sign := if (e <? 0)%Z then "-" else "+" in
    match ds with
    | [] => ""
    | [d1] => digitString [d1] ++ "e" ++ sign ++ natString (Z.abs_nat e)
    | d1 :: rest =>
        digitString [d1] ++ "." ++ digitString rest
          ++ "e" ++ sign ++ natString (Z.abs_nat e)
    end.

Definition isDigit (c : ascii) : bool :=
  let n := nat_of_ascii c in (48 <=? n)%nat && (n <=? 57)%nat.

(** The longest prefix of decimal digits, read as a number; [acc] is [None]
    until a digit has been read. *)
Fixpoint leadingDigits (s : string) (acc : option Z) : option Z :=
  match s with
  | EmptyString => acc
  | String c rest =>
      if isDigit c then
        leadingDigits rest
          (Some (10 * default 0 acc + Z.of_nat (nat_of_ascii c - 48)))
      else acc
  end.

(** [parseInt(string)] on a string without leading white space or a hex
    prefix; [None] is [NaN]. *)
Definition parseInt (s : string) : option Z :=
  match s with
  | String "-" rest => option_map Z.opp (leadingDigits rest None)
  | String "+" rest => leadingDigits rest None
  | _ => leadingDigits s None
  end.

Definition digitsValue (ds : list nat) : Z :=
  fold_left (fun acc d => 10 * acc + Z.of_nat d) ds 0.

(** The number itself. *)
Definition value (d : Decimal) : Q :=
  let k := Z.of_nat (length (digits d)) in
  let n := exp10 d in
  if k <=? n then inject_Z (digitsValue (digits d) * 10 ^ (n - k))
  else Qmake (digitsValue (digits d)) (Z.to_pos (10 ^ (k - n))).

(** [Math.trunc] of a rational. *)
Definition trunc (q : Q) : Z := Z.quot (Qnum q) (Z.pos (Qden q)).

Definition isInteger (q : Q) : bool := (Qnum q mod Z.pos (Qden q) =? 0).

End JsNumber.

(** ** bignumber.js *)

Module BigNumber.
Local Open Scope Z_scope.

(** [x.integerValue(BigNumber.ROUND_DOWN)]: towards zero. *)
Definition integerValue_ROUND_DOWN (x : Q) : Z := JsNumber.trunc x.

(** [x.toFixed(0)] under the default [ROUND_HALF_UP]: to the nearest integer,
    ties away from zero. *)
Definition toFixed0 (x : Q) : Z :=
  let n := Qnum x in
  let d := Z.pos (Qden x) in
  if 0 <=? n then (2 * n + d) / (2 * d) else - ((2 * (- n) + d) / (2 * d)).

Definition isLessThan (x y : Q) : bool := negb (Qle_bool y x).

End BigNumber.

(** ** Withdrawals from the main pool *)

(** Modelled from the spec: [saveTransaction] persists a Transaction record
    and [minusBalance] decrements the Balance Record of the user; both live in
    db/wallets, which is not among the sources, so the model records the calls
    with their arguments. The other two effects are the requests made to the
    chain. The effects of a call are listed in the order it makes them. *)
Inductive effect :=
| ChainTransfer (asset to : string) (baseUnits : Z)
| CreateTokenAccount (owner : string)
| SaveTransaction (userId : Z) (address : string) (amount : Q)
    (currency txHash type : string)
| MinusBalance (userId : Z) (amount : Q) (currency : string).

Definition isChainTransfer (x : effect) : bool :=
  match x with ChainTransfer _ _ _ => true | _ => false end.

Definition isLedgerWrite (x : effect) : bool :=
  match x with
  | SaveTransaction _ _ _ _ _ _ | MinusBalance _ _ _ => true
  | _ => false
  end.

(** A JavaScript string is falsy when empty. *)
Definition falsy (s : string) : bool :=
  match s with EmptyString => true | _ => false end.

(** *** blockchain/solana.ts *)

Module Solana.
Import BigNumber.
Local Open Scope Q_scope.

Definition LAMPORTS_PER_SOL : Z := 1000000000%Z.
Definition SOL_WITHDRAWAL_FEE : Q := 5 # 1000.
Definition USDC_WITHDRAWAL_FEE : Q := 1.
Definition MIN_SOL_BALANCE : Q := 1 # 100.
Definition MIN_USDC_BALANCE : Q := 1.

(** The answers of the outside world to one withdrawal call. *)
Record Env := {
  isValidSolanaAddress : string -> bool;   (* new PublicKey(address) *)
  isOnCurve : string -> bool;              (* PublicKey.isOnCurve(address) *)
  getBalance : result Z;                   (* lamports of the main pool *)
  poolTokenAccount : result Z;             (* getAccount(pool ATA).amount *)
  recipientTokenAccount : result unit;     (* getAccount(recipient ATA) *)
  createAccountSend : result string;       (* sendAndConfirm of the ATA creation *)
  transferSend : result string;            (* sendAndConfirm of the transfer *)
  saveTransactionFault : option error;
  minusBalanceFault : option error
}.

(** [getUsdcBalance]: a failing [getAccount] means balance 0. The quotient by
    [1e6] is exact for a balance below 2^53 base units. *)
Definition getUsdcBalance (e : Env) : Q :=
  match poolTokenAccount e with
  | Ok amount => inject_Z amount / 1000000
  | Throw _ => 0
  end.

(** [SystemProgram.transfer] and [createTransferInstruction] write the amount
    as an unsigned 64-bit integer and throw for an amount below 0, while the
    instruction is built and before anything is sent. (An amount of 2^64 or
    more does not pass the balance checks against a balance the chain
    reports.) *)
Definition u64 (units : Z) : result Z :=
  if (units <? 0)%Z then Throw (JsError "amount is not an unsigned integer")
  else Ok units.

(** [getAssociatedTokenAddress(mint, owner)] with its default
    [allowOwnerOffCurve = false]: it derives the address without asking the
    node, and throws for an owner that is not on the curve. *)
Definition getAssociatedTokenAddress (e : Env) (owner : string) : result unit :=
  if isOnCurve e owner then Ok tt else Throw (JsError "TokenOwnerOffCurveError").

(** The tail common to both functions: record the withdrawal, debit the user,
    return the signature. *)
Definition settleLedger (e : Env) (userId : Z) (to : string) (amount : Q)
    (currency signature : string) (done : list effect) : result string * list effect :=
  match saveTransactionFault e with
  | Some err => (Throw err, done)
  | None =>
      let done := (done ++ [SaveTransaction userId to (- amount) currency signature "withdraw"])%list in
      match minusBalanceFault e with
      | Some err => (Throw err, done)
      | None => (Ok signature, (done ++ [MinusBalance userId amount currency])%list)
      end
  end.

Definition withdrawSol (e : Env) (userId : Z) (to : string) (amount : Q)
  : result string * list effect :=
  if negb (isValidSolanaAddress e to) then (Throw (JsError "Invalid Solana address"), [])
  else
    let amountBN := amount in
    let feeBN := SOL_WITHDRAWAL_FEE in
    let totalAmountBN := amountBN + feeBN in
    let lamports :=
      integerValue_ROUND_DOWN (totalAmountBN * inject_Z LAMPORTS_PER_SOL) in
    match getBalance e with
    | Throw err => (Throw err, [])
    | Ok mainPoolBalance =>
        let mainPoolBalanceSOL := inject_Z mainPoolBalance / inject_Z LAMPORTS_PER_SOL in
        if (mainPoolBalance <? lamports)%Z then
          (Throw (JsError "Insufficient SOL balance in main pool"), [])
        else
          let remainingBalance := mainPoolBalanceSOL - totalAmountBN in
          if isLessThan remainingBalance MIN_SOL_BALANCE then
            (Throw (JsError "Insufficient balance after withdrawal"), [])
          else
            match u64 lamports with
            | Throw err => (Throw err, [])
            | Ok lamports =>
                let sent := [ChainTransfer "SOL" to lamports] in
                match transferSend e with
                | Throw err => (Throw err, sent)
                | Ok signature =>
                    if falsy signature then
                      (Throw (JsError "Transaction failed or not broadcasted"), sent)
                    else settleLedger e userId to amount "SOL" signature sent
                end
            end
    end.

Definition withdrawUsdc (e : Env) (userId : Z) (to : string) (amount : Q)
  : result string * list effect :=
  if negb (isValidSolanaAddress e to) then (Throw (JsError "Invalid Solana address"), [])
  else
    let amountBN := amount in
    let feeBN := USDC_WITHDRAWAL_FEE in
    let totalAmountBN := amountBN + feeBN in
    match getAssociatedTokenAddress e to with
    | Throw err => (Throw err, [])
    | Ok _ =>
        let mainPoolUsdcBalanceBN := getUsdcBalance e in
        if isLessThan mainPoolUsdcBalanceBN totalAmountBN then
          (Throw (JsError "Insufficient USDC balance in main pool"), [])
        else
          let remainingBalance := mainPoolUsdcBalanceBN - totalAmountBN in
          if isLessThan remainingBalance MIN_USDC_BALANCE then
            (Throw (JsError "Insufficient balance after withdrawal"), [])
          else
            let created :=
              match recipientTokenAccount e with
              | Ok _ => Ok []
              | Throw _ =>
                  match createAccountSend e with
                  | Ok _ => Ok [CreateTokenAccount to]
                  | Throw err => Throw err
                  end
              end in
            match created with
            | Throw err => (Throw err, [CreateTokenAccount to])
            | Ok done =>
                let transferAmount :=
                  integerValue_ROUND_DOWN (totalAmountBN * 1000000) in
                match u64 transferAmount with
                | Throw err => (Throw err, done)
                | Ok transferAmount =>
                    let sent :=
                      (done ++ [ChainTransfer "USDC" to transferAmount])%list in
                    match transferSend e with
                    | Throw err => (Throw err, sent)
                    | Ok signature =>
                        if falsy signature then
                          (Throw (JsError "Transaction failed or not broadcasted"),
                           sent)
                        else settleLedger e userId to amount "USDC" signature sent
                    end
                end
            end
    end.

(** [getWithdrawalFees()] and [getMinimumBalances()] *)
Definition getWithdrawalFees : gmap string Q :=
  <["SOL" := SOL_WITHDRAWAL_FEE]> (<["USDC" := USDC_WITHDRAWAL_FEE]> ∅).

Definition getMinimumBalances : gmap string Q :=
  <["SOL" := MIN_SOL_BALANCE]> (<["USDC" := MIN_USDC_BALANCE]> ∅).

(** Base units per unit of the two assets. *)
Definition baseUnits (currency : string) : Z :=
  if String.eqb currency "SOL" then LAMPORTS_PER_SOL else 1000000%Z.

(** The pool balance a withdrawal of [currency] is checked against. *)
Definition poolBalance (e : Env) (currency : string) : result Q :=
  if String.eqb currency "SOL" then
    match getBalance e with
    | Ok lamports => Ok (inject_Z lamports / inject_Z LAMPORTS_PER_SOL)
    | Throw err => Throw err
    end
  else Ok (getUsdcBalance e).

(** The withdrawal function of a currency of the fee schedule. *)
Definition withdraw (currency : string) : Env -> Z -> string -> Q -> result string * list effect :=
  if String.eqb currency "SOL" then withdrawSol else withdrawUsdc.

End Solana.

(** *** blockchain/tron.ts *)

Module Tron.
Import BigNumber.
Local Open Scope Q_scope.

(** The answers of the outside world to one withdrawal call. *)
Record Env := {
  isAddress : string -> bool;            (* tronWeb.isAddress(address) *)
  isOwnAddress : string -> bool;         (* the address of MAIN_POOL_PK *)
  contractSend : result string;          (* contract.transfer(..).send(..) -> txId *)
  sendTransaction : result string;       (* trx.sendTransaction(..) -> tx.txid *)
  saveTransactionFault : option error
}.

Definition withdrawTokenTron (e : Env) (userId : Z) (to : string) (amount : Q)
  : result string * list effect :=
  let rawAmount := toFixed0 (amount * 1000000) in
  let sent := [ChainTransfer "USDT" to rawAmount] in
  match contractSend e with
  | Throw err => (Throw err, sent)
  | Ok txId =>
      match saveTransactionFault e with
      | Some err => (Throw err, sent)
      | None =>
          (Ok txId, (sent ++ [SaveTransaction userId to (- amount) "USDT" "-" "withdraw"])%list)
      end
  end.

(** The checks [trx.sendTransaction(to, amount)] of the client library makes
    on its arguments before it asks anything of the node: the recipient must
    be an address, the amount an integer above 0 ([None] is [NaN]), and the
    recipient must not be the sender, which is the main pool here. *)
Definition checkSendTransaction (e : Env) (to : string) (amount : option Z)
  : result Z :=
  if negb (isAddress e to) then Throw (JsError "Invalid recipient provided")
  else
    match amount with
    | None => Throw (JsError "Invalid amount provided")
    | Some sun =>
        if (sun <=? 0)%Z then Throw (JsError "Invalid amount provided")
        else if isOwnAddress e to then
          Throw (JsError "Cannot transfer TRX to the same account")
        else Ok sun
    end.

(** [withdrawTrx]: the amount goes through [parseInt(amount.toString())]
    before it is scaled to Sun. The function returns nothing. *)
Definition withdrawTrx (e : Env) (userId : Z) (to : string) (amount : JsNumber.Decimal)
  : result unit * list effect :=
  let rawAmount :=
    option_map (fun whole => (whole * 1000000)%Z)
      (JsNumber.parseInt (JsNumber.toString amount)) in
  match checkSendTransaction e to rawAmount with
  | Throw err => (Throw err, [])
  | Ok rawAmount =>
      let sent := [ChainTransfer "TRX" to rawAmount] in
      match sendTransaction e with
      | Throw err => (Throw err, sent)
      | Ok txid =>
          if falsy txid then (Throw (JsError "Tx failed or not broadcasted"), sent)
          else
            match saveTransactionFault e with
            | Some err => (Throw err, sent)
            | None =>
                (Ok tt,
                 (sent ++ [SaveTransaction userId to (- JsNumber.value amount)
                             "TRX" txid "withdraw"])%list)
            end
      end
  end.

End Tron.

(** The reading of "reserve preservation" for one withdrawal request: when the
    pool balance less the amount and the fee is below the reserve, the call
    rejects and has asked nothing of the chain or the ledger. *)
Definition reserveGuard (pool fee reserve a : Q)
    (outcome : result string * list effect) : Prop :=
  (pool - (a + fee) < reserve)%Q ->
  is_ok (fst outcome) = false /\ snd outcome = [].

(** The reading of "at most one scan in flight" for a poller and a history of
    events. *)
Definition singleFlight (k : Poller.poller) (trace : list Poller.event) : Prop :=
  (Poller.inFlight (Poller.runEvents k trace Poller.idle) <= 1)%nat.

(** ** utils/exchange.ts: the rates offered for withdrawals *)

Module WithdrawRates.
Import Exchange.

(** [getWithdrawRates]: the object literal built from [getRate()]. *)
Definition getWithdrawRates (http : result PriceData) : result (gmap string float) :=
  match getRate http with
  | Throw e => Throw e
  | Ok rates =>
      Ok (<["TRX" := TRX_USDT rates]>
         (<["ETH" := ETH_USDT rates]>
         (<["USDT" := USDT_USDT rates]>
         (<["SOL" := SOL_USDT rates]> ∅))))
  end.

End WithdrawRates.

(** ** Later cycles of a listener *)

Module ListenerCycles.
Import Store DepositListener.

(** A later poll cycle in which the candidate shows up again: whether the
    process was restarted since the previous one, and what the store and the
    oracle answer this time. *)
Record Cycle := {
  restarted : bool;
  env : Env
}.

Definition handleAgain (net cur : string) (c : Candidate) (w : World) (k : Cycle)
  : World :=
  snd (handleCandidate net cur (env k) c (if restarted k then restart w else w)).

Definition laterCycles (net cur : string) (c : Candidate) (ks : list Cycle)
    (w : World) : World :=
  fold_left (handleAgain net cur c) ks w.

End ListenerCycles.

(** ** blockchain/depositListeners/solana.ts: scanning one address *)

Module SolanaListener.
Import Store DepositListener.

Definition LAMPORTS_PER_SOL : float := 1000000000%float.

(** An instruction of the transaction message. [parsedType] is
    [instruction.parsed?.type], [None] for an instruction without a [parsed]
    member; the other fields are those of [parsed.info] ([lamports] after
    ToNumber). *)
Record Instruction := {
  parsedType : option string;
  destination : string;
  source : string;
  lamports : float
}.

Record ParsedTransaction := {
  metaOk : bool;                      (* meta && !meta.err *)
  instructions : list Instruction
}.

Record Transfer := {
  t_amount : float;
  t_fromAddress : string
}.

Definition isTransferTo (userAddress : string) (i : Instruction) : bool :=
  match parsedType i with
  | Some t => String.eqb t "transfer" && String.eqb (destination i) userAddress
  | None => false
  end.

Definition transferOf (i : Instruction) : Transfer :=
  {| t_amount := (lamports i / LAMPORTS_PER_SOL)%float;
     t_fromAddress := source i |}.

(** The [for (const instruction of instructions)] loop, which returns from
    inside at the first transfer to the address. *)
Fixpoint firstTransfer (userAddress : string) (l : list Instruction) : option Transfer :=
  match l with
  | [] => None
  | i :: rest =>
      if isTransferTo userAddress i then Some (transferOf i)
      else firstTransfer userAddress rest
  end.

Definition parseSOLTransfer (transaction : ParsedTransaction) (userAddress : string)
  : option Transfer :=
  if negb (metaOk transaction) then None
  else firstTransfer userAddress (instructions transaction).

(** One entry of [getSignaturesForAddress], with what the node answers to
    [getParsedTransaction] for it and what store and oracle answer while it
    is handled. *)
Record SignatureInfo := {
  signature : string;
  slot : Z;
  getParsedTransaction : result (option ParsedTransaction);
  env : Env
}.

Definition candidate (userId : Z) (address : string) (s : SignatureInfo) (t : Transfer)
  : Candidate :=
  {| c_userId := userId;
     c_txHash := signature s;
     c_fromAddress := t_fromAddress t;
     c_toAddress := address;
     c_amount := t_amount t;
     c_blockNumber := slot s |}.

(** One iteration of the loop of [monitorSolanaAddress]. [Throw] is a
    rejection of [isTransactionProcessed], which is awaited outside the inner
    [try] and so ends the loop; whatever is thrown inside the inner [try] is
    logged and the loop goes on. *)
Definition forSignature (userId : Z) (address : string) (s : SignatureInfo) (w : World)
  : result unit * World :=
  match isTransactionProcessed (env s) (signature s) w with
  | (Throw err, w1) => (Throw err, w1)
  | (Ok true, w1) => (Ok tt, w1)
  | (Ok false, w1) =>
      match getParsedTransaction s with
      | Throw _ => (Ok tt, w1)
      | Ok None => (Ok tt, w1)
      | Ok (Some transaction) =>
          match parseSOLTransfer transaction address with
          | Some transfer =>
              if (0 <? t_amount transfer)%float then
                (Ok tt,
                 snd (processDeposit "Solana" "SOL" (env s)
                        (candidate userId address s transfer) w1))
              else (Ok tt, w1)
          | None => (Ok tt, w1)
          end
      end
  end.

Fixpoint forSignatures (userId : Z) (address : string) (sigs : list SignatureInfo)
    (w : World) : result unit * World :=
  match sigs with
  | [] => (Ok tt, w)
  | s :: rest =>
      match forSignature userId address s w with
      | (Throw err, w1) => (Throw err, w1)
      | (Ok _, w1) => forSignatures userId address rest w1
      end
  end.

(** [monitorSolanaAddress]: [validKey] is whether [new PublicKey(address)]
    succeeds; the outer [catch] logs whatever ends the scan early. *)
Definition monitorSolanaAddress (userId : Z) (address : string) (validKey : bool)
    (getSignaturesForAddress : result (list SignatureInfo)) (w : World) : World :=
  if negb validKey then w
  else
    match getSignaturesForAddress with
    | Throw _ => w
    | Ok sigs => snd (forSignatures userId address sigs w)
    end.

(** The transfer to [address] that the node reports for a signature, if it
    is one the loop would hand to [processDeposit]. *)
Definition detected (address : string) (s : SignatureInfo) : option Transfer :=
  match getParsedTransaction s with
  | Ok (Some transaction) =>
      match parseSOLTransfer transaction address with
      | Some transfer => if (0 <? t_amount transfer)%float then Some transfer else None
      | None => None
      end
  | _ => None
  end.

(** What the chain says about a signature, without the answers of store and
    oracle. *)
Definition chainView (s : SignatureInfo)
  : string * Z * result (option ParsedTransaction) :=
  (signature s, slot s, getParsedTransaction s).

(** Every hash in the in-memory set has a Deposit row. *)
Definition cacheSound (w : World) : Prop :=
  forall h, h ∈ processedTransactions w -> (1 <= recordCount h w)%nat.

(** [w'] comes from [w] by steps that only add Deposit rows under fresh
    hashes, keep the set sound and touch no balance but that of [(u, cur)]. *)
Definition extends (u : Z) (cur : string) (w w' : World) : Prop :=
  (forall h, (recordCount h w <= recordCount h w')%nat)
  /\ ((forall h, (recordCount h w <= 1)%nat) -> forall h, (recordCount h w' <= 1)%nat)
  /\ (cacheSound w -> cacheSound w')
  /\ (forall k, k <> (u, cur) -> balances (db w') !! k = balances (db w) !! k).

End SolanaListener.

(** ** blockchain/solana-deposits.ts: which address a transaction credits *)

Module SolanaTransfers.
Import SolanaDeposits.

(** The guards of one iteration of [processSolanaTransaction]: the address
    is a Solana one and the transaction moves a positive amount to it. *)
Definition qualifies (x : Detected) : bool :=
  String.eqb (ua_blockchain (userAddress x)) "Solana"
  && (isTransfer (transferInfo x) && (0 <? ti_amount (transferInfo x))%float).

End SolanaTransfers.

(** *** blockchain/solana.ts: asking whether a withdrawal would pass *)

Module SolanaChecks.
Import BigNumber Solana.
Local Open Scope Q_scope.

(** [getMainPoolSolBalance]: whatever fails is rethrown as one fixed error.
    The caller gets a [number] and wraps it in a [BigNumber] again, which
    gives the quotient back for a pool below 10^15 lamports. *)
Definition getMainPoolSolBalance (e : Env) : result Q :=
  match getBalance e with
  | Ok balance => Ok (inject_Z balance / inject_Z LAMPORTS_PER_SOL)
  | Throw _ => Throw (JsError "Failed to get main pool SOL balance")
  end.

Definition getMainPoolUsdcBalance (e : Env) : result Q := Ok (getUsdcBalance e).

(** The object [{ canWithdraw, reason }]. The reason is a message built from
    the three figures, or the message of the error caught. *)
Inductive verdict :=
| Allowed
| BelowReserve (totalRequired available mustMaintain : Q)
| Unavailable (err : error).

Definition canWithdraw (v : verdict) : bool :=
  match v with Allowed => true | _ => false end.

Definition canWithdrawSol (e : Env) (amount : Q) : verdict :=
  match getMainPoolSolBalance e with
  | Throw err => Unavailable err
  | Ok mainPoolBalance =>
      let totalRequired := amount + SOL_WITHDRAWAL_FEE in
      let remainingBalance := mainPoolBalance - totalRequired in
      if isLessThan remainingBalance MIN_SOL_BALANCE
      then BelowReserve totalRequired mainPoolBalance MIN_SOL_BALANCE
      else Allowed
  end.

Definition canWithdrawUsdc (e : Env) (amount : Q) : verdict :=
  match getMainPoolUsdcBalance e with
  | Throw err => Unavailable err
  | Ok mainPoolBalance =>
      let totalRequired := amount + USDC_WITHDRAWAL_FEE in
      let remainingBalance := mainPoolBalance - totalRequired in
      if isLessThan remainingBalance MIN_USDC_BALANCE
      then BelowReserve totalRequired mainPoolBalance MIN_USDC_BALANCE
      else Allowed
  end.

(** The effects a withdrawal may leave behind once it is past its guards, in
    the order it makes them: the transfer, then the record, then the debit;
    it resolves only when all three are done. *)
Definition transferThenLedger (userId : Z) (to : string) (amount : Q)
    (currency : string) (r : result string) (effs : list effect) : Prop :=
  exists units signature,
    (is_ok r = false /\ effs = [ChainTransfer currency to units])
    \/ (is_ok r = false
        /\ effs = [ChainTransfer currency to units;
                   SaveTransaction userId to (- amount) currency signature "withdraw"])
    \/ (r = Ok signature
        /\ effs = [ChainTransfer currency to units;
                   SaveTransaction userId to (- amount) currency signature "withdraw";
                   MinusBalance userId amount currency]).

End SolanaChecks.

(** ** Ethereum: processing a transaction and choosing the blocks to scan *)

(** [String.prototype.toLowerCase] on ASCII strings. *)
Module JsString.

Definition lower_ascii (c : ascii) : ascii :=
  let n := nat_of_ascii c in
  if (andb (Nat.leb 65 n) (Nat.leb n 90)) then ascii_of_nat (n + 32) else c.

Fixpoint toLowerCase (s : string) : string :=
  match s with
  | EmptyString => EmptyString
  | String c rest => String (lower_ascii c) (toLowerCase rest)
  end.

End JsString.

(** *** blockchain/ethereum-deposits.ts *)

Module EthereumScan.
Import Store DbDeposits Ethers JsString.

Definition BLOCK_RANGE : Z := 100.

(** One user address of the [for] loop of [processEthereumTransaction], with
    the answers of the outside world during its iteration: the two awaited
    [receipt.confirmations()] and what store and oracle say. *)
Record Watched := {
  userAddress : SolanaDeposits.UserAddress;
  confirmationsAtCreate : result Z;
  confirmationsAtUpdate : result Z;
  env : Env
}.

Definition await {A} (r : result A) : Prisma A := fun db => (r, db).

(** One iteration; [Ok tt] also stands for [continue]. *)
Definition recordTransfer (txHash toAddress : string) (fromAddress : option string)
    (value : float) (blockNumber : Z) (x : Watched) : Prisma unit :=
  let ua := userAddress x in
  let e := env x in
  if negb (String.eqb (SolanaDeposits.ua_blockchain ua) "Ethereum") then ret tt
  else
    let userAddr := toLowerCase (SolanaDeposits.ua_address ua) in
    if String.eqb toAddress userAddr then
      exists_ <- depositExists e txHash ;;
      if (exists_ : bool) then ret tt
      else
        confirmations <- await (confirmationsAtCreate x) ;;
        _ <- createDeposit e
               {| d_userId := SolanaDeposits.ua_userId ua;
                  d_txHash := txHash;
                  d_fromAddress := fromAddress;
                  d_toAddress := SolanaDeposits.ua_address ua;
                  d_currency := "ETH";
                  d_network := "Ethereum";
                  d_amount := value;
                  d_blockNumber := Some blockNumber;
                  d_confirmations := Some confirmations |} ;;
        confirmations' <- await (confirmationsAtUpdate x) ;;
        _ <- updateDepositStatus e txHash confirmed (Some confirmations') ;;
        updateUserBalanceAfterDeposit e (SolanaDeposits.ua_userId ua) "ETH" value
    else ret tt.

Fixpoint forEach (txHash toAddress : string) (fromAddress : option string)
    (value : float) (blockNumber : Z) (xs : list Watched) : Prisma unit :=
  match xs with
  | [] => ret tt
  | x :: rest =>
      _ <- recordTransfer txHash toAddress fromAddress value blockNumber x ;;
      forEach txHash toAddress fromAddress value blockNumber rest
  end.

(** [processEthereumTransaction]. [value] is [weiToEth(tx.value)], the amount
    in ETH as a [number] (ethers' [formatEther] read back by [parseFloat]).
    The surrounding [try/catch] logs a rejection and returns, keeping what
    was written before it. *)
Definition processEthereumTransaction (tx : option TransactionResponse)
    (receipt : option TransactionReceipt) (value : float)
    (userAddresses : list Watched) (db : Db) : Db :=
  match tx, receipt with
  | Some tx, Some receipt =>
      if negb (receipt_status receipt =? 1) then db
      else
        let txHash := hash tx in
        let toAddress := option_map toLowerCase (tx_to tx) in
        let fromAddress := toLowerCase (tx_from tx) in
        match toAddress with
        | None => db
        | Some toAddress =>
            if falsy toAddress || (value <=? 0)%float then db
            else
              snd (forEach txHash toAddress
                     (if falsy fromAddress then None else Some fromAddress)
                     value (receipt_blockNumber receipt) userAddresses db)
        end
  | _, _ => db
  end.

(** [checkRecentBlocksForDeposits], from the module variable
    [lastProcessedBlock] and the store to their values after the call.
    [valueOf] is [weiToEth] on the value of a transaction. *)
Definition checkRecentBlocksForDeposits (p : Provider)
    (valueOf : TransactionResponse -> float) (userAddresses : list Watched)
    (lastProcessedBlock : Z) (db : Db) : Z * Db :=
  match getBlockNumber p with
  | Throw _ => (lastProcessedBlock, db)
  | Ok currentBlock =>
      let fromBlock := Z.max (currentBlock - BLOCK_RANGE) (lastProcessedBlock + 1) in
      let ethAddresses :=
        map (fun x => toLowerCase (SolanaDeposits.ua_address (userAddress x)))
          (List.filter
             (fun x => String.eqb (SolanaDeposits.ua_blockchain (userAddress x)) "Ethereum")
             userAddresses) in
      match ethAddresses with
      | [] => (lastProcessedBlock, db)
      | _ =>
          let scan (db : Db) (address : string) : Db :=
            match EthereumDeposits.getRecentTransactionsForAddress
                    p address fromBlock currentBlock with
            | Ok transactions =>
                fold_left
                  (fun db '(tx, receipt) =>
                     processEthereumTransaction (Some tx) (Some receipt) (valueOf tx)
                       userAddresses db)
                  transactions db
            | Throw _ => db
            end in
          (currentBlock, fold_left scan ethAddresses db)
      end
  end.

(** The log query of a scan between two blocks for an address. *)
Definition query (address : string) (from to : Z) : Filter :=
  {| f_address := address; fromBlock := from; toBlock := to; topics := [] |}.

End EthereumScan.

(** *** blockchain/depositListeners/ethereum.ts *)

Module EthereumMonitor.
Import Store DepositListener Ethers JsString.

(** The [where] of the [findFirst] that looks for the last deposit. *)
Definition toThisAddress (userId : Z) (address : string) (d : Deposit) : bool :=
  (Store.userId d =? userId) && String.eqb (network d) "Ethereum"
  && String.eqb (toAddress d) address.

(** [orderBy: { blockNumber: 'desc' }]: a row comes before another when its
    block number is greater, a missing block number counting as greatest (the
    place PostgreSQL gives NULL in descending order). *)
Definition before (x y : option Z) : bool :=
  match x, y with
  | None, _ => true
  | Some _, None => false
  | Some a, Some b => b <=? a
  end.

Definition pickLast (best : option Deposit) (d : Deposit) : option Deposit :=
  match best with
  | None => Some d
  | Some b => if before (blockNumber b) (blockNumber d) then Some b else Some d
  end.

(** [prisma.deposit.findFirst({ where: { userId, network, toAddress },
    orderBy: { blockNumber: 'desc' } })] *)
Definition findLastDeposit (f : fault) (userId : Z) (address : string)
  : Prisma (option Deposit) :=
  fun db =>
    match f with
    | Some e => (Throw e, db)
    | None =>
        (Ok (fold_left pickLast (List.filter (toThisAddress userId address) (deposits db)) None),
         db)
    end.

(** [lastDeposit ? Number(lastDeposit.blockNumber) + 1 : 0];
    [Number(null)] is 0. *)
Definition nextBlock (lastDeposit : option Deposit) : Z :=
  match lastDeposit with
  | Some d => match blockNumber d with Some n => n + 1 | None => 1 end
  | None => 0
  end.

Record Transfer := {
  t_amount : float;
  t_fromAddress : string
}.

(** [parseETHTransfer]; [valueOf] is [parseFloat(ethers.formatEther(..))] on
    the value of the transaction. *)
Definition parseETHTransfer (valueOf : TransactionResponse -> float)
    (transaction : TransactionResponse) (userAddress : string) : option Transfer :=
  match tx_to transaction with
  | Some to =>
      if String.eqb (toLowerCase to) (toLowerCase userAddress)
         && (0 <? value transaction)
      then Some {| t_amount := valueOf transaction; t_fromAddress := tx_from transaction |}
      else None
  | None => None
  end.

Definition candidate (userId : Z) (address : string) (transaction : TransactionResponse)
    (t : Transfer) : Candidate :=
  {| c_userId := userId;
     c_txHash := hash transaction;
     c_fromAddress := t_fromAddress t;
     c_toAddress := address;
     c_amount := t_amount t;
     c_blockNumber := default 0 (tx_blockNumber transaction) |}.

(** One iteration of the loop of [monitorEthereumAddress]; [Throw] is a
    rejection of [isTransactionProcessed], which ends the loop. *)
Definition forTransaction (valueOf : TransactionResponse -> float)
    (envOf : TransactionResponse -> Env) (userId : Z) (address : string)
    (transaction : TransactionResponse) (w : World) : result unit * World :=
  match isTransactionProcessed (envOf transaction) (hash transaction) w with
  | (Throw err, w1) => (Throw err, w1)
  | (Ok true, w1) => (Ok tt, w1)
  | (Ok false, w1) =>
      match parseETHTransfer valueOf transaction address with
      | Some transfer =>
          if (0 <? t_amount transfer)%float then
            (Ok tt,
             snd (processDeposit "Ethereum" "ETH" (envOf transaction)
                    (candidate userId address transaction transfer) w1))
          else (Ok tt, w1)
      | None => (Ok tt, w1)
      end
  end.

Fixpoint forTransactions (valueOf : TransactionResponse -> float)
    (envOf : TransactionResponse -> Env) (userId : Z) (address : string)
    (transactions : list TransactionResponse) (w : World) : result unit * World :=
  match transactions with
  | [] => (Ok tt, w)
  | transaction :: rest =>
      match forTransaction valueOf envOf userId address transaction w with
      | (Throw err, w1) => (Throw err, w1)
      | (Ok _, w1) => forTransactions valueOf envOf userId address rest w1
      end
  end.

(** [monitorEthereumAddress]: [find_last] is the outcome the store gives the
    lookup of the last deposit, [envOf] what store and oracle answer while a
    transaction is handled. The outer [catch] logs whatever ends the scan
    early. *)
Definition monitorEthereumAddress (p : Provider)
    (valueOf : TransactionResponse -> float) (find_last : fault)
    (envOf : TransactionResponse -> Env) (userId : Z) (address : string)
    (w : World) : World :=
  match findLastDeposit find_last userId address (db w) with
  | (Throw _, _) => w
  | (Ok lastDeposit, _) =>
      let fromBlock := nextBlock lastDeposit in
      match getBlockNumber p with
      | Throw _ => w
      | Ok currentBlock =>
          if currentBlock <=? fromBlock then w
          else
            match EthereumListener.getRecentTransactions p address fromBlock with
            | Throw _ => w
            | Ok transactions =>
                snd (forTransactions valueOf envOf userId address transactions w)
            end
      end
  end.

(** The log query the listener makes for an address from a block, when the
    chain is at [currentBlock]. *)
Definition query (address : string) (from currentBlock : Z) : Filter :=
  {| f_address := address;
     fromBlock := from;
     toBlock := Z.min currentBlock (from + 1000);
     topics := [EthereumListener.transferTopic] |}.

End EthereumMonitor.

(** ** blockchain/tron.ts: sweeping deposits into the main pool *)

(** [BigNumber.prototype.toNumber], and the reading of a decimal string by
    [parseFloat]: the binary64 value nearest to the decimal, ties to even.
    Numerator and denominator of the fraction in lowest terms enter the
    division of the IEEE specification as integers of any size, so the
    quotient is rounded once. *)
Module Numbers.

Definition toNumber (q : Q) : float :=
  let r := Qred q in
  match Qnum r with
  | Z0 => 0%float
  | Zpos n =>
      SF2Prim (SFdiv prec emax (S754_finite false n 0)
                 (S754_finite false (Qden r) 0))
  | Zneg n =>
      SF2Prim (SFdiv prec emax (S754_finite true n 0)
                 (S754_finite false (Qden r) 0))
  end.

(** [Number.isInteger] *)
Definition isInteger (x : float) : bool :=
  match Prim2SF x with
  | S754_zero _ => true
  | S754_finite _ m e => (0 <=? e) || (Z.pos m mod 2 ^ (- e) =? 0)
  | _ => false
  end.

End Numbers.

Module TronSweep.
Import Numbers.
Local Open Scope Q_scope.

Definition MIN_SWEEP_USDT : float := 10%float.
Definition GAS_AMOUNT : Z := 2000000%Z.

(** Modelled from the spec: [saveTransaction] and [topBalance] persist a
    Transaction record and credit the Balance Record of the user; both live
    in db/wallets, which is not among the sources, so the model records the
    calls with their arguments once they have succeeded. The other effects
    are the transfers asked of the chain, listed when they are submitted,
    whether or not the node answers. *)
Inductive effect :=
| PoolSendsTrx (to : string) (sun : Z)            (* the gas top-up *)
| DepositSendsToken (from : string) (raw : Z)     (* USDT to the main pool *)
| DepositSendsTrx (from : string) (sun : float)   (* TRX to the main pool *)
| saveTransaction (userId : Z) (address : string) (amount : float)
    (currency txHash type : string)
| topBalance (userId : Z) (amount : float) (currency : string).

(** The answers of the outside world to one call of
    [maybeSweepUserDeposit]. *)
Record SweepEnv := {
  getBalance : result Z;                  (* trx.getBalance(depositAddr), in Sun *)
  topUpSend : result string;              (* sendTransaction(depositAddr, GAS_AMOUNT) *)
  waitForConfirmation : result unit;
  contractAt : result unit;               (* contract().at(USDT_CONTRACT) *)
  transferSend : result string;           (* contract2.transfer(..).send(..) *)
  saveTransactionFault : option error;
  topBalanceFault : option error
}.

(** The gas top-up block of [maybeSweepUserDeposit]. *)
Definition topUp (e : SweepEnv) (depositAddr : string) (trxBalance : Z)
  : result unit * list effect :=
  if (trxBalance <? GAS_AMOUNT)%Z then
    match topUpSend e with
    | Throw err => (Throw err, [PoolSendsTrx depositAddr GAS_AMOUNT])
    | Ok txid =>
        match waitForConfirmation e with
        | Throw err => (Throw err, [PoolSendsTrx depositAddr GAS_AMOUNT])
        | Ok _ => (Ok tt, [PoolSendsTrx depositAddr GAS_AMOUNT])
        end
    end
  else (Ok tt, []).

(** [maybeSweepUserDeposit]: resolves with [undefined] below the threshold,
    with the id of the sweep transaction otherwise. *)
Definition maybeSweepUserDeposit (e : SweepEnv) (depositAddr incomingTxId : string)
    (userId : Z) (balanceRaw : Z) : result (option string) * list effect :=
  let balance := toNumber (inject_Z balanceRaw / 1000000) in
  if (balance <? MIN_SWEEP_USDT)%float then (Ok None, [])
  else
    match getBalance e with
    | Throw err => (Throw err, [])
    | Ok trxBalance =>
        match topUp e depositAddr trxBalance with
        | (Throw err, effs) => (Throw err, effs)
        | (Ok _, effs) =>
            match contractAt e with
            | Throw err => (Throw err, effs)
            | Ok _ =>
                let effs := (effs ++ [DepositSendsToken depositAddr balanceRaw])%list in
                match transferSend e with
                | Throw err => (Throw err, effs)
                | Ok txId =>
                    let amountToSend := toNumber (inject_Z balanceRaw / 1000000) in
                    match saveTransactionFault e with
                    | Some err => (Throw err, effs)
                    | None =>
                        let effs :=
                          (effs ++ [saveTransaction userId depositAddr amountToSend
                                      "USDT" incomingTxId "deposit"])%list in
                        match topBalanceFault e with
                        | Some err => (Throw err, effs)
                        | None =>
                            (Ok (Some txId),
                             (effs ++ [topBalance userId amountToSend "USD"])%list)
                        end
                    end
                end
            end
        end
    end.

Record Wallet := {
  userId : Z;
  publicKey : string
}.

(** The answers of the outside world to one call of [transferToMain]. *)
Record MainEnv := {
  decryptPrivateKey : result unit;
  sendTransaction : result string;            (* tx.txid *)
  http : result Exchange.PriceData;           (* fetch behind convert *)
  main_saveTransactionFault : option error;
  main_topBalanceFault : option error
}.

(** [transferToMain]: every failure is caught and logged, so the call
    resolves with nothing in all cases and only its effects tell what
    happened. [trx.sendTransaction] asks nothing of the node for an amount
    that is not an integer above 0; [MAIN_POOL_ADDRESS] is the configured
    address of the pool, an address other than the deposit addresses. *)
Definition transferToMain (e : MainEnv) (wallet : Wallet) (amount : Q) (txId : string)
  : list effect :=
  match decryptPrivateKey e with
  | Throw _ => []
  | Ok _ =>
      let feeBuffer := 1 # 10 in
      let amountToSend := amount - feeBuffer in
      let amountSun := toNumber (amountToSend * 1000000) in
      if negb (isInteger amountSun) || (amountSun <=? 0)%float then []
      else
        let effs := [DepositSendsTrx (publicKey wallet) amountSun] in
        match sendTransaction e with
        | Throw _ => effs
        | Ok _ =>
            match Exchange.convert (http e) (toNumber amount) "TRX" "USDT" with
            | Throw _ => effs
            | Ok amountUSD =>
                match main_saveTransactionFault e with
                | Some _ => effs
                | None =>
                    let effs :=
                      (effs ++ [saveTransaction (userId wallet) (publicKey wallet)
                                  (toNumber amountToSend) "TRX" txId "deposit"])%list in
                    match main_topBalanceFault e with
                    | Some _ => effs
                    | None =>
                        (effs ++ [topBalance (userId wallet) amountUSD "USD"])%list
                    end
                end
            end
        end
  end.








End TronSweep.

(** ** blockchain/depositListeners/index.ts: the monitoring service *)

Module MonitoringService.

(** The event loop's interval timers, by the function they call. The ids
    [setInterval] returns are dropped by the three
    [start...DepositMonitoring] functions. *)
Inductive monitor := Solana | Ethereum | Tron.

(** The service object, with the timers alive in the process and the number
    of scans started. *)
Record Service := {
  isRunning : bool;
  intervals : list nat;          (* this.intervals: timer ids to clear *)
  timers : list (nat * monitor); (* live timers: id, function *)
  nextId : nat;
  scansStarted : nat
}.

Definition initial : Service :=
  {| isRunning := false; intervals := []; timers := []; nextId := 0;
     scansStarted := 0 |}.

(** [start<Chain>DepositMonitoring]: one scan at once, then a timer. *)
Definition startMonitoring (m : monitor) (s : Service) : Service :=
  {| isRunning := isRunning s;
     intervals := intervals s;
     timers := timers s ++ [(nextId s, m)];
     nextId := S (nextId s);
     scansStarted := S (scansStarted s) |}.

Definition clearInterval (id : nat) (s : Service) : Service :=
  {| isRunning := isRunning s;
     intervals := intervals s;
     timers := List.filter (fun t => negb (Nat.eqb (fst t) id)) (timers s);
     nextId := nextId s;
     scansStarted := scansStarted s |}.

Definition stop (s : Service) : Service :=
  if negb (isRunning s) then s
  else
    let s := fold_left (fun s id => clearInterval id s) (intervals s) s in
    {| isRunning := false;
       intervals := [];
       timers := timers s;
       nextId := nextId s;
       scansStarted := scansStarted s |}.

(** [start]: none of the three calls in the [try] throws (each calls an
    [async] function without awaiting it and sets a timer). *)
Definition start (s : Service) : Service :=
  if isRunning s then s
  else
    let s := startMonitoring Tron (startMonitoring Ethereum (startMonitoring Solana s)) in
    {| isRunning := true;
       intervals := intervals s;
       timers := timers s;
       nextId := nextId s;
       scansStarted := scansStarted s |}.

Inductive call := Start | Stop.

Definition react (s : Service) (c : call) : Service :=
  match c with Start => start s | Stop => stop s end.

Definition after (calls : list call) : Service := fold_left react calls initial.

End MonitoringService.

(** ** db/deposits.ts: pages of deposits *)

Module DepositPages.
Import Store.

Record DepositListResponse := {
  deposits : list Deposit;
  total : nat;
  page : positive;
  limit : positive;
  totalPages : nat
}.

(** [findMany({ where, skip, take, orderBy })] on the rows that match
    [where], given in the order of [orderBy]. *)
Definition findMany (matching : list Deposit) (skip take : nat) : list Deposit :=
  firstn take (skipn skip matching).

(** [Math.ceil(total / limit)], exact as long as [total * limit] stays below
    2^53. *)
Definition ceilDiv (total limit : nat) : nat :=
  Nat.div (total + limit - 1) limit.

(** [getDeposits], for a page number and a page size that are positive
    integers (the defaults are 1 and 10); [matching] is what the store holds
    for the filters, newest first. *)
Definition getDeposits (matching : list Deposit) (page limit : positive)
  : DepositListResponse :=
  let skip := ((Pos.to_nat page - 1) * Pos.to_nat limit)%nat in
  {| deposits := findMany matching skip (Pos.to_nat limit);
     total := length matching;
     page := page;
     limit := limit;
     totalPages := ceilDiv (length matching) (Pos.to_nat limit) |}.

(** The pages 1, 2, ..., n of a listing, one after the other. *)
Fixpoint firstPages (matching : list Deposit) (limit : positive) (n : nat)
  : list Deposit :=
  match n with
  | O => []
  | S n' =>
      (firstPages matching limit n'
       ++ deposits (getDeposits matching (Pos.of_nat n) limit))%list
  end.

End DepositPages.

(** ** db/deposits.ts: two balance updates at once *)

Module BalanceUpdates.
Import Store DbDeposits.

(** The two awaited store calls of [updateUserBalanceAfterDeposit]; another
    call may run between them. *)
Definition find (e : Env) (u : Z) (cur : string) : Prisma (option float) :=
  balance_findFirst (balance_find_fault e) u cur.

Definition write (e : Env) (u : Z) (cur : string) (amount : float)
    (balance : option float) : Prisma unit :=
  match balance with
  | Some _ => balance_increment (balance_write_fault e) u cur amount
  | None => balance_create (balance_write_fault e) u cur amount
  end.

(** Two calls for the same user and currency, the second one starting while
    the first is suspended at its first [await]: both look the balance up,
    then both write. *)
Definition overlapped (eA eB : Env) (u : Z) (cur : string) (a b : float) (db : Db)
  : result unit * result unit * Db :=
  match find eA u cur db with
  | (Throw err, db1) =>
      let '(rB, db2) := updateUserBalanceAfterDeposit eB u cur b db1 in
      (Throw err, rB, db2)
  | (Ok balanceA, db1) =>
      match find eB u cur db1 with
      | (Throw err, db2) =>
          let '(rA, db3) := write eA u cur a balanceA db2 in
          (rA, Throw err, db3)
      | (Ok balanceB, db2) =>
          let '(rA, db3) := write eA u cur a balanceA db2 in
          let '(rB, db4) := write eB u cur b balanceB db3 in
          (rA, rB, db4)
      end
  end.

(** The same two calls one after the other. *)
Definition inTurn (eA eB : Env) (u : Z) (cur : string) (a b : float) (db : Db)
  : result unit * result unit * Db :=
  let '(rA, db1) := updateUserBalanceAfterDeposit eA u cur a db in
  let '(rB, db2) := updateUserBalanceAfterDeposit eB u cur b db1 in
  (rA, rB, db2).

End BalanceUpdates.

(** ** blockchain/depositListeners/tron.ts: the manual check of an address *)

Module TronCheck.
Import Store DepositListener TronListener.

(** What [checkTronDepositsForAddress] resolves with: the report, or
    [{ error }]. *)
Inductive CheckResult :=
| Report (address : string) (transactionsChecked depositsFound depositsProcessed : nat)
| Error (e : error).

(** The tests a transaction passes before the wallet is looked up: its first
    contract is a [TransferContract] whose recipient, converted from hex by
    [fromHex], is the address, and the amount in TRX is positive. *)
Definition amountTrx (tx : TronTx) : float :=
  Numbers.toNumber (inject_Z (amountSun tx) / 1000000).

Definition isDepositTo (fromHex : string -> string) (address : string) (tx : TronTx)
  : bool :=
  String.eqb (contractType tx) "TransferContract"
  && String.eqb (fromHex (to_address tx)) address
  && (0 <? amountTrx tx)%float.

(** The loop over the transactions, with the two counters. [findWallet] is
    what [wallet.findFirst] answers while a transaction is handled, [envOf]
    what store and oracle answer to [processDeposit]. A rejection leaves the
    loop for the [catch] of the function. *)
Fixpoint forTransactions (fromHex : string -> string)
    (findWallet : TronTx -> result (option Z)) (envOf : TronTx -> Env)
    (address : string) (transactions : list TronTx)
    (depositsFound depositsProcessed : nat) (w : World)
  : result (nat * nat) * World :=
  match transactions with
  | [] => (Ok (depositsFound, depositsProcessed), w)
  | tx :: rest =>
      let continue := forTransactions fromHex findWallet envOf address rest in
      if decide (txID tx ∈ processedTransactions w)
      then continue depositsFound depositsProcessed w
      else if isDepositTo fromHex address tx then
        match findWallet tx with
        | Throw err => (Throw err, w)
        | Ok None => continue depositsFound depositsProcessed w
        | Ok (Some userId) =>
            match processDeposit "Tron" "TRX" (envOf tx)
                    {| c_userId := userId;
                       c_txHash := txID tx;
                       c_fromAddress := owner_address tx;
                       c_toAddress := address;
                       c_amount := amountTrx tx;
                       c_blockNumber := tx_blockNumber tx |} w with
            | (Throw err, w1) => (Throw err, w1)
            | (Ok _, w1) =>
                continue (S depositsFound) (S depositsProcessed)
                  (add_processed (txID tx) w1)
            end
        end
      else continue depositsFound depositsProcessed w
  end.

Definition checkTronDepositsForAddress (cl : Clients) (fromHex : string -> string)
    (findWallet : TronTx -> result (option Z)) (envOf : TronTx -> Env)
    (address : string) (w : World) : CheckResult * World :=
  match tronWebShasta cl, tronWebMainnet cl with
  | None, None => (Error (JsError "TronWeb not available"), w)
  | _, _ =>
      match getRecentTransactions cl address 20 with
      | Throw err => (Error err, w)
      | Ok transactions =>
          match forTransactions fromHex findWallet envOf address transactions 0 0 w with
          | (Throw err, w1) => (Error err, w1)
          | (Ok (depositsFound, depositsProcessed), w1) =>
              (Report address (length transactions) depositsFound depositsProcessed, w1)
          end
      end
  end.

End TronCheck.

(** ** The deposit monitor service over solana-deposits and
    ethereum-deposits *)

Module MonitorService.

Record Networks := {
  solana : bool;
  ethereum : bool;
  tron : bool
}.

(** The service object and, per network, the number of interval timers its
    start function has set so far (none of them is ever cleared: the stop
    functions only reset [isPolling], the Tron one does nothing). *)
Record Service := {
  isRunning : bool;
  networks : Networks;
  solanaTimers : nat;
  ethereumTimers : nat;
  tronTimers : nat
}.

Definition initial : Service :=
  {| isRunning := false;
     networks := {| solana := false; ethereum := false; tron := false |};
     solanaTimers := 0; ethereumTimers := 0; tronTimers := 0 |}.

(** Whether [initializeSolanaConnection] and [initializeEthereumProvider]
    return or throw this time. *)
Record Inits := {
  initializeSolanaConnection : result unit;
  initializeEthereumProvider : result unit
}.

Definition stop (s : Service) : Service :=
  if negb (isRunning s) then s
  else
    {| isRunning := false;
       networks := {| solana := false; ethereum := false; tron := false |};
       solanaTimers := solanaTimers s;
       ethereumTimers := ethereumTimers s;
       tronTimers := tronTimers s |}.

(** [start]: each network is initialised, polled once and given its timer,
    then flagged; a throw leaves the [try] for [this.stop(); throw error]. *)
Definition start (i : Inits) (s : Service) : result unit * Service :=
  if isRunning s then (Ok tt, s)
  else
    match initializeSolanaConnection i with
    | Throw err => (Throw err, stop s)
    | Ok _ =>
        let s1 :=
          {| isRunning := isRunning s;
             networks := {| solana := true;
                            ethereum := ethereum (networks s);
                            tron := tron (networks s) |};
             solanaTimers := S (solanaTimers s);
             ethereumTimers := ethereumTimers s;
             tronTimers := tronTimers s |} in
        match initializeEthereumProvider i with
        | Throw err => (Throw err, stop s1)
        | Ok _ =>
            (Ok tt,
             {| isRunning := true;
                networks := {| solana := true; ethereum := true; tron := true |};
                solanaTimers := solanaTimers s1;
                ethereumTimers := S (ethereumTimers s1);
                tronTimers := S (tronTimers s1) |})
        end
    end.

End MonitorService.

(** ** Sample data *)

Module Sample.

Definition prices : Exchange.PriceData :=
  {| Exchange.tron_usd := 0.25%float;
     Exchange.ethereum_usd := 2000%float;
     Exchange.solana_usd := 150%float |}.

Definition oracleDown : result Exchange.PriceData :=
  Throw (NetworkError "connect ETIMEDOUT").

Definition world0 : DepositListener.World :=
  {| DepositListener.db := Store.empty;
     DepositListener.processedTransactions := ∅ |}.

Definition solCandidate : DepositListener.Candidate :=
  {| DepositListener.c_userId := 7;
     DepositListener.c_txHash := "5VERv8NMvzbJMEkV";
     DepositListener.c_fromAddress := "sender11111111111";
     DepositListener.c_toAddress := "A";
     DepositListener.c_amount := 2.5%float;
     DepositListener.c_blockNumber := 250000000 |}.

Definition ethCandidate : DepositListener.Candidate :=
  {| DepositListener.c_userId := 7;
     DepositListener.c_txHash := "0x9f3c";
     DepositListener.c_fromAddress := "0xfeed";
     DepositListener.c_toAddress := "0xa11ce";
     DepositListener.c_amount := 5%float;
     DepositListener.c_blockNumber := 19000000 |}.

(** Every awaited call is served. *)
Definition envOk (oid : string) : DepositListener.Env :=
  {| DepositListener.orderIdGen := oid;
     DepositListener.now := 1700000000;
     DepositListener.http_rate := Ok prices;
     DepositListener.http_arrival := Ok prices;
     DepositListener.find_fault := None;
     DepositListener.create_fault := None;
     DepositListener.balance_find_fault := None;
     DepositListener.balance_write_fault := None |}.

(** The store serves every call, the price API is unreachable. *)
Definition envOracleDown : DepositListener.Env :=
  {| DepositListener.orderIdGen := "ETH_1700000000_k3x9";
     DepositListener.now := 1700000000;
     DepositListener.http_rate := oracleDown;
     DepositListener.http_arrival := oracleDown;
     DepositListener.find_fault := None;
     DepositListener.create_fault := None;
     DepositListener.balance_find_fault := None;
     DepositListener.balance_write_fault := None |}.

(** The price API answers the first call of a deposit and not the second. *)
Definition envOracleDrops : DepositListener.Env :=
  {| DepositListener.orderIdGen := "TRX_1700000000_m4n8";
     DepositListener.now := 1700000000;
     DepositListener.http_rate := Ok prices;
     DepositListener.http_arrival := oracleDown;
     DepositListener.find_fault := None;
     DepositListener.create_fault := None;
     DepositListener.balance_find_fault := None;
     DepositListener.balance_write_fault := None |}.

(** A transfer of 12.5 TRX to a deposit address of user 7. *)
Definition trxCandidate : DepositListener.Candidate :=
  {| DepositListener.c_userId := 7;
     DepositListener.c_txHash := "c0ffee01";
     DepositListener.c_fromAddress := "TSender";
     DepositListener.c_toAddress := "TUserDeposit1";
     DepositListener.c_amount := 12.5%float;
     DepositListener.c_blockNumber := 1001 |}.

(** The store accepts the Deposit row and then rejects the balance write. *)
Definition envBalanceWriteFails : DepositListener.Env :=
  {| DepositListener.orderIdGen := "SOL_1700000000_q1w2";
     DepositListener.now := 1700000000;
     DepositListener.http_rate := Ok prices;
     DepositListener.http_arrival := Ok prices;
     DepositListener.find_fault := None;
     DepositListener.create_fault := None;
     DepositListener.balance_find_fault := None;
     DepositListener.balance_write_fault := Some (StoreError "connection closed") |}.

Definition alternating : list bool :=
  [false; true; false; true; false; true; false; true;
   false; true; false; true; false; true; false; true].

Definition dbEnvOracleDown : DbDeposits.Env :=
  {| DbDeposits.orderIdGen := "DEP_1700000000_1A2B3C4D";
     DbDeposits.now := 1700000000;
     DbDeposits.http := oracleDown;
     DbDeposits.count_fault := None;
     DbDeposits.create_fault := None;
     DbDeposits.update_fault := None;
     DbDeposits.balance_find_fault := None;
     DbDeposits.balance_write_fault := None |}.

(** [createDeposit] data of a deposit of 5 ETH. *)
Definition ethDepositData : DbDeposits.CreateDepositData :=
  {| DbDeposits.d_userId := 7;
     DbDeposits.d_txHash := "0x9f3c";
     DbDeposits.d_fromAddress := Some "0xfeed";
     DbDeposits.d_toAddress := "0xa11ce";
     DbDeposits.d_currency := "ETH";
     DbDeposits.d_network := "Ethereum";
     DbDeposits.d_amount := 5%float;
     DbDeposits.d_blockNumber := Some 19000000;
     DbDeposits.d_confirmations := Some 3 |}.

Definition solDetected : SolanaDeposits.Detected :=
  {| SolanaDeposits.userAddress :=
       {| SolanaDeposits.ua_userId := 7;
          SolanaDeposits.ua_address := "A";
          SolanaDeposits.ua_blockchain := "Solana" |};
     SolanaDeposits.transferInfo :=
       {| SolanaDeposits.isTransfer := true;
          SolanaDeposits.ti_amount := 2.5%float;
          SolanaDeposits.ti_fromAddress := Some "sender11111111111" |};
     SolanaDeposits.env := dbEnvOracleDown |}.

(** An Ethereum node that rejects every call. *)
Definition deadProvider : Ethers.Provider :=
  {| Ethers.getBlockNumber := Throw (NetworkError "ECONNREFUSED");
     Ethers.getLogs := fun _ => Throw (NetworkError "ECONNREFUSED");
     Ethers.getTransaction := fun _ => Throw (NetworkError "ECONNREFUSED");
     Ethers.getTransactionReceipt := fun _ => Throw (NetworkError "ECONNREFUSED") |}.

(** Both Tron endpoints reject. *)
Definition deadClients : TronListener.Clients :=
  {| TronListener.tronWebShasta :=
       Some (TronListener.Rejected (NetworkError "ECONNREFUSED"));
     TronListener.tronWebMainnet :=
       Some (TronListener.Rejected (NetworkError "ECONNREFUSED")) |}.

(** The pool holds 10 SOL and 90 USDC; every call is served. *)
Definition solanaEnv : Solana.Env :=
  {| Solana.isValidSolanaAddress := fun _ => true;
     Solana.isOnCurve := fun _ => true;
     Solana.getBalance := Ok 10000000000;
     Solana.poolTokenAccount := Ok 90000000;
     Solana.recipientTokenAccount := Ok tt;
     Solana.createAccountSend := Ok "3createSig";
     Solana.transferSend := Ok "4transferSig";
     Solana.saveTransactionFault := None;
     Solana.minusBalanceFault := None |}.

Definition tronEnv : Tron.Env :=
  {| Tron.isAddress := fun _ => true;
     Tron.isOwnAddress := fun _ => false;
     Tron.contractSend := Ok "a1b2c3";
     Tron.sendTransaction := Ok "d4e5f6";
     Tron.saveTransactionFault := None |}.

(** The number [1e-7]. *)
Definition oneE7 : JsNumber.Decimal := {| JsNumber.digits := [1%nat]; JsNumber.exp10 := -6 |}.

(** The db/deposits environment in which every call is served. *)
Definition dbEnvOracleUp : DbDeposits.Env :=
  {| DbDeposits.orderIdGen := "DEP_1700000000_5E6F7A8B";
     DbDeposits.now := 1700000000;
     DbDeposits.http := Ok prices;
     DbDeposits.count_fault := None;
     DbDeposits.create_fault := None;
     DbDeposits.update_fault := None;
     DbDeposits.balance_find_fault := None;
     DbDeposits.balance_write_fault := None |}.

(** A confirmed transaction that moves 2.5 SOL to the address "A". *)
Definition solTransferTx : SolanaListener.ParsedTransaction :=
  {| SolanaListener.metaOk := true;
     SolanaListener.instructions :=
       [ {| SolanaListener.parsedType := Some "transfer";
            SolanaListener.destination := "A";
            SolanaListener.source := "sender11111111111";
            SolanaListener.lamports := 2500000000%float |} ] |}.

(** Two signatures of the address "A": the transfer above, and one whose
    transaction the node fails to return. *)
Definition solSignatures : list SolanaListener.SignatureInfo :=
  [ {| SolanaListener.signature := "5VERv8NMvzbJMEkV";
       SolanaListener.slot := 250000000;
       SolanaListener.getParsedTransaction := Ok (Some solTransferTx);
       SolanaListener.env := envOk "SOL_1700000000_a" |};
    {| SolanaListener.signature := "3xQmPz7RrT1u";
       SolanaListener.slot := 250000001;
       SolanaListener.getParsedTransaction := Throw (NetworkError "429 Too Many Requests");
       SolanaListener.env := envOk "SOL_1700000001_b" |} ].

(** The same signatures seen by a later cycle, during which the store
    rejects every write. *)
Definition solSignaturesLater : list SolanaListener.SignatureInfo :=
  [ {| SolanaListener.signature := "5VERv8NMvzbJMEkV";
       SolanaListener.slot := 250000000;
       SolanaListener.getParsedTransaction := Ok (Some solTransferTx);
       SolanaListener.env := envBalanceWriteFails |};
    {| SolanaListener.signature := "3xQmPz7RrT1u";
       SolanaListener.slot := 250000001;
       SolanaListener.getParsedTransaction := Throw (NetworkError "429 Too Many Requests");
       SolanaListener.env := envBalanceWriteFails |} ].

(** The world after the Deposit row of [solCandidate] was written and its
    credit failed. *)
Definition worldUncredited : DepositListener.World :=
  snd (DepositListener.processDeposit "Solana" "SOL" envBalanceWriteFails
         solCandidate world0).

(** Instructions that pay the address "A" twice, 1 SOL and then 2 SOL. *)
Definition paysTwice : list SolanaListener.Instruction :=
  [ {| SolanaListener.parsedType := None;
       SolanaListener.destination := "";
       SolanaListener.source := "";
       SolanaListener.lamports := nan |};
    {| SolanaListener.parsedType := Some "transfer";
       SolanaListener.destination := "A";
       SolanaListener.source := "sender11111111111";
       SolanaListener.lamports := 1000000000%float |};
    {| SolanaListener.parsedType := Some "transfer";
       SolanaListener.destination := "A";
       SolanaListener.source := "sender22222222222";
       SolanaListener.lamports := 2000000000%float |} ].

(** The store answers every call but [deposit.update], which rejects. *)
Definition dbEnvUpdateFails : DbDeposits.Env :=
  {| DbDeposits.orderIdGen := "DEP_1700000000_9C8D7E6F";
     DbDeposits.now := 1700000000;
     DbDeposits.http := Ok prices;
     DbDeposits.count_fault := None;
     DbDeposits.create_fault := None;
     DbDeposits.update_fault := Some (StoreError "connection closed");
     DbDeposits.balance_find_fault := None;
     DbDeposits.balance_write_fault := None |}.

(** The store rejects every call. *)
Definition dbEnvDown : DbDeposits.Env :=
  {| DbDeposits.orderIdGen := "DEP_1700000100_00000000";
     DbDeposits.now := 1700000100;
     DbDeposits.http := Ok prices;
     DbDeposits.count_fault := Some (StoreError "connection closed");
     DbDeposits.create_fault := Some (StoreError "connection closed");
     DbDeposits.update_fault := Some (StoreError "connection closed");
     DbDeposits.balance_find_fault := Some (StoreError "connection closed");
     DbDeposits.balance_write_fault := Some (StoreError "connection closed") |}.

(** A positive transfer of [a] SOL that a transaction makes to the Solana
    address [addr] of user [u], processed under the answers [e]. *)
Definition detectedFor (u : Z) (addr : string) (a : float) (e : DbDeposits.Env)
  : SolanaDeposits.Detected :=
  {| SolanaDeposits.userAddress :=
       {| SolanaDeposits.ua_userId := u;
          SolanaDeposits.ua_address := addr;
          SolanaDeposits.ua_blockchain := "Solana" |};
     SolanaDeposits.transferInfo :=
       {| SolanaDeposits.isTransfer := true;
          SolanaDeposits.ti_amount := a;
          SolanaDeposits.ti_fromAddress := Some "sender11111111111" |};
     SolanaDeposits.env := e |}.

(** An Ethereum node at block 19000100 whose log queries are refused. *)
Definition flakyProvider : Ethers.Provider :=
  {| Ethers.getBlockNumber := Ok 19000100;
     Ethers.getLogs := fun _ => Throw (NetworkError "429 Too Many Requests");
     Ethers.getTransaction := fun _ => Ok None;
     Ethers.getTransactionReceipt := fun _ => Ok None |}.

Definition ethWatched : EthereumScan.Watched :=
  {| EthereumScan.userAddress :=
       {| SolanaDeposits.ua_userId := 7;
          SolanaDeposits.ua_address := "0xA11CE";
          SolanaDeposits.ua_blockchain := "Ethereum" |};
     EthereumScan.confirmationsAtCreate := Ok 3;
     EthereumScan.confirmationsAtUpdate := Ok 3;
     EthereumScan.env := dbEnvOracleUp |}.

(** A transfer of 5 ETH to "0xa11ce" in block 19000050. *)
Definition ethTx : Ethers.TransactionResponse :=
  {| Ethers.hash := "0x9f3c";
     Ethers.tx_from := "0xFEED";
     Ethers.tx_to := Some "0xa11ce";
     Ethers.value := 5000000000000000000;
     Ethers.tx_blockNumber := Some 19000050 |}.

Definition revertedReceipt : Ethers.TransactionReceipt :=
  {| Ethers.receipt_status := 0; Ethers.receipt_blockNumber := 19000050 |}.

(** A node at block 19000100 that knows the transfer above and reports its
    log only to a query that covers block 19000050. *)
Definition ethProvider : Ethers.Provider :=
  {| Ethers.getBlockNumber := Ok 19000100;
     Ethers.getLogs := fun f =>
       if (Ethers.fromBlock f <=? 19000050) && (19000050 <=? Ethers.toBlock f)
       then Ok [ {| Ethers.transactionHash := "0x9f3c" |} ] else Ok [];
     Ethers.getTransaction := fun _ => Ok (Some ethTx);
     Ethers.getTransactionReceipt := fun _ =>
       Ok (Some {| Ethers.receipt_status := 1; Ethers.receipt_blockNumber := 19000050 |}) |}.

(** The same chain seen through a node that has no logs at all. *)
Definition silentProvider : Ethers.Provider :=
  {| Ethers.getBlockNumber := Ok 19000100;
     Ethers.getLogs := fun _ => Ok [];
     Ethers.getTransaction := fun _ => Ok (Some ethTx);
     Ethers.getTransactionReceipt := fun _ =>
       Ok (Some {| Ethers.receipt_status := 1; Ethers.receipt_blockNumber := 19000050 |}) |}.

Definition tronWallet : TronSweep.Wallet :=
  {| TronSweep.userId := 7; TronSweep.publicKey := "TUserDeposit1" |}.


(** Every call of a sweep is served. *)
Definition sweepEnv : TronSweep.MainEnv :=
  {| TronSweep.decryptPrivateKey := Ok tt;
     TronSweep.sendTransaction := Ok "e7f8a9";
     TronSweep.http := Ok prices;
     TronSweep.main_saveTransactionFault := None;
     TronSweep.main_topBalanceFault := None |}.



(** The number [0.75]. *)
Definition threeQuarters : JsNumber.Decimal :=
  {| JsNumber.digits := [7%nat; 5%nat]; JsNumber.exp10 := 0 |}.

(** The number [12.75]. *)
Definition twelve75 : JsNumber.Decimal :=
  {| JsNumber.digits := [1%nat; 2%nat; 7%nat; 5%nat]; JsNumber.exp10 := 2 |}.

(** A transfer of 12.5 TRX to the deposit address of user 7, as both Tron
    endpoints return it. *)
Definition tronDeposit : TronListener.TronTx :=
  {| TronListener.txID := "c0ffee01";
     TronListener.tx_blockNumber := 1001;
     TronListener.contractType := "TransferContract";
     TronListener.to_address := "41a1b2c3";
     TronListener.owner_address := "41f00d42";
     TronListener.amountSun := 12500000 |}.

Definition tronClients : TronListener.Clients :=
  {| TronListener.tronWebShasta := Some (TronListener.Transactions [tronDeposit]);
     TronListener.tronWebMainnet := Some (TronListener.Transactions [tronDeposit]) |}.

(** The process after it has processed that transfer and was restarted. *)
Definition worldRestarted : DepositListener.World :=
  DepositListener.restart
    (snd (DepositListener.processDeposit "Tron" "TRX" (envOk "TRX_1700000000_a")
            {| DepositListener.c_userId := 7;
               DepositListener.c_txHash := "c0ffee01";
               DepositListener.c_fromAddress := "TSender1";
               DepositListener.c_toAddress := "TUserDeposit1";
               DepositListener.c_amount := 12.5%float;
               DepositListener.c_blockNumber := 1001 |} world0)).

End Sample.

(** * Verified properties *)

(** ** Facts about binary64 arithmetic used below *)

Section Binary64.

Lemma mul_nan_r (x : float) : (x * nan)%float = nan.
Proof.
  apply Prim2SF_inj. rewrite mul_spec.
  change (Prim2SF nan) with S754_nan.
  unfold SF64mul, SFmul. destruct (Prim2SF x); reflexivity.
Qed.

Lemma div_nan_l (x : float) : (nan / x)%float = nan.
Proof.
  apply Prim2SF_inj. rewrite div_spec.
  change (Prim2SF nan) with S754_nan. reflexivity.
Qed.

Lemma div_nan_r (x : float) : (x / nan)%float = nan.
Proof.
  apply Prim2SF_inj. rewrite div_spec.
  change (Prim2SF nan) with S754_nan.
  unfold SF64div, SFdiv. destruct (Prim2SF x); reflexivity.
Qed.

Lemma digits2_pos_iter_xO (n : nat) (m : positive) :
  Zpos (digits2_pos (Nat.iter n xO m)) = Zpos (digits2_pos m) + Z.of_nat n.
Proof.
  induction n as [|n IH].
  - simpl. lia.
  - change (Nat.iter (S n) xO m) with (xO (Nat.iter n xO m)).
    cbn [digits2_pos]. rewrite Pos2Z.inj_succ, IH. lia.
Qed.

Lemma div_eucl_exact (q d : Z) : 0 < d -> Z.div_eucl (q * d) d = (q, 0).
Proof.
  intros Hd.
  pose proof (Z.div_mul q d ltac:(lia)) as Hq.
  pose proof (Z.mod_mul q d ltac:(lia)) as Hr.
  unfold Z.div, Z.modulo in Hq, Hr.
  destruct (Z.div_eucl (q * d) d) as [q' r']. simpl in *. congruence.
Qed.

(** The binary64 encoding of [1] is mantissa 2^52 with exponent -52. *)
Local Abbreviation SF_one := (S754_finite false 4503599627370496 (-52)).

Lemma SFmul_one_r (s : bool) (m : positive) (e : Z) :
  bounded prec emax m e = true ->
  SF64mul (S754_finite s m e) SF_one = S754_finite s m e.
Proof.
  intros Hb.
  unfold SF64mul, SFmul. rewrite xorb_false_r.
  unfold bounded, canonical_mantissa in Hb.
  apply andb_prop in Hb. destruct Hb as [Hc He].
  apply Z.eqb_eq in Hc.
  rewrite Pos.mul_comm.
  change (4503599627370496 * m)%positive with (Nat.iter 52 xO m).
  unfold binary_round_aux, shr_fexp, Zdigits2.
  rewrite digits2_pos_iter_xO.
  replace (Z.pos (digits2_pos m) + Z.of_nat 52 + (e + -52))
    with (Z.pos (digits2_pos m) + e) by lia.
  rewrite Hc.
  replace (e - (e + -52)) with 52 by lia.
  cbn -[fexp Z.add Z.sub Z.leb].
  replace (e + -52 + 52) with e by lia.
  rewrite Hc, Z.sub_diag. cbn -[Z.leb Z.sub].
  rewrite He. reflexivity.
Qed.

Lemma SFdiv_one_r (s : bool) (m : positive) (e : Z) :
  bounded prec emax m e = true ->
  SF64div (S754_finite s m e) SF_one = S754_finite s m e.
Proof.
  intros Hb.
  unfold SF64div, SFdiv. rewrite xorb_false_r.
  unfold bounded, canonical_mantissa in Hb.
  apply andb_prop in Hb. destruct Hb as [Hc He].
  apply Z.eqb_eq in Hc.
  unfold SFdiv_core_binary.
  change (Zdigits2 (Z.pos m)) with (Z.pos (digits2_pos m)).
  change (Zdigits2 4503599627370496) with 53.
  assert (Hcase :
    fexp prec emax (Z.pos (digits2_pos m) + e - (53 + -52)) = e - 1
    \/ fexp prec emax (Z.pos (digits2_pos m) + e - (53 + -52)) = e).
  { revert Hc. unfold fexp, emin, prec, emax. lia. }
  destruct Hcase as [H1|H1]; rewrite H1.
  - (* normal number above the smallest binade: quotient 2m at e-1 *)
    replace (Z.min (e - 1) (e - -52)) with (e - 1) by lia.
    replace (e - -52 - (e - 1)) with 53 by lia.
    rewrite Z.shiftl_mul_pow2 by lia.
    replace (Z.pos m * 2 ^ 53) with (Z.pos m~0 * 4503599627370496) by lia.
    rewrite div_eucl_exact by lia.
    change (new_location 4503599627370496 0) with loc_Exact.
    unfold binary_round_aux, shr_fexp.
    change (Zdigits2 (Z.pos m~0)) with (Z.pos (Pos.succ (digits2_pos m))).
    rewrite Pos2Z.inj_succ.
    replace (Z.succ (Z.pos (digits2_pos m)) + (e - 1))
      with (Z.pos (digits2_pos m) + e) by lia.
    rewrite Hc.
    replace (e - (e - 1)) with 1 by lia.
    cbn -[fexp Z.add Z.sub Z.leb].
    replace (e - 1 + 1) with e by lia.
    rewrite Hc, Z.sub_diag. cbn -[Z.leb Z.sub].
    rewrite He. reflexivity.
  - (* smallest binade and subnormals: quotient m at e *)
    replace (Z.min e (e - -52)) with e by lia.
    replace (e - -52 - e) with 52 by lia.
    rewrite Z.shiftl_mul_pow2 by lia.
    change (2 ^ 52) with 4503599627370496.
    rewrite div_eucl_exact by lia.
    change (new_location 4503599627370496 0) with loc_Exact.
    unfold binary_round_aux, shr_fexp.
    change (Zdigits2 (Z.pos m)) with (Z.pos (digits2_pos m)).
    rewrite Hc, Z.sub_diag.
    cbn -[fexp Z.add Z.sub Z.leb].
    rewrite Hc, Z.sub_diag. cbn -[Z.leb Z.sub].
    rewrite He. reflexivity.
Qed.

Lemma mul_one_r (x : float) : (x * 1)%float = x.
Proof.
  apply Prim2SF_inj. rewrite mul_spec.
  pose proof (Prim2SF_valid x) as Hv.
  change (Prim2SF 1) with SF_one.
  destruct (Prim2SF x) as [s|s| |s m e].
  - cbn. now rewrite xorb_false_r.
  - cbn. now rewrite xorb_false_r.
  - reflexivity.
  - apply SFmul_one_r. exact Hv.
Qed.

Lemma div_one_r (x : float) : (x / 1)%float = x.
Proof.
  apply Prim2SF_inj. rewrite div_spec.
  pose proof (Prim2SF_valid x) as Hv.
  change (Prim2SF 1) with SF_one.
  destruct (Prim2SF x) as [s|s| |s m e].
  - cbn. now rewrite xorb_false_r.
  - cbn. now rewrite xorb_false_r.
  - reflexivity.
  - apply SFdiv_one_r. exact Hv.
Qed.

End Binary64.

(** ** The oracle *)

Section ExchangeFacts.
Import Exchange.

Lemma upper_ascii_idem (c : ascii) : upper_ascii (upper_ascii c) = upper_ascii c.
Proof.
  destruct c as [[] [] [] [] [] [] [] []]; reflexivity.
Qed.

Lemma toUpperCase_idem (s : string) : toUpperCase (toUpperCase s) = toUpperCase s.
Proof.
  induction s as [|c s IH]; simpl; [reflexivity|].
  now rewrite upper_ascii_idem, IH.
Qed.

Lemma toUSDT_stable (rates : Rates) (k : string) :
  In k stable -> toUSDT rates !! k = Some 1%float.
Proof.
  unfold stable, toUSDT. simpl.
  intros [<-|[<-|[<-|[]]]]; reflexivity.
Qed.

Lemma toUSDT_unsupported (rates : Rates) (k : string) :
  ~ In k supported -> toUSDT rates !! k = None.
Proof.
  unfold supported, toUSDT. simpl. intros H.
  repeat (rewrite lookup_insert_ne by (intros <-; apply H; tauto)).
  apply lookup_empty.
Qed.

End ExchangeFacts.

(** C8. [convert] is case-insensitive in both symbols: it returns the same
    result (or rejects with the same error) for [s], [t] as for their
    uppercased forms. Moreover, once the rate fetch has succeeded, converting
    any amount between two symbols that uppercase to USD, USDT or USDC returns
    the amount itself. *)
Theorem convert_case_insensitive_and_stable_identity
    (http : result Exchange.PriceData) (data : Exchange.PriceData)
    (a : float) (s t : string) :
  Exchange.convert http a s t
    = Exchange.convert http a (Exchange.toUpperCase s) (Exchange.toUpperCase t)
  /\ (http = Ok data ->
      In (Exchange.toUpperCase s) Exchange.stable ->
      In (Exchange.toUpperCase t) Exchange.stable ->
      Exchange.convert http a s t = Ok a).
Proof.
  split.
  - unfold Exchange.convert. destruct (Exchange.getRate http); [|reflexivity].
    now rewrite !toUpperCase_idem.
  - intros -> Hs Ht. unfold Exchange.convert. simpl.
    rewrite (toUSDT_stable _ _ Hs), (toUSDT_stable _ _ Ht). simpl.
    now rewrite mul_one_r, div_one_r.
Qed.

Lemma convert_case_insensitive_and_stable_identity_witness :
  let data := {| Exchange.tron_usd := 0.25%float;
                 Exchange.ethereum_usd := 2000%float;
                 Exchange.solana_usd := 150%float |} in
  Exchange.convert (Ok data) 12.5%float "usdc" "Usdt"
    = Exchange.convert (Ok data) 12.5%float "USDC" "USDT"
  /\ Exchange.convert (Ok data) 12.5%float "usdc" "Usdt" = Ok 12.5%float.
Proof.
  intros data.
  destruct (convert_case_insensitive_and_stable_identity
              (Ok data) data 12.5%float "usdc" "Usdt") as [H1 H2].
  split.
  - exact H1.
  - apply H2.
    + reflexivity.
    + simpl. tauto.
    + simpl. tauto.
Defined.

(** C10. Once the rate fetch has succeeded, [convert] returns normally with
    [NaN] whenever the uppercased source symbol or the uppercased target
    symbol has no entry in the rate table. *)
Theorem convert_unsupported_symbol_is_NaN
    (data : Exchange.PriceData) (a : float) (s t : string) :
  ~ In (Exchange.toUpperCase s) Exchange.supported
  \/ ~ In (Exchange.toUpperCase t) Exchange.supported ->
  Exchange.convert (Ok data) a s t = Ok nan.
Proof.
  intros [H|H]; unfold Exchange.convert; simpl; f_equal;
    rewrite (toUSDT_unsupported _ _ H); simpl.
  - now rewrite mul_nan_r, div_nan_l.
  - apply div_nan_r.
Qed.

Lemma convert_unsupported_symbol_is_NaN_witness :
  Exchange.convert
    (Ok {| Exchange.tron_usd := 0.25%float;
           Exchange.ethereum_usd := 2000%float;
           Exchange.solana_usd := 150%float |})
    100%float "USD" "btc" = Ok nan.
Proof.
  apply convert_unsupported_symbol_is_NaN.
  right. vm_compute. intros H.
  repeat (destruct H as [H|H]; [discriminate H|]). exact H.
Defined.

(** ** Deposit listeners: deduplication *)

Section Idempotence.
Import Store DepositListener.

Lemma find_some_count (h : string) (l : list Deposit) (d : Deposit) :
  List.find (has_txHash h) l = Some d ->
  (1 <= length (List.filter (has_txHash h) l))%nat.
Proof.
  induction l as [|x l IH]; simpl; [discriminate|].
  destruct (has_txHash h x); simpl; intros H; [lia|auto].
Qed.

Lemma existsb_count (h : string) (l : list Deposit) :
  existsb (has_txHash h) l = (0 <? length (List.filter (has_txHash h) l))%nat.
Proof.
  induction l as [|x l IH]; simpl; [reflexivity|].
  destruct (has_txHash h x); simpl; auto.
Qed.

Lemma filter_app_one (h : string) (l : list Deposit) (d : Deposit) :
  txHash d = h ->
  length (List.filter (has_txHash h) (l ++ [d]))
  = S (length (List.filter (has_txHash h) l)).
Proof.
  intros <-. rewrite List.filter_app, length_app. simpl.
  unfold has_txHash at 2. rewrite String.eqb_refl. simpl. lia.
Qed.

Variables (net cur : string) (c : Candidate) (w0 : World).

Local Abbreviation h := (c_txHash c).
Local Abbreviation u := (c_userId c).
Local Abbreviation a := (c_amount c).

Local Abbreviation Inv := (DepositListener.Inv cur c w0).

Lemma Inv_sym p q w : Inv p q w -> Inv q p w.
Proof.
  unfold Inv. intros (H1 & H2 & H3 & H4 & H5 & H6).
  rewrite orb_comm, Nat.add_comm. tauto.
Qed.

Lemma step_Inv (e : Env) (p q : pc) (w : World) :
  store_reliable e ->
  Inv p q w ->
  Inv (fst (step net cur e c p w)) q (snd (step net cur e c p w)).
Proof.
  intros (Ff & Fc & Fbf & Fbw) (H1 & H2 & H3 & H4 & H5 & H6).
  destruct p as [ | |[d|]| |r|r ra| | |o]; simpl.
  - (* AtHas *)
    fold h. destruct (decide (h ∈ processedTransactions w)) as [Hin|Hout]; simpl;
      unfold Inv; simpl in *; repeat split; auto.
  - (* AtFindFirst *)
    unfold lift, deposit_findFirst. rewrite Ff. simpl.
    unfold Inv, recordCount, balanceOf in *; simpl in *.
    repeat split; auto.
    fold h. destruct (List.find (has_txHash h) (deposits (db w))) eqn:E; simpl; [|discriminate].
    intros _. eapply find_some_count; eauto.
  - (* AtFound Some *)
    unfold Inv, recordCount, balanceOf in *; simpl in *. repeat split; auto.
  - unfold Inv, recordCount, balanceOf in *; simpl in *. repeat split; auto; try discriminate.
  - destruct (Exchange.convert _ _ _ _); simpl;
      unfold Inv, recordCount, balanceOf in *; simpl in *; repeat split; auto; try discriminate.
  - destruct (Exchange.convert _ _ _ _); simpl;
      unfold Inv, recordCount, balanceOf in *; simpl in *; repeat split; auto; try discriminate.
  - (* AtCreate *)
    unfold lift, deposit_create. rewrite Fc. simpl. fold h.
    rewrite existsb_count.
    unfold Inv, recordCount, balanceOf in *; simpl in *.
    destruct (length (List.filter (has_txHash h) (deposits (db w)))) as [|n] eqn:En; simpl.
    + rewrite filter_app_one by reflexivity. rewrite En.
      destruct (created q); simpl in *; try discriminate.
      repeat split; auto; try lia.
    + rewrite En. repeat split; auto; try lia.
  - (* AtBalanceTx *)
    unfold lift, transaction, balanceUpdate, Store.bind, balance_findFirst.
    rewrite Fbf. fold u.
    unfold Inv, recordCount, balanceOf in *; simpl in *.
    assert (Hq : created q = false) by (destruct (created q); simpl in *; [lia|reflexivity]).
    assert (Hq' : has_credit q = false) by (destruct q as [ | |[?|]| |?|? ?| | |[| |?]]; simpl in *; congruence).
    rewrite Hq' in *. simpl in *.
    destruct (balances (db w) !! (u, cur)) as [b|] eqn:Eb.
    + unfold balance_increment. rewrite Fbw, Eb. simpl.
      rewrite lookup_insert_eq. rewrite <- H3. simpl.
      repeat split; auto; intros; lia.
    + unfold balance_create. rewrite Fbw, Eb. simpl.
      rewrite lookup_insert_eq. rewrite <- H3. simpl.
      repeat split; auto; intros; lia.
  - (* AtAdd *)
    unfold Inv, recordCount, balanceOf in *; simpl in *.
    repeat split; auto; intros; lia.
  - unfold Inv, recordCount, balanceOf in *; simpl in *. repeat split; auto.
Qed.


Lemma run2_Inv (eA eB : Env) (sched : list bool) (pA pB : pc) (w : World) :
  store_reliable eA -> store_reliable eB ->
  Inv pA pB w ->
  let '(pA', pB', w') := run2 net cur eA eB c sched pA pB w in Inv pA' pB' w'.
Proof.
  intros HA HB. revert pA pB w.
  induction sched as [|[|] rest IH]; intros pA pB w HI; simpl; [exact HI| |].
  - pose proof (step_Inv eB pB pA w HB (Inv_sym _ _ _ HI)) as HI'.
    destruct (step net cur eB c pB w) as [pB' w']. apply IH, Inv_sym, HI'.
  - pose proof (step_Inv eA pA pB w HA HI) as HI'.
    destruct (step net cur eA c pA w) as [pA' w']. apply IH, HI'.
Qed.

Lemma step_rank (e : Env) (p : pc) (w : World) :
  (rank (fst (step net cur e c p w)) <= pred (rank p))%nat.
Proof.
  destruct p as [ | |[d|]| |r|r ra| | |o]; simpl;
    repeat match goal with
    | |- context [decide ?P] => destruct (decide P)
    | |- context [match ?x with _ => _ end] => destruct x
    end; simpl; lia.
Qed.

Lemma run2_rank (eA eB : Env) (sched : list bool) (pA pB : pc) (w : World) :
  let '(pA', pB', _) := run2 net cur eA eB c sched pA pB w in
  (rank pA' <= rank pA - length (List.filter negb sched))%nat
  /\ (rank pB' <= rank pB - length (List.filter id sched))%nat.
Proof.
  revert pA pB w.
  induction sched as [|[|] rest IH]; intros pA pB w; simpl; [lia| |].
  - pose proof (step_rank eB pB w) as Hr.
    destruct (step net cur eB c pB w) as [pB' w']. simpl in Hr.
    specialize (IH pA pB' w').
    destruct (run2 net cur eA eB c rest pA pB' w') as [[pA'' pB''] w'']. lia.
  - pose proof (step_rank eA pA w) as Hr.
    destruct (step net cur eA c pA w) as [pA' w']. simpl in Hr.
    specialize (IH pA' pB w').
    destruct (run2 net cur eA eB c rest pA' pB w') as [[pA'' pB''] w'']. lia.
Qed.

Lemma rank_0_finished (p : pc) : rank p = 0%nat -> is_finished p = true.
Proof. destruct p; simpl; congruence. Qed.

Lemma Inv_finished (p q : pc) (w : World) :
  Inv p q w -> is_finished p = true -> is_finished q = true ->
  recordCount h w = 1%nat
  /\ balanceOf u cur w = credited a (balanceOf u cur w0).
Proof.
  intros (H1 & H2 & H3 & H4 & H5 & H6) Hp Hq.
  destruct p as [ | |?| |?|? ?| | |[| |?]]; try discriminate;
  destruct q as [ | |?| |?|? ?| | |[| |?]]; try discriminate;
    simpl in *; try (split; [lia|assumption]);
    try (specialize (H5 eq_refl); lia).
Qed.

Lemma Inv_init :
  recordCount h w0 = 0%nat ->
  h ∉ processedTransactions w0 ->
  Inv AtHas AtHas w0.
Proof.
  intros Hc Hp. unfold Inv. simpl. rewrite Hc.
  repeat split; auto; try lia; try discriminate. intros; contradiction.
Qed.


Lemma run_handleCandidate (e : Env) (w : World) :
  run net cur e c fuel AtHas w
  = (Finished (fst (handleCandidate net cur e c w)),
     snd (handleCandidate net cur e c w)).
Proof.
  destruct w as [d ps].
  cbv [handleCandidate isTransactionProcessed processDeposit exchangeRate fuel
       run step lift deposit_findFirst deposit_create transaction with_db
       add_processed db processedTransactions].
  destruct (decide (c_txHash c ∈ ps)); [reflexivity|].
  destruct (find_fault e); [reflexivity|].
  destruct (List.find (has_txHash (c_txHash c)) (deposits d)); [reflexivity|].
  destruct (Exchange.convert (http_rate e) 1 cur "USD") as [rate|?];
    [destruct (Exchange.convert (http_arrival e) (c_amount c) cur "USD") as [ra|?]|];
    (destruct (create_fault e); [reflexivity|]);
    (destruct (existsb _ _); [reflexivity|]);
    match goal with
    | |- context [balanceUpdate ?e ?u ?k ?x ?y] =>
        destruct (balanceUpdate e u k x y) as [[?|?] d3]
    end; reflexivity.
Qed.

End Idempotence.

(** ** Deposit listeners: record and credit *)

Section ProcessDeposit.
Import Store DepositListener.

Lemma convert_rejects (err : error) (x : float) (s t : string) :
  Exchange.convert (Throw err) x s t = Throw err.
Proof. reflexivity. Qed.

Lemma deposit_create_fresh (d : Deposit) (db : Db) :
  length (List.filter (has_txHash (txHash d)) (deposits db)) = 0%nat ->
  deposit_create None d db
  = (Ok d, {| deposits := deposits db ++ [d]; balances := balances db |}).
Proof.
  intros H. unfold deposit_create. rewrite existsb_count, H. reflexivity.
Qed.

Lemma deposit_create_outcome (f : fault) (d : Deposit) (db : Db) :
  (exists err, deposit_create f d db = (Throw err, db))
  \/ deposit_create f d db
     = (Ok d, {| deposits := deposits db ++ [d]; balances := balances db |}).
Proof.
  unfold deposit_create. destruct f as [err|]; [left; eauto|].
  destruct (existsb _ _); [left; eauto|right; reflexivity].
Qed.

Lemma balanceTx_outcome (e : Env) (u : Z) (cur : string) (a : float) (db : Db) :
  (exists err, transaction (balanceUpdate e u cur a) db = (Throw err, db))
  \/ transaction (balanceUpdate e u cur a) db
     = (Ok tt, {| deposits := deposits db;
                  balances := <[(u, cur) := DepositListener.creditedValue a (balances db !! (u, cur))]>
                                (balances db) |}).
Proof.
  unfold transaction, balanceUpdate, Store.bind, balance_findFirst.
  destruct (balance_find_fault e) as [err|]; [left; eauto|].
  destruct (balances db !! (u, cur)) as [b|] eqn:Eb.
  - unfold balance_increment.
    destruct (balance_write_fault e) as [err|]; [left; eauto|].
    rewrite Eb. right. reflexivity.
  - unfold balance_create.
    destruct (balance_write_fault e) as [err|]; [left; eauto|].
    rewrite Eb. right. reflexivity.
Qed.

Lemma balanceTx_reliable (e : Env) (u : Z) (cur : string) (a : float) (db : Db) :
  balance_find_fault e = None -> balance_write_fault e = None ->
  transaction (balanceUpdate e u cur a) db
  = (Ok tt, {| deposits := deposits db;
               balances := <[(u, cur) := DepositListener.creditedValue a (balances db !! (u, cur))]>
                             (balances db) |}).
Proof.
  intros Hf Hw.
  unfold transaction, balanceUpdate, Store.bind, balance_findFirst.
  rewrite Hf.
  destruct (balances db !! (u, cur)) as [b|] eqn:Eb.
  - unfold balance_increment. rewrite Hw, Eb. reflexivity.
  - unfold balance_create. rewrite Hw, Eb. reflexivity.
Qed.

Lemma credited_creditedValue (a : float) (before : option float) :
  credited a before = Some (DepositListener.creditedValue a before).
Proof. destruct before; reflexivity. Qed.

End ProcessDeposit.

(** ** Deposit listeners: two presentations of one transfer *)

Section AtMostOnce.
Import Store DepositListener.

Variables (net cur : string) (c : Candidate) (w0 : World).

Local Abbreviation h := (c_txHash c).
Local Abbreviation u := (c_userId c).
Local Abbreviation a := (c_amount c).
Local Abbreviation Safe := (DepositListener.AtMostOnce cur c w0).

Lemma AtMostOnce_sym p q w : Safe p q w -> Safe q p w.
Proof.
  unfold AtMostOnce. intros (H1 & H2 & H3).
  rewrite orb_comm, Nat.add_comm. tauto.
Qed.

Lemma has_credit_created (p : pc) : has_credit p = true -> created p = true.
Proof. destruct p as [ | |?| |?|? ?| | |[| |?]]; simpl; congruence. Qed.

Lemma step_AtMostOnce (e : Env) (p q : pc) (w : World) :
  Safe p q w ->
  Safe (fst (step net cur e c p w)) q (snd (step net cur e c p w)).
Proof.
  intros (H1 & H2 & H3).
  destruct p as [ | |[d|]| |r|r ra| | |o]; simpl.
  - destruct (decide (c_txHash c ∈ processedTransactions w)); simpl;
      unfold AtMostOnce; simpl in *; auto.
  - unfold lift, deposit_findFirst.
    destruct (find_fault e); simpl; unfold AtMostOnce, recordCount, balanceOf in *;
      simpl in *; auto.
  - unfold AtMostOnce, recordCount, balanceOf in *; simpl in *; auto.
  - unfold AtMostOnce, recordCount, balanceOf in *; simpl in *; auto.
  - destruct (Exchange.convert _ _ _ _); simpl;
      unfold AtMostOnce, recordCount, balanceOf in *; simpl in *; auto.
  - destruct (Exchange.convert _ _ _ _); simpl;
      unfold AtMostOnce, recordCount, balanceOf in *; simpl in *; auto.
  - (* AtCreate *)
    unfold lift, deposit_create.
    destruct (create_fault e); simpl;
      [unfold AtMostOnce, recordCount, balanceOf in *; simpl in *; auto|].
    rewrite existsb_count.
    unfold AtMostOnce, recordCount, balanceOf in *; simpl in *.
    destruct (length (List.filter (has_txHash (c_txHash c)) (deposits (db w))))
      as [|n] eqn:En; simpl.
    + rewrite filter_app_one by reflexivity. rewrite En.
      repeat split; auto; lia.
    + rewrite En. repeat split; auto; lia.
  - (* AtBalanceTx *)
    assert (Hq : created q = false)
      by (destruct (created q); simpl in *; [lia|reflexivity]).
    assert (Hq' : has_credit q = false).
    { destruct (has_credit q) eqn:E; [|reflexivity].
      apply has_credit_created in E. congruence. }
    rewrite Hq, Hq' in *. simpl in H2, H3.
    unfold lift.
    destruct (balanceTx_outcome e (c_userId c) cur (c_amount c) (db w))
      as [[err ->] | ->]; simpl;
      unfold AtMostOnce, recordCount, balanceOf in *; simpl in *;
      rewrite ?Hq, ?Hq'; simpl.
    + repeat split; auto; lia.
    + rewrite lookup_insert_eq, <- H3, credited_creditedValue.
      repeat split; auto; lia.
  - unfold AtMostOnce, recordCount, balanceOf in *; simpl in *; auto.
  - unfold AtMostOnce, recordCount, balanceOf in *; simpl in *; auto.
Qed.

Lemma run2_AtMostOnce (eA eB : Env) (sched : list bool) (pA pB : pc) (w : World) :
  Safe pA pB w ->
  let '(pA', pB', w') := run2 net cur eA eB c sched pA pB w in Safe pA' pB' w'.
Proof.
  revert pA pB w.
  induction sched as [|[|] rest IH]; intros pA pB w HI; simpl; [exact HI| |].
  - pose proof (step_AtMostOnce eB pB pA w (AtMostOnce_sym _ _ _ HI)) as HI'.
    destruct (step net cur eB c pB w) as [pB' w']. apply IH, AtMostOnce_sym, HI'.
  - pose proof (step_AtMostOnce eA pA pB w HI) as HI'.
    destruct (step net cur eA c pA w) as [pA' w']. apply IH, HI'.
Qed.

Lemma AtMostOnce_init :
  recordCount h w0 = 0%nat -> Safe AtHas AtHas w0.
Proof. intros Hc. unfold AtMostOnce. simpl. rewrite Hc. auto. Qed.

(** One handler running alone is one side of the interleaving. *)
Lemma run2_first (eA eB : Env) (n : nat) (pA pB : pc) (w : World) :
  run2 net cur eA eB c (repeat false n) pA pB w
  = (fst (run net cur eA c n pA w), pB, snd (run net cur eA c n pA w)).
Proof.
  revert pA w. induction n as [|n IH]; intros pA w; simpl; [reflexivity|].
  destruct (step net cur eA c pA w) as [pA' w']. apply IH.
Qed.

Lemma run2_second (eA eB : Env) (n : nat) (pA pB : pc) (w : World) :
  run2 net cur eA eB c (repeat true n) pA pB w
  = (pA, fst (run net cur eB c n pB w), snd (run net cur eB c n pB w)).
Proof.
  revert pB w. induction n as [|n IH]; intros pB w; simpl; [reflexivity|].
  destruct (step net cur eB c pB w) as [pB' w']. apply IH.
Qed.

(** What the invariant says once both handlers have finished. *)
Lemma AtMostOnce_finished (oA oB : outcome) (w : World) :
  Safe (Finished oA) (Finished oB) w -> at_most_once cur c w0 oA oB w.
Proof.
  intros (H1 & H2 & H3). unfold at_most_once, exactly_once.
  split; [exact H1|].
  destruct oA as [| |eA]; destruct oB as [| |eB]; simpl in *;
    (split; [intros [? ?]; first [discriminate|lia]|]);
    (split; [intros [?|?]; first [discriminate|split; [lia|exact H3]]|]);
    intros; congruence.
Qed.

Lemma finished_outcome (p : pc) :
  is_finished p = true -> exists o, p = Finished o.
Proof. destruct p; try discriminate. eauto. Qed.

End AtMostOnce.

(** C1 (as amended). A candidate transfer whose [txHash] is neither recorded
    nor cached is presented twice to a listener. Whatever the store answers
    and whatever the interleaving of the two handlers at their [await]s
    (sequential handling included), once each has taken its steps both have
    finished, at most one Deposit row carries the [txHash], at most one
    handler resolved, and the Balance row of the user has been credited once
    if one resolved and not at all otherwise. When the store serves every
    call, exactly one row carries the [txHash] and the balance has been
    credited exactly once. The same holds when the second presentation
    happens after a restart of the process, which empties the in-memory
    set. *)
Theorem idempotent_crediting
    (net cur : string) (eA eB : DepositListener.Env)
    (c : DepositListener.Candidate) (w0 : DepositListener.World) :
  DepositListener.recordCount (DepositListener.c_txHash c) w0 = 0%nat ->
  DepositListener.c_txHash c ∉ DepositListener.processedTransactions w0 ->
  (forall sched : list bool,
     DepositListener.complete sched ->
     let '(pA, pB, w) :=
       DepositListener.run2 net cur eA eB c sched
         DepositListener.AtHas DepositListener.AtHas w0 in
     exists oA oB,
       pA = DepositListener.Finished oA /\ pB = DepositListener.Finished oB
       /\ at_most_once cur c w0 oA oB w
       /\ (DepositListener.store_reliable eA ->
           DepositListener.store_reliable eB ->
           exactly_once cur c w0 w))
  /\ (let '(oA, w1) := DepositListener.handleCandidate net cur eA c w0 in
      let '(oB, w2) :=
        DepositListener.handleCandidate net cur eB c (DepositListener.restart w1) in
      at_most_once cur c w0 oA oB w2
      /\ (DepositListener.store_reliable eA ->
          DepositListener.store_reliable eB ->
          exactly_once cur c w0 w2)).
Proof.
  intros Hfresh Hcache.
  pose proof (Inv_init cur c w0 Hfresh Hcache) as H0.
  pose proof (AtMostOnce_init cur c w0 Hfresh) as S0.
  split.
  - intros sched [HcA HcB].
    pose proof (run2_AtMostOnce net cur c w0 eA eB sched _ _ _ S0) as HS.
    pose proof (fun HA HB => run2_Inv net cur c w0 eA eB sched _ _ _ HA HB H0) as HI.
    pose proof (run2_rank net cur c eA eB sched
                  DepositListener.AtHas DepositListener.AtHas w0) as HR.
    destruct (DepositListener.run2 net cur eA eB c sched _ _ w0) as [[pA pB] w].
    destruct HR as [HRA HRB]. unfold DepositListener.fuel in *. simpl in HRA, HRB.
    destruct (finished_outcome pA) as [oA ->]; [apply rank_0_finished; lia|].
    destruct (finished_outcome pB) as [oB ->]; [apply rank_0_finished; lia|].
    exists oA, oB. split; [reflexivity|]. split; [reflexivity|].
    split; [apply AtMostOnce_finished; exact HS|].
    intros HA HB.
    exact (Inv_finished cur c w0 _ _ w (HI HA HB) eq_refl eq_refl).
  - pose proof (run2_AtMostOnce net cur c w0 eA eB
                  (repeat false DepositListener.fuel) _ _ _ S0) as HS.
    pose proof (fun HA HB => run2_Inv net cur c w0 eA eB
                  (repeat false DepositListener.fuel) _ _ _ HA HB H0) as HI.
    rewrite run2_first, run_handleCandidate in HS, HI.
    destruct (DepositListener.handleCandidate net cur eA c w0) as [oA w1].
    cbn [fst snd] in HS, HI.
    assert (HS' : DepositListener.AtMostOnce cur c w0
                    (DepositListener.Finished oA) DepositListener.AtHas
                    (DepositListener.restart w1)) by exact HS.
    pose proof (run2_AtMostOnce net cur c w0 eA eB
                  (repeat true DepositListener.fuel) _ _ _ HS') as HS2.
    assert (HI' : DepositListener.store_reliable eA ->
                  DepositListener.store_reliable eB ->
                  DepositListener.Inv cur c w0
                    (DepositListener.Finished oA) DepositListener.AtHas
                    (DepositListener.restart w1)).
    { intros HA HB. destruct (HI HA HB) as (H1 & H2 & H3 & H4 & H5 & H6).
      unfold DepositListener.Inv. repeat split; auto.
      simpl. intros Hin. exfalso. revert Hin. apply not_elem_of_empty. }
    pose proof (fun HA HB => run2_Inv net cur c w0 eA eB
                  (repeat true DepositListener.fuel) _ _ _ HA HB (HI' HA HB)) as HI2.
    rewrite run2_second, run_handleCandidate in HS2, HI2.
    destruct (DepositListener.handleCandidate net cur eB c
                (DepositListener.restart w1)) as [oB w2].
    cbn [fst snd] in HS2, HI2.
    split; [apply AtMostOnce_finished; exact HS2|].
    intros HA HB.
    exact (Inv_finished cur c w0 _ _ w2 (HI2 HA HB) eq_refl eq_refl).
Qed.

Lemma idempotent_crediting_witness :
  DepositListener.complete Sample.alternating
  /\ (let '(pA, pB, w) :=
        DepositListener.run2 "Solana" "SOL"
          (Sample.envOk "SOL_1700000000_a") (Sample.envOk "SOL_1700000001_b")
          Sample.solCandidate Sample.alternating
          DepositListener.AtHas DepositListener.AtHas Sample.world0 in
      DepositListener.is_finished pA = true
      /\ DepositListener.is_finished pB = true
      /\ DepositListener.recordCount "5VERv8NMvzbJMEkV" w = 1%nat
      /\ DepositListener.balanceOf 7 "SOL" w
         = DepositListener.credited 2.5%float
             (DepositListener.balanceOf 7 "SOL" Sample.world0))
  /\ (let '(pA, pB, w) :=
        DepositListener.run2 "Solana" "SOL"
          Sample.envBalanceWriteFails (Sample.envOk "SOL_1700000001_b")
          Sample.solCandidate Sample.alternating
          DepositListener.AtHas DepositListener.AtHas Sample.world0 in
      exists oA oB,
        pA = DepositListener.Finished oA /\ pB = DepositListener.Finished oB
        /\ at_most_once "SOL" Sample.solCandidate Sample.world0 oA oB w).
Proof.
  assert (Hc : DepositListener.complete Sample.alternating).
  { unfold DepositListener.complete, DepositListener.fuel. simpl. lia. }
  split; [exact Hc|]. split.
  - pose proof (proj1 (idempotent_crediting "Solana" "SOL"
                  (Sample.envOk "SOL_1700000000_a") (Sample.envOk "SOL_1700000001_b")
                  Sample.solCandidate Sample.world0 eq_refl
                  (not_elem_of_empty _)) Sample.alternating Hc) as H.
    destruct (DepositListener.run2 _ _ _ _ _ _ _ _ _) as [[pA pB] w].
    destruct H as (oA & oB & -> & -> & _ & Hex).
    split; [reflexivity|]. split; [reflexivity|].
    apply Hex; repeat split.
  - pose proof (proj1 (idempotent_crediting "Solana" "SOL"
                  Sample.envBalanceWriteFails (Sample.envOk "SOL_1700000001_b")
                  Sample.solCandidate Sample.world0 eq_refl
                  (not_elem_of_empty _)) Sample.alternating Hc) as H.
    destruct (DepositListener.run2 _ _ _ _ _ _ _ _ _) as [[pA pB] w].
    destruct H as (oA & oB & HA & HB & Hsafe & _).
    exists oA, oB. auto.
Defined.

(** C1 as stated fails: when the store rejects the balance write of the
    first presentation after its Deposit row was written, the second
    presentation finds the row and skips the transfer. Both have finished,
    one row carries the [txHash], and the balance was never credited. *)
Lemma second_presentation_skips_lost_credit :
  let sched := (repeat false 8 ++ repeat true 8)%list in
  let '(pA, pB, w) :=
    DepositListener.run2 "Solana" "SOL"
      Sample.envBalanceWriteFails (Sample.envOk "SOL_1700000001_b")
      Sample.solCandidate sched
      DepositListener.AtHas DepositListener.AtHas Sample.world0 in
  DepositListener.complete sched
  /\ pA = DepositListener.Finished
            (DepositListener.Failed (StoreError "connection closed"))
  /\ pB = DepositListener.Finished DepositListener.Skipped
  /\ DepositListener.recordCount "5VERv8NMvzbJMEkV" w = 1%nat
  /\ DepositListener.balanceOf 7 "SOL" w = None
  /\ ~ exactly_once "SOL" Sample.solCandidate Sample.world0 w.
Proof.
  vm_compute.
  split; [split; lia|]. split; [reflexivity|]. split; [reflexivity|].
  split; [reflexivity|]. split; [reflexivity|].
  intros [_ H]. discriminate H.
Qed.

(** The in-process checks alone do not exclude a second row: two interleaved
    handlers can both pass [isTransactionProcessed] and stand before
    [deposit.create] with no row written yet. The unique index of the store
    decides between them. *)
Remark both_handlers_reach_create :
  let '(pA, pB, w) :=
    DepositListener.run2 "Solana" "SOL"
      (Sample.envOk "SOL_1700000000_a") (Sample.envOk "SOL_1700000001_b")
      Sample.solCandidate
      [false; true; false; true; false; true; false; true; false; true]
      DepositListener.AtHas DepositListener.AtHas Sample.world0 in
  (exists r ra, pA = DepositListener.AtCreate r ra)
  /\ (exists r ra, pB = DepositListener.AtCreate r ra)
  /\ DepositListener.recordCount "5VERv8NMvzbJMEkV" w = 0%nat.
Proof.
  vm_compute. split; [eauto|]. split; [eauto|reflexivity].
Qed.



(** C2 (as amended). [processDeposit] writes the Deposit row first, as a
    committed write of its own, and then runs the find-and-credit of the
    Balance row as one store transaction. A call therefore ends in one of
    three ways: it resolves with the row appended, the Balance row credited
    once and the [txHash] cached; it rejects with the store and the cache as
    they were; or it rejects with the row appended, the balances as they were
    and the [txHash] not cached. A credit without the row does not occur. *)
Theorem processDeposit_record_first_then_credit
    (net cur : string) (e : DepositListener.Env)
    (c : DepositListener.Candidate) (w : DepositListener.World) :
  let '(r, w') := DepositListener.processDeposit net cur e c w in
  let h := DepositListener.c_txHash c in
  let u := DepositListener.c_userId c in
  let a := DepositListener.c_amount c in
  let before := Store.balances (DepositListener.db w) in
  let added (d : Store.Deposit) :=
    Store.deposits (DepositListener.db w')
      = (Store.deposits (DepositListener.db w) ++ [d])%list
    /\ Store.txHash d = h /\ Store.amount d = a in
  (* both persisted *)
  (r = Ok tt
   /\ (exists d, added d)
   /\ Store.balances (DepositListener.db w')
      = <[(u, cur) := DepositListener.creditedValue a (before !! (u, cur))]> before
   /\ DepositListener.processedTransactions w'
      = {[ h ]} ∪ DepositListener.processedTransactions w)
  (* neither *)
  \/ (is_ok r = false
      /\ DepositListener.db w' = DepositListener.db w
      /\ DepositListener.processedTransactions w'
         = DepositListener.processedTransactions w)
  (* the Deposit row without the credit *)
  \/ (is_ok r = false
      /\ (exists d, added d)
      /\ Store.balances (DepositListener.db w') = before
      /\ DepositListener.processedTransactions w'
         = DepositListener.processedTransactions w).
Proof.
  unfold DepositListener.processDeposit.
  destruct (DepositListener.exchangeRate e cur (DepositListener.c_amount c))
    as [rate realArrival].
  unfold DepositListener.lift at 1.
  destruct (deposit_create_outcome (DepositListener.create_fault e)
              (DepositListener.depositData net cur e c rate realArrival)
              (DepositListener.db w)) as [[err ->] | ->].
  - right; left. destruct w; simpl. auto.
  - unfold DepositListener.lift. cbn [DepositListener.db DepositListener.with_db].
    destruct (balanceTx_outcome e (DepositListener.c_userId c) cur
                (DepositListener.c_amount c)
                {| Store.deposits :=
                     Store.deposits (DepositListener.db w)
                     ++ [DepositListener.depositData net cur e c rate realArrival];
                   Store.balances := Store.balances (DepositListener.db w) |})
      as [[err ->] | ->].
    + right; right. simpl. repeat split; eauto.
    + left. simpl. repeat split; eauto.
Qed.

(** C2 as stated fails: when the store accepts the Deposit row and then
    rejects the balance write, [processDeposit] leaves the row persisted with
    no credit. *)
Lemma processDeposit_not_atomic :
  ~ both_or_neither "SOL" Sample.solCandidate Sample.world0
      (snd (DepositListener.processDeposit "Solana" "SOL"
              Sample.envBalanceWriteFails Sample.solCandidate Sample.world0)).
Proof.
  unfold both_or_neither.
  intros [[H1 H2]|[H1 H2]].
  - vm_compute in H2. discriminate H2.
  - vm_compute in H1. discriminate H1.
Qed.

(** ** Oracle degradation *)

Section OracleDown.
Import Store.

Lemma filter_none_forall (h : string) (l : list Deposit) :
  length (List.filter (has_txHash h) l) = 0%nat ->
  forall x, In x l -> has_txHash h x = false.
Proof.
  induction l as [|y l IH]; simpl; [tauto|].
  destruct (has_txHash h y) eqn:E; simpl; [discriminate|].
  intros H x [<-|Hx]; auto.
Qed.

Lemma update_last (h : string) (f : Deposit -> Deposit) (l : list Deposit) (d : Deposit) :
  length (List.filter (has_txHash h) l) = 0%nat ->
  has_txHash h d = true ->
  List.find (has_txHash h) (l ++ [d]) = Some d
  /\ map (fun x => if has_txHash h x then f x else x) (l ++ [d]) = (l ++ [f d])%list.
Proof.
  intros Hl Hd. induction l as [|y l IH]; simpl in *.
  - rewrite Hd. auto.
  - destruct (has_txHash h y) eqn:E; simpl in *; [discriminate|].
    destruct (IH Hl) as [-> ->]. auto.
Qed.


Lemma depositExists_fresh (e : DbDeposits.Env) (h : string) (db : Db) :
  DbDeposits.count_fault e = None ->
  length (List.filter (has_txHash h) (deposits db)) = 0%nat ->
  DbDeposits.depositExists e h db = (Ok false, db).
Proof.
  intros Hf Hc. unfold DbDeposits.depositExists, deposit_count.
  now rewrite Hf, Hc.
Qed.

Lemma updateDepositStatus_last (e : DbDeposits.Env) (h : string)
    (s : DepositStatus) (conf : option Z) (l : list Deposit) (d : Deposit)
    (b : gmap (Z * string) float) :
  DbDeposits.update_fault e = None ->
  length (List.filter (has_txHash h) l) = 0%nat ->
  txHash d = h ->
  DbDeposits.updateDepositStatus e h s conf
    {| deposits := l ++ [d]; balances := b |}
  = (Ok (DbDeposits.applyStatus e s conf d),
     {| deposits := l ++ [DbDeposits.applyStatus e s conf d]; balances := b |}).
Proof.
  intros Hf Hl Hd.
  assert (Hd' : has_txHash h d = true)
    by (unfold has_txHash; rewrite Hd; apply String.eqb_refl).
  destruct (update_last h (DbDeposits.applyStatus e s conf) l d Hl Hd') as [Hfind Hmap].
  unfold DbDeposits.updateDepositStatus, deposit_update.
  rewrite Hf. cbn [deposits balances]. now rewrite Hfind, Hmap.
Qed.

Lemma updateUserBalance_reliable (e : DbDeposits.Env) (u : Z) (cur : string)
    (a : float) (db : Db) :
  DbDeposits.balance_find_fault e = None ->
  DbDeposits.balance_write_fault e = None ->
  DbDeposits.updateUserBalanceAfterDeposit e u cur a db
  = (Ok tt, {| deposits := deposits db;
               balances := <[(u, cur) := DepositListener.creditedValue a (balances db !! (u, cur))]>
                             (balances db) |}).
Proof.
  intros Hf Hw.
  unfold DbDeposits.updateUserBalanceAfterDeposit, Store.bind, balance_findFirst.
  rewrite Hf.
  destruct (balances db !! (u, cur)) as [b|] eqn:Eb.
  - unfold balance_increment. rewrite Hw, Eb. reflexivity.
  - unfold balance_create. rewrite Hw, Eb. reflexivity.
Qed.

End OracleDown.


(** C3 (as amended). When a price fetch fails while a deposit of amount [a],
    not yet recorded, is processed and the store serves every call, the
    Deposit row is still created with [amount = a] and the balance is still
    credited by [a]. In the deposit listeners ([processDeposit], two
    fetches) the row carries [realArrival = a], and as [rate] the 1:1
    fallback 1 when the first fetch fails, the fetched rate when only the
    second does; in the db/deposits path ([createDeposit], one fetch,
    reached from [processSolanaTransaction]) it carries [rate = null],
    [realArrival = null]. *)
Theorem oracle_failure_still_records_and_credits :
  (forall (net cur : string) (e : DepositListener.Env)
          (c : DepositListener.Candidate) (w : DepositListener.World),
      is_ok (DepositListener.http_rate e) = false
      \/ is_ok (DepositListener.http_arrival e) = false ->
      DepositListener.store_reliable e ->
      DepositListener.recordCount (DepositListener.c_txHash c) w = 0%nat ->
      let '(r, w') := DepositListener.processDeposit net cur e c w in
      let a := DepositListener.c_amount c in
      let u := DepositListener.c_userId c in
      r = Ok tt
      /\ (exists d,
            Store.deposits (DepositListener.db w')
              = (Store.deposits (DepositListener.db w) ++ [d])%list
            /\ Store.txHash d = DepositListener.c_txHash c
            /\ Store.amount d = a
            /\ Store.rate d
               = match Exchange.convert (DepositListener.http_rate e)
                         1%float cur "USD" with
                 | Ok fetched => Some fetched
                 | Throw _ => Some 1%float
                 end
            /\ Store.realArrival d = Some a)
      /\ DepositListener.balanceOf u cur w'
         = DepositListener.credited a (DepositListener.balanceOf u cur w))
  /\ (forall (signature : string) (slot : Z) (x : SolanaDeposits.Detected)
             (db : Store.Db) (err : error),
      DbDeposits.http (SolanaDeposits.env x) = Throw err ->
      DbDeposits.store_reliable (SolanaDeposits.env x) ->
      SolanaDeposits.ua_blockchain (SolanaDeposits.userAddress x) = "Solana" ->
      SolanaDeposits.isTransfer (SolanaDeposits.transferInfo x) = true ->
      (0 <? SolanaDeposits.ti_amount (SolanaDeposits.transferInfo x))%float = true ->
      length (List.filter (Store.has_txHash signature) (Store.deposits db)) = 0%nat ->
      let db' := SolanaDeposits.processSolanaTransaction signature true slot [x] db in
      let a := SolanaDeposits.ti_amount (SolanaDeposits.transferInfo x) in
      let u := SolanaDeposits.ua_userId (SolanaDeposits.userAddress x) in
      (exists d,
          Store.deposits db' = (Store.deposits db ++ [d])%list
          /\ Store.txHash d = signature
          /\ Store.amount d = a
          /\ Store.rate d = None
          /\ Store.realArrival d = None
          /\ Store.status d = Store.confirmed)
      /\ Store.balances db' !! (u, "SOL")
         = DepositListener.credited a (Store.balances db !! (u, "SOL")))
  /\ (forall (e : DbDeposits.Env) (data : DbDeposits.CreateDepositData)
             (db : Store.Db) (err : error),
      DbDeposits.http e = Throw err ->
      DbDeposits.d_currency data <> "USD" ->
      DbDeposits.create_fault e = None ->
      length (List.filter (Store.has_txHash (DbDeposits.d_txHash data))
                (Store.deposits db)) = 0%nat ->
      exists d,
        DbDeposits.createDeposit e data db
        = (Ok d, {| Store.deposits := Store.deposits db ++ [d];
                    Store.balances := Store.balances db |})
        /\ Store.txHash d = DbDeposits.d_txHash data
        /\ Store.amount d = DbDeposits.d_amount data
        /\ Store.rate d = None
        /\ Store.realArrival d = None).
Proof.
  split; [|split]; [| |intros e data db err Horacle Hcur Fc Hfresh;
    unfold DbDeposits.createDeposit, DbDeposits.usdValue;
    apply String.eqb_neq in Hcur; rewrite Hcur; cbn [negb];
    rewrite Horacle, convert_rejects, Fc;
    rewrite deposit_create_fresh by exact Hfresh;
    eexists; repeat split].
  - intros net cur e c w Horacle (Ff & Fc & Fbf & Fbw) Hfresh.
    assert (Hrate : exists rate,
              DepositListener.exchangeRate e cur (DepositListener.c_amount c)
              = (rate, DepositListener.c_amount c)
              /\ Some rate
                 = match Exchange.convert (DepositListener.http_rate e)
                           1%float cur "USD" with
                   | Ok fetched => Some fetched
                   | Throw _ => Some 1%float
                   end).
    { unfold DepositListener.exchangeRate.
      destruct (Exchange.convert (DepositListener.http_rate e) 1 cur "USD")
        as [rate|err1] eqn:E1; [|eexists; split; reflexivity].
      destruct (DepositListener.http_arrival e) as [data|err2] eqn:E2.
      - destruct Horacle as [H|H]; [|discriminate H].
        destruct (DepositListener.http_rate e); [discriminate H|discriminate E1].
      - rewrite convert_rejects. eexists; split; reflexivity. }
    destruct Hrate as (rate & Hx & Hr).
    unfold DepositListener.processDeposit. rewrite Hx.
    unfold DepositListener.lift.
    rewrite Fc, deposit_create_fresh by exact Hfresh.
    cbn [DepositListener.db DepositListener.with_db].
    rewrite balanceTx_reliable by assumption.
    cbn [DepositListener.db DepositListener.with_db DepositListener.add_processed
         Store.deposits Store.balances].
    repeat split.
    + eexists. repeat split. exact Hr.
    + unfold DepositListener.balanceOf. simpl.
      rewrite lookup_insert_eq. symmetry. apply credited_creditedValue.
  - intros signature slot [[u addr chain] [isT a from] e] db err.
    cbn [SolanaDeposits.env SolanaDeposits.userAddress SolanaDeposits.transferInfo
         SolanaDeposits.ua_blockchain SolanaDeposits.isTransfer
         SolanaDeposits.ti_amount SolanaDeposits.ua_userId].
    intros Horacle (Fn & Fc & Fu & Fbf & Fbw) -> -> Hpos Hfresh.
    unfold SolanaDeposits.processSolanaTransaction, SolanaDeposits.forEach,
      SolanaDeposits.recordTransfer.
    cbn [SolanaDeposits.env SolanaDeposits.userAddress SolanaDeposits.transferInfo
         SolanaDeposits.ua_blockchain SolanaDeposits.isTransfer
         SolanaDeposits.ti_amount SolanaDeposits.ua_userId
         SolanaDeposits.ua_address SolanaDeposits.ti_fromAddress negb].
    rewrite Hpos. cbn [String.eqb Ascii.eqb Bool.eqb negb andb].
    unfold Store.bind.
    rewrite depositExists_fresh by assumption.
    unfold DbDeposits.createDeposit, DbDeposits.usdValue.
    cbn [DbDeposits.d_currency String.eqb Ascii.eqb Bool.eqb negb].
    rewrite Horacle, convert_rejects, Fc.
    rewrite deposit_create_fresh by exact Hfresh.
    rewrite updateDepositStatus_last by (assumption || reflexivity).
    rewrite updateUserBalance_reliable by assumption.
    cbn. split.
    + eexists. repeat split.
    + rewrite lookup_insert_eq. symmetry. apply credited_creditedValue.
Qed.

Lemma oracle_failure_still_records_and_credits_witness :
  (let '(r, w') :=
     DepositListener.processDeposit "Ethereum" "ETH"
       Sample.envOracleDown Sample.ethCandidate Sample.world0 in
   r = Ok tt
   /\ (exists d,
         Store.deposits (DepositListener.db w') = ([] ++ [d])%list
         /\ Store.txHash d = "0x9f3c"
         /\ Store.amount d = 5%float
         /\ Store.rate d = Some 1%float
         /\ Store.realArrival d = Some 5%float)
   /\ DepositListener.balanceOf 7 "ETH" w' = Some 5%float)
  /\ (let '(r, w') :=
        DepositListener.processDeposit "Tron" "TRX"
          Sample.envOracleDrops Sample.trxCandidate Sample.world0 in
      r = Ok tt
      /\ (exists d,
            Store.deposits (DepositListener.db w') = ([] ++ [d])%list
            /\ Store.txHash d = "c0ffee01"
            /\ Store.amount d = 12.5%float
            /\ Store.rate d = Some 0.25%float
            /\ Store.realArrival d = Some 12.5%float)
      /\ DepositListener.balanceOf 7 "TRX" w' = Some 12.5%float)
  /\ (let db' :=
        SolanaDeposits.processSolanaTransaction "5VERv8NMvzbJMEkV" true 250000000
          [Sample.solDetected] Store.empty in
      (exists d,
         Store.deposits db' = ([] ++ [d])%list
         /\ Store.txHash d = "5VERv8NMvzbJMEkV"
         /\ Store.amount d = 2.5%float
         /\ Store.rate d = None
         /\ Store.realArrival d = None
         /\ Store.status d = Store.confirmed)
      /\ Store.balances db' !! (7, "SOL") = Some 2.5%float)
  /\ (exists d,
        DbDeposits.createDeposit Sample.dbEnvOracleDown Sample.ethDepositData
          Store.empty
        = (Ok d, {| Store.deposits := [] ++ [d]; Store.balances := ∅ |})
        /\ Store.txHash d = "0x9f3c"
        /\ Store.amount d = 5%float
        /\ Store.rate d = None
        /\ Store.realArrival d = None).
Proof.
  destruct oracle_failure_still_records_and_credits as (HL & HD & HC).
  split; [|split; [|split]].
  - refine (HL "Ethereum" "ETH" Sample.envOracleDown Sample.ethCandidate
              Sample.world0 _ _ _).
    + left. reflexivity.
    + repeat split.
    + reflexivity.
  - pose proof (HL "Tron" "TRX" Sample.envOracleDrops Sample.trxCandidate
                  Sample.world0 (or_intror eq_refl)
                  (conj eq_refl (conj eq_refl (conj eq_refl eq_refl))) eq_refl) as H.
    destruct (DepositListener.processDeposit "Tron" "TRX" Sample.envOracleDrops
                Sample.trxCandidate Sample.world0) as [r w'].
    destruct H as (Hr & (d & Hd & Hh & Ha & Hrate & Harr) & Hb).
    split; [exact Hr|]. split; [|exact Hb].
    exists d. repeat split; assumption.
  - refine (HD "5VERv8NMvzbJMEkV" 250000000 Sample.solDetected Store.empty
              (NetworkError "connect ETIMEDOUT") _ _ _ _ _ _).
    + reflexivity.
    + repeat split.
    + reflexivity.
    + reflexivity.
    + vm_compute. reflexivity.
    + reflexivity.
  - refine (HC Sample.dbEnvOracleDown Sample.ethDepositData Store.empty
              (NetworkError "connect ETIMEDOUT") _ _ _ _).
    + reflexivity.
    + discriminate.
    + reflexivity.
    + reflexivity.
Defined.

(** C3 as stated fails for the listeners: with the oracle down, the row
    written by [processDeposit] has [rate = 1] and [realArrival = amount], not
    null. *)
Lemma listener_oracle_failure_not_null :
  ~ degraded_to_null "0x9f3c" 5%float
      (DepositListener.db
         (snd (DepositListener.processDeposit "Ethereum" "ETH"
                 Sample.envOracleDown Sample.ethCandidate Sample.world0))).
Proof.
  intros (d & Hin & _ & _ & Hrate & _).
  vm_compute in Hin. destruct Hin as [<-|[]]. discriminate Hrate.
Qed.

(** ** Listing recent transactions *)

Section Listing.

Lemma pushRelated_rejected (client : option TronListener.RpcReply)
    (results : list TronListener.TronTx) :
  (forall r, client = Some r -> exists e, r = TronListener.Rejected e) ->
  TronListener.pushRelated client results = results.
Proof.
  intros H. destruct client as [r|]; [|reflexivity].
  destruct (H r eq_refl) as [e ->]. reflexivity.
Qed.

Lemma listener_collect_failuresAsNothing (p : Ethers.Provider)
    (logs : list Ethers.Log) :
  EthereumListener.collect (Ethers.failuresAsNothing p) logs
  = EthereumListener.collect p logs.
Proof.
  induction logs as [|log rest IH]; [reflexivity|].
  cbn [EthereumListener.collect Ethers.failuresAsNothing Ethers.getTransaction].
  destruct (Ethers.getTransaction p (Ethers.transactionHash log)) as [[tx|]|e];
    now rewrite ?IH.
Qed.

Lemma deposits_collect_failuresAsNothing (p : Ethers.Provider)
    (logs : list Ethers.Log) :
  EthereumDeposits.collect (Ethers.failuresAsNothing p) logs
  = EthereumDeposits.collect p logs.
Proof.
  induction logs as [|log rest IH]; [reflexivity|].
  cbn [EthereumDeposits.collect Ethers.failuresAsNothing Ethers.getTransaction
       Ethers.getTransactionReceipt].
  destruct (Ethers.getTransaction p (Ethers.transactionHash log)) as [[tx|]|e];
    destruct (Ethers.getTransactionReceipt p (Ethers.transactionHash log))
      as [[r|]|e'];
    now rewrite ?IH.
Qed.

End Listing.

(** C6 (as amended). The listing functions never reject. A failed RPC call
    is caught inside them and counts as a call that found nothing: the
    listing resolves with the list it would have produced had each rejected
    call answered that there is nothing (no transactions for a Tron
    endpoint, no logs for [getLogs], an unknown hash for [getTransaction]
    and [getTransactionReceipt]). When the calls that list the address fail
    (both Tron endpoints; [getBlockNumber] or [getLogs] on Ethereum) it
    resolves with the empty list, which is also what it resolves with when
    the node answers that there are no logs. *)
Theorem listing_turns_rpc_failure_into_empty_list :
  (forall (cl : TronListener.Clients) (address : string) (limit : Z),
      exists txs,
        TronListener.getRecentTransactions cl address limit = Ok txs
        /\ TronListener.getRecentTransactions
             (TronListener.failuresAsNothing cl) address limit = Ok txs
        /\ ((forall r, TronListener.tronWebShasta cl = Some r ->
                       exists e, r = TronListener.Rejected e) ->
            (forall r, TronListener.tronWebMainnet cl = Some r ->
                       exists e, r = TronListener.Rejected e) ->
            txs = []))
  /\ (forall (p : Ethers.Provider) (address : string) (from : Z),
      exists txs,
        EthereumListener.getRecentTransactions p address from = Ok txs
        /\ EthereumListener.getRecentTransactions
             (Ethers.failuresAsNothing p) address from = Ok txs
        /\ (is_ok (Ethers.getBlockNumber p) = false
            \/ (forall f, is_ok (Ethers.getLogs p f) = false)
            \/ (forall f, Ethers.getLogs p f = Ok []) ->
            txs = []))
  /\ (forall (p : Ethers.Provider) (address : string) (from to : Z),
      exists txs,
        EthereumDeposits.getRecentTransactionsForAddress p address from to = Ok txs
        /\ EthereumDeposits.getRecentTransactionsForAddress
             (Ethers.failuresAsNothing p) address from to = Ok txs
        /\ ((forall f, is_ok (Ethers.getLogs p f) = false)
            \/ (forall f, Ethers.getLogs p f = Ok []) ->
            txs = [])).
Proof.
  split; [|split].
  - intros cl address limit.
    unfold TronListener.getRecentTransactions, TronListener.failuresAsNothing.
    cbn [TronListener.tronWebShasta TronListener.tronWebMainnet].
    destruct (TronListener.tronWebShasta cl) as [[es| |ts]|] eqn:Es;
      destruct (TronListener.tronWebMainnet cl) as [[em| |tm]|] eqn:Em;
      cbn [TronListener.foundNothing TronListener.pushRelated];
      rewrite ?app_nil_r;
      eexists; (split; [reflexivity|]); (split; [reflexivity|]); intros Hs Hm;
      try reflexivity;
      try (destruct (Hs _ eq_refl) as [? [=]]);
      try (destruct (Hm _ eq_refl) as [? [=]]).
  - intros p address from. unfold EthereumListener.getRecentTransactions.
    cbn [Ethers.failuresAsNothing Ethers.getBlockNumber Ethers.getLogs].
    destruct (Ethers.getBlockNumber p) as [b|e] eqn:Eb;
      [|eexists; split; [reflexivity|]; split; reflexivity].
    match goal with
    | |- context [Ethers.getLogs p ?f] =>
        destruct (Ethers.getLogs p f) as [logs|e] eqn:El
    end; [|eexists; split; [reflexivity|]; split; reflexivity].
    eexists; split; [reflexivity|].
    split; [now rewrite listener_collect_failuresAsNothing|].
    intros [H|[H|H]].
    + discriminate H.
    + match type of El with
      | Ethers.getLogs p ?f = _ => specialize (H f); rewrite El in H
      end. discriminate H.
    + match type of El with
      | Ethers.getLogs p ?f = _ => specialize (H f); rewrite El in H
      end. injection H as ->. reflexivity.
  - intros p address from to.
    unfold EthereumDeposits.getRecentTransactionsForAddress.
    cbn [Ethers.failuresAsNothing Ethers.getLogs].
    match goal with
    | |- context [Ethers.getLogs p ?f] =>
        destruct (Ethers.getLogs p f) as [logs|e] eqn:El
    end; [|eexists; split; [reflexivity|]; split; reflexivity].
    eexists; split; [reflexivity|].
    split; [now rewrite deposits_collect_failuresAsNothing|].
    intros [H|H];
      match type of El with
      | Ethers.getLogs p ?f = _ => specialize (H f); rewrite El in H
      end.
    + discriminate H.
    + injection H as ->. reflexivity.
Qed.

Lemma listing_turns_rpc_failure_into_empty_list_witness :
  TronListener.getRecentTransactions Sample.deadClients "TXYZa1" 20 = Ok []
  /\ EthereumListener.getRecentTransactions Sample.deadProvider "0xa11ce" 0 = Ok []
  /\ EthereumDeposits.getRecentTransactionsForAddress
       Sample.deadProvider "0xa11ce" 0 100 = Ok [].
Proof.
  destruct listing_turns_rpc_failure_into_empty_list as (HT & HE & HD).
  split; [|split].
  - destruct (HT Sample.deadClients "TXYZa1" 20) as (txs & -> & _ & Hempty).
    f_equal. apply Hempty.
    + intros r [= <-]. eexists; reflexivity.
    + intros r [= <-]. eexists; reflexivity.
  - destruct (HE Sample.deadProvider "0xa11ce" 0) as (txs & -> & _ & Hempty).
    f_equal. apply Hempty. left. reflexivity.
  - destruct (HD Sample.deadProvider "0xa11ce" 0 100) as (txs & -> & _ & Hempty).
    f_equal. apply Hempty. left. intros f. reflexivity.
Defined.

(** C6 as stated fails: against a node that rejects every call, the listing
    of the Ethereum listener resolves (with the empty list) instead of
    rejecting. *)
Lemma rpc_failure_not_propagated :
  ~ propagates
      (Ethers.getBlockNumber Sample.deadProvider)
      (EthereumListener.getRecentTransactions Sample.deadProvider "0xa11ce" 0).
Proof.
  unfold propagates. intros H. specialize (H eq_refl). discriminate H.
Qed.

(** ** Poll cycles *)

Section PollCycles.
Import Poller.

Lemma react_flagTracksFlight (r : Runtime) (e : event) :
  e <> Stop -> flagTracksFlight r -> flagTracksFlight (react pollForDeposits r e).
Proof.
  unfold flagTracksFlight. destruct r as [[|] n]; destruct e; simpl;
    intros He H; try congruence; subst; simpl; reflexivity.
Qed.

Lemma runEvents_flagTracksFlight (trace : list event) (r : Runtime) :
  noStop trace -> flagTracksFlight r ->
  flagTracksFlight (runEvents pollForDeposits trace r).
Proof.
  unfold runEvents, noStop. revert r.
  induction trace as [|e trace IH]; intros r Hn Hr; simpl; [exact Hr|].
  inversion Hn; subst. apply IH; [assumption|].
  now apply react_flagTracksFlight.
Qed.

End PollCycles.

(** X1. The guard of [pollForDeposits] (solana-deposits.ts and
    ethereum-deposits.ts): as long as the stop function is not called, at
    most one scan is in flight after any history of invocations and
    completions, and an invocation made while a scan is in flight returns at
    once and changes nothing: it starts no scan and leaves none pending. *)
Theorem pollForDeposits_single_flight (trace : list Poller.event) :
  Poller.noStop trace ->
  let r := Poller.runEvents Poller.pollForDeposits trace Poller.idle in
  singleFlight Poller.pollForDeposits trace
  /\ (Poller.inFlight r = 1%nat -> Poller.invoke Poller.pollForDeposits r = r).
Proof.
  intros Hn r.
  assert (H : Poller.flagTracksFlight r)
    by (apply runEvents_flagTracksFlight; [exact Hn|reflexivity]).
  unfold singleFlight. fold r. unfold Poller.flagTracksFlight in H.
  destruct r as [[|] n]; simpl in *; subst; split; auto; discriminate.
Qed.

Lemma pollForDeposits_single_flight_witness :
  let trace := [Poller.Invoke; Poller.Invoke; Poller.Settle; Poller.Invoke] in
  Poller.noStop trace
  /\ singleFlight Poller.pollForDeposits trace
  /\ Poller.invoke Poller.pollForDeposits
       (Poller.runEvents Poller.pollForDeposits trace Poller.idle)
     = Poller.runEvents Poller.pollForDeposits trace Poller.idle.
Proof.
  intros trace.
  assert (Hn : Poller.noStop trace) by (repeat constructor; discriminate).
  destruct (pollForDeposits_single_flight trace Hn) as [H1 H2].
  split; [exact Hn|]. split; [exact H1|].
  apply H2. reflexivity.
Defined.

(** C7. The deposit listeners have no guard: when [monitorSolanaDeposits] (or
    its Ethereum or Tron twin) is invoked while its previous scan is still in
    flight, a second scan starts, so two scans of the chain are in flight;
    the guarded [pollForDeposits] has one after the same two invocations. *)
Theorem monitorDeposits_overlap :
  Poller.inFlight
    (Poller.runEvents Poller.monitorDeposits
       [Poller.Invoke; Poller.Invoke] Poller.idle) = 2%nat
  /\ ~ singleFlight Poller.monitorDeposits [Poller.Invoke; Poller.Invoke]
  /\ Poller.inFlight
       (Poller.runEvents Poller.pollForDeposits
          [Poller.Invoke; Poller.Invoke] Poller.idle) = 1%nat.
Proof.
  split; [reflexivity|]. split; [|reflexivity].
  unfold singleFlight. simpl. lia.
Qed.

(** The guard of [pollForDeposits] itself is lifted by a call of the stop
    function during a scan: the next invocation starts a second scan. *)
Remark pollForDeposits_stop_lifts_guard :
  Poller.inFlight
    (Poller.runEvents Poller.pollForDeposits
       [Poller.Invoke; Poller.Stop; Poller.Invoke] Poller.idle) = 2%nat.
Proof. reflexivity. Qed.

(** ** Pool withdrawals *)

Section PoolReserve.
Import Solana.

Lemma trunc_le_integer (t : Q) (M : Z) :
  (t <= inject_Z M)%Q -> JsNumber.trunc t <= M.
Proof.
  destruct t as [n d]. unfold Qle, JsNumber.trunc. simpl.
  rewrite Z.mul_1_r. intros H.
  destruct (Z_lt_le_dec n 0) as [Hn|Hn].
  - rewrite <- (Z.opp_involutive n), Z.quot_opp_l by lia.
    rewrite Z.quot_div_nonneg by lia.
    assert (- M <= - n / Z.pos d); [|lia].
    rewrite <- (Z.div_mul (- M) (Z.pos d)) by lia.
    apply Z.div_le_mono; lia.
  - rewrite Z.quot_div_nonneg by lia.
    rewrite <- (Z.div_mul M (Z.pos d)) by lia.
    apply Z.div_le_mono; lia.
Qed.

Lemma isLessThan_true (x y : Q) : BigNumber.isLessThan x y = true <-> (x < y)%Q.
Proof.
  unfold BigNumber.isLessThan. rewrite negb_true_iff.
  split.
  - intros H. apply Qnot_le_lt. intros Hle.
    apply Qle_bool_iff in Hle. congruence.
  - intros H. destruct (Qle_bool y x) eqn:E; [|reflexivity].
    apply Qle_bool_iff in E. apply Qlt_not_le in H. contradiction.
Qed.

Lemma isLessThan_false (x y : Q) : BigNumber.isLessThan x y = false <-> (y <= x)%Q.
Proof.
  unfold BigNumber.isLessThan. rewrite negb_false_iff. apply Qle_bool_iff.
Qed.

Lemma settleLedger_effects (e : Env) (u : Z) (to : string) (a : Q)
    (cur sig : string) (done : list effect) (r : result string) (effs : list effect) :
  settleLedger e u to a cur sig done = (r, effs) ->
  exists rest, effs = (done ++ rest)%list
    /\ (is_ok r = true ->
        r = Ok sig
        /\ rest = [SaveTransaction u to (- a) cur sig "withdraw"; MinusBalance u a cur]).
Proof.
  unfold settleLedger.
  destruct (saveTransactionFault e).
  - intros [= <- <-]. exists []. rewrite app_nil_r. split; [reflexivity|discriminate].
  - destruct (minusBalanceFault e).
    + intros [= <- <-]. eexists. split; [reflexivity|discriminate].
    + intros [= <- <-]. eexists. rewrite <- app_assoc. split; [reflexivity|]. auto.
Qed.

(** What a successful [withdrawSol] has done. *)
Lemma withdrawSol_success (e : Env) (u : Z) (to : string) (a : Q)
    (sig : string) (effs : list effect) :
  withdrawSol e u to a = (Ok sig, effs) ->
  exists pool,
    getBalance e = Ok pool
    /\ (MIN_SOL_BALANCE
        <= inject_Z pool / inject_Z LAMPORTS_PER_SOL - (a + SOL_WITHDRAWAL_FEE))%Q
    /\ effs = [ChainTransfer "SOL" to
                 (JsNumber.trunc ((a + SOL_WITHDRAWAL_FEE) * inject_Z LAMPORTS_PER_SOL));
               SaveTransaction u to (- a) "SOL" sig "withdraw";
               MinusBalance u a "SOL"].
Proof.
  unfold withdrawSol.
  destruct (isValidSolanaAddress e to); simpl; [|discriminate].
  destruct (getBalance e) as [pool|err]; [|discriminate].
  destruct (pool <? _) eqn:E1; [discriminate|].
  destruct (BigNumber.isLessThan _ _) eqn:E2; [discriminate|].
  apply isLessThan_false in E2.
  unfold u64. destruct (_ <? 0); [discriminate|].
  destruct (transferSend e) as [s|err]; [|discriminate].
  destruct (falsy s); [discriminate|].
  intros H. destruct (settleLedger_effects _ _ _ _ _ _ _ _ _ H) as (rest & -> & Hok).
  destruct (Hok eq_refl) as [[= ->] ->].
  exists pool. repeat split; auto.
Qed.

Lemma withdrawUsdc_success (e : Env) (u : Z) (to : string) (a : Q)
    (sig : string) (effs : list effect) :
  withdrawUsdc e u to a = (Ok sig, effs) ->
  (MIN_USDC_BALANCE <= getUsdcBalance e - (a + USDC_WITHDRAWAL_FEE))%Q
  /\ exists pre,
      (pre = [] \/ pre = [CreateTokenAccount to])
      /\ effs = (pre ++
                 [ChainTransfer "USDC" to
                    (JsNumber.trunc ((a + USDC_WITHDRAWAL_FEE) * 1000000));
                  SaveTransaction u to (- a) "USDC" sig "withdraw";
                  MinusBalance u a "USDC"])%list.
Proof.
  unfold withdrawUsdc.
  destruct (isValidSolanaAddress e to); simpl; [|discriminate].
  destruct (getAssociatedTokenAddress e to); [|discriminate].
  destruct (BigNumber.isLessThan (getUsdcBalance e) _) eqn:E1; [discriminate|].
  destruct (BigNumber.isLessThan (_ - _) _) eqn:E2; [discriminate|].
  apply isLessThan_false in E2.
  intros H. split; [exact E2|].
  unfold u64 in H.
  destruct (recipientTokenAccount e);
    [|destruct (createAccountSend e); [|discriminate]];
    (destruct (_ <? 0); [discriminate|]);
    (destruct (transferSend e) as [s|err]; [|discriminate]);
    (destruct (falsy s); [discriminate|]);
    destruct (settleLedger_effects _ _ _ _ _ _ _ _ _ H) as (rest & -> & Hok);
    destruct (Hok eq_refl) as [[= ->] ->];
    eexists; (split; [|rewrite <- app_assoc; reflexivity]); auto.
Qed.


Lemma fee_schedule (c : string) (fee reserve : Q) :
  getWithdrawalFees !! c = Some fee ->
  getMinimumBalances !! c = Some reserve ->
  (c = "SOL" /\ fee = SOL_WITHDRAWAL_FEE /\ reserve = MIN_SOL_BALANCE)
  \/ (c = "USDC" /\ fee = USDC_WITHDRAWAL_FEE /\ reserve = MIN_USDC_BALANCE).
Proof.
  unfold getWithdrawalFees, getMinimumBalances.
  destruct (decide (c = "SOL")) as [->|Hs].
  - rewrite !lookup_insert_eq. intros [= <-] [= <-]. left. auto.
  - rewrite !(lookup_insert_ne _ "SOL") by congruence.
    destruct (decide (c = "USDC")) as [->|Hu].
    + rewrite !lookup_insert_eq. intros [= <-] [= <-]. right. auto.
    + rewrite !lookup_insert_ne by congruence. rewrite lookup_empty. discriminate.
Qed.

Lemma scaled_bound (total pool reserve : Q) (P R k : Z) :
  0 < k ->
  (pool == inject_Z P / inject_Z k)%Q ->
  (reserve == inject_Z R / inject_Z k)%Q ->
  (reserve <= pool - total)%Q ->
  (reserve <= pool - inject_Z (JsNumber.trunc (total * inject_Z k)) / inject_Z k)%Q.
Proof.
  intros Hk Hp Hr H.
  assert (Hk' : (0 < inject_Z k)%Q) by (unfold Qlt; simpl; lia).
  assert (Hk0 : ~ (inject_Z k == 0)%Q)
    by (intros E0; rewrite E0 in Hk'; exact (Qlt_irrefl 0 Hk')).
  assert (Em : inject_Z (P - R) = (inject_Z P - inject_Z R)%Q)
    by (unfold Z.sub; rewrite inject_Z_plus, inject_Z_opp; reflexivity).
  assert (Hle : (total * inject_Z k <= inject_Z (P - R))%Q).
  { rewrite Em. rewrite Hp, Hr in H.
    apply (Qmult_le_r _ _ (inject_Z k)) in H; [|exact Hk'].
    assert (E : ((inject_Z P / inject_Z k - total) * inject_Z k
                 == inject_Z P - total * inject_Z k)%Q) by (field; exact Hk0).
    assert (E' : (inject_Z R / inject_Z k * inject_Z k == inject_Z R)%Q) by (field; exact Hk0).
    rewrite E, E' in H.
    revert H. generalize (total * inject_Z k)%Q (inject_Z P) (inject_Z R).
    intros x p r H. lra. }
  apply trunc_le_integer in Hle.
  assert (Hq : (inject_Z (JsNumber.trunc (total * inject_Z k)) <= inject_Z (P - R))%Q)
    by (rewrite <- Zle_Qle; exact Hle).
  rewrite Em in Hq.
  rewrite Hp, Hr.
  apply (Qmult_le_r _ _ (inject_Z k)); [exact Hk'|].
  assert (E : ((inject_Z P / inject_Z k
                - inject_Z (JsNumber.trunc (total * inject_Z k)) / inject_Z k)
               * inject_Z k
               == inject_Z P - inject_Z (JsNumber.trunc (total * inject_Z k)))%Q)
    by (field; exact Hk0).
  assert (E' : (inject_Z R / inject_Z k * inject_Z k == inject_Z R)%Q) by (field; exact Hk0).
  rewrite E, E'.
  revert Hq. generalize (inject_Z (JsNumber.trunc (total * inject_Z k))) (inject_Z P) (inject_Z R).
  intros y p r Hq. lra.
Qed.

End PoolReserve.

(** X2. Reserve preservation in the Solana engine. For a withdrawal of
    amount [a] in a currency of its fee schedule (SOL, USDC): if the pool
    balance less [a + fixedFee] is below the minimum reserve, the request is
    rejected before anything is asked of the chain or the ledger; and
    whenever the withdrawal completes, the pool balance less the amount
    submitted to the chain is at least the minimum reserve. *)
Theorem solana_withdrawal_preserves_reserve
    (c : string) (e : Solana.Env) (u : Z) (to : string) (a fee reserve pool : Q) :
  Solana.getWithdrawalFees !! c = Some fee ->
  Solana.getMinimumBalances !! c = Some reserve ->
  Solana.poolBalance e c = Ok pool ->
  reserveGuard pool fee reserve a (Solana.withdraw c e u to a)
  /\ (forall sig effs,
        Solana.withdraw c e u to a = (Ok sig, effs) ->
        exists units,
          In (ChainTransfer c to units) effs
          /\ (reserve <= pool - inject_Z units / inject_Z (Solana.baseUnits c))%Q).
Proof.
  intros Hfee Hres Hpool.
  destruct (fee_schedule c fee reserve Hfee Hres) as [(-> & -> & ->)|(-> & -> & ->)].
  - (* SOL *)
    change (Solana.withdraw "SOL") with Solana.withdrawSol.
    change (Solana.baseUnits "SOL") with Solana.LAMPORTS_PER_SOL.
    unfold Solana.poolBalance in Hpool. cbn [String.eqb Ascii.eqb Bool.eqb] in Hpool.
    destruct (Solana.getBalance e) as [P|err] eqn:EP; [|discriminate].
    injection Hpool as <-.
    split.
    + intros Hshort. unfold Solana.withdrawSol. rewrite EP.
      destruct (Solana.isValidSolanaAddress e to); simpl; [|auto].
      destruct (P <? _); simpl; [auto|].
      apply isLessThan_true in Hshort. rewrite Hshort. auto.
    + intros sig effs Hok.
      destruct (withdrawSol_success _ _ _ _ _ _ Hok) as (P' & EP' & Hmin & ->).
      rewrite EP in EP'. injection EP' as <-.
      eexists. split; [left; reflexivity|].
      apply (scaled_bound _ _ _ P 10000000 _);
        [reflexivity|reflexivity|vm_compute; reflexivity|exact Hmin].
  - (* USDC *)
    change (Solana.withdraw "USDC") with Solana.withdrawUsdc.
    change (Solana.baseUnits "USDC") with 1000000.
    unfold Solana.poolBalance in Hpool. cbn [String.eqb Ascii.eqb Bool.eqb] in Hpool.
    injection Hpool as <-.
    split.
    + intros Hshort. unfold Solana.withdrawUsdc.
      destruct (Solana.isValidSolanaAddress e to); simpl; [|auto].
      destruct (Solana.getAssociatedTokenAddress e to); [|auto].
      destruct (BigNumber.isLessThan (Solana.getUsdcBalance e) _); simpl; [auto|].
      apply isLessThan_true in Hshort. rewrite Hshort. auto.
    + intros sig effs Hok.
      destruct (withdrawUsdc_success _ _ _ _ _ _ Hok) as (Hmin & pre & Hpre & ->).
      eexists. split.
      * apply in_or_app. right. left. reflexivity.
      * unfold Solana.getUsdcBalance in *.
        destruct (Solana.poolTokenAccount e) as [amt|err].
        -- apply (scaled_bound _ _ _ amt 1000000 1000000);
             [reflexivity|reflexivity|vm_compute; reflexivity|exact Hmin].
        -- apply (scaled_bound _ _ _ 0 1000000 1000000);
             [reflexivity|vm_compute; reflexivity|vm_compute; reflexivity|exact Hmin].
Qed.

Lemma solana_withdrawal_preserves_reserve_witness :
  reserveGuard (inject_Z 90000000 / 1000000) 1 1 100
    (Solana.withdrawUsdc Sample.solanaEnv 7 "9WzDXwBbmkg8" 100)
  /\ Solana.withdrawUsdc Sample.solanaEnv 7 "9WzDXwBbmkg8" 100
     = (Throw (JsError "Insufficient USDC balance in main pool"), []).
Proof.
  split; [|reflexivity].
  refine (proj1 (solana_withdrawal_preserves_reserve "USDC" Sample.solanaEnv 7
                   "9WzDXwBbmkg8" 100 1 1 (inject_Z 90000000 / 1000000) _ _ _)).
  - reflexivity.
  - reflexivity.
  - reflexivity.
Defined.

(** C5. [withdrawTokenTron] reads no pool balance and knows no fee or
    reserve: a request for 100 USDT against a pool of 90 USDT is submitted to
    the chain and recorded in the ledger, which breaks the reserve guard even
    under a zero fee and a zero reserve. *)
Theorem tron_withdrawal_unguarded :
  Tron.withdrawTokenTron Sample.tronEnv 7 "TQn9Y2khEsLJ" 100
  = (Ok "a1b2c3",
     [ChainTransfer "USDT" "TQn9Y2khEsLJ" 100000000;
      SaveTransaction 7 "TQn9Y2khEsLJ" (- 100) "USDT" "-" "withdraw"])
  /\ ~ reserveGuard 90 0 0 100
         (Tron.withdrawTokenTron Sample.tronEnv 7 "TQn9Y2khEsLJ" 100).
Proof.
  split; [reflexivity|].
  unfold reserveGuard. intros H.
  destruct H as [H _]; [reflexivity|]. discriminate H.
Qed.

(** C4. A withdrawal of 1 SOL from a pool of 10 SOL submits a transfer of
    1,005,000,000 lamports: the 0.005 SOL fee is added to what the recipient
    receives. Likewise a withdrawal of 50 USDC submits 51,000,000 base units.
    The Transaction record carries [-amount] and type "withdraw", the user is
    debited [amount] and the signature is returned. *)
Theorem solana_withdrawals_send_amount_plus_fee :
  Solana.withdrawSol Sample.solanaEnv 7 "9WzDXwBbmkg8" 1
  = (Ok "4transferSig",
     [ChainTransfer "SOL" "9WzDXwBbmkg8" 1005000000;
      SaveTransaction 7 "9WzDXwBbmkg8" (- 1) "SOL" "4transferSig" "withdraw";
      MinusBalance 7 1 "SOL"])
  /\ Solana.withdrawUsdc Sample.solanaEnv 7 "9WzDXwBbmkg8" 50
     = (Ok "4transferSig",
        [ChainTransfer "USDC" "9WzDXwBbmkg8" 51000000;
         SaveTransaction 7 "9WzDXwBbmkg8" (- 50) "USDC" "4transferSig" "withdraw";
         MinusBalance 7 50 "USDC"]).
Proof. split; reflexivity. Qed.

(** ** TRX withdrawals and [parseInt] *)

Section ParseIntOfToString.
Import JsNumber.

Lemma digitChar_spec (d : nat) :
  (d < 10)%nat ->
  isDigit (digitChar d) = true
  /\ Z.of_nat (nat_of_ascii (digitChar d) - 48) = Z.of_nat d
  /\ digitChar d <> "-"%char /\ digitChar d <> "+"%char.
Proof.
  intros H.
  do 10 (destruct d as [|d]; [repeat split; discriminate|]). lia.
Qed.

Lemma fold_digits (l : list nat) (acc : Z) :
  fold_left (fun acc d => 10 * acc + Z.of_nat d) l acc
  = acc * 10 ^ Z.of_nat (length l) + digitsValue l.
Proof.
  unfold digitsValue. revert acc.
  induction l as [|d l IH]; intros acc.
  - simpl. lia.
  - cbn [fold_left length]. rewrite IH, (IH (10 * 0 + Z.of_nat d)).
    rewrite Nat2Z.inj_succ, Z.pow_succ_r by lia. lia.
Qed.

Lemma digitsValue_app (l1 l2 : list nat) :
  digitsValue (l1 ++ l2)%list = digitsValue l1 * 10 ^ Z.of_nat (length l2) + digitsValue l2.
Proof.
  unfold digitsValue at 1. rewrite fold_left_app.
  fold (digitsValue l1). apply fold_digits.
Qed.

Lemma digitsValue_bound (l : list nat) :
  Forall (fun x => (x < 10)%nat) l ->
  0 <= digitsValue l < 10 ^ Z.of_nat (length l).
Proof.
  induction l as [|d l IH] using rev_ind; intros H.
  - simpl. unfold digitsValue. simpl. lia.
  - apply Forall_app in H. destruct H as [Hl Hd].
    inversion Hd as [|? ? Hd10 _]; subst.
    specialize (IH Hl).
    rewrite digitsValue_app, length_app. cbn [length].
    replace (Z.of_nat (length l + 1)) with (Z.succ (Z.of_nat (length l))) by lia.
    rewrite Z.pow_succ_r by lia.
    change (digitsValue [d]) with (10 * 0 + Z.of_nat d).
    change (10 ^ Z.of_nat 1) with 10. lia.
Qed.

Lemma leadingDigits_digitString (l : list nat) (c : ascii) (rest : string) (acc : option Z) :
  Forall (fun x => (x < 10)%nat) l ->
  isDigit c = false ->
  l <> [] ->
  leadingDigits (digitString l ++ String c rest) acc
  = Some (fold_left (fun acc d => 10 * acc + Z.of_nat d) l (default 0 acc)).
Proof.
  intros Hl Hc. revert acc.
  induction l as [|d l IH]; intros acc Hne; [congruence|].
  inversion Hl as [|? ? Hd Hl']; subst.
  destruct (digitChar_spec d Hd) as (Hdig & Hval & _).
  change (leadingDigits (digitString (d :: l) ++ String c rest) acc)
    with (if isDigit (digitChar d)
          then leadingDigits (digitString l ++ String c rest)
                 (Some (10 * default 0 acc
                        + Z.of_nat (nat_of_ascii (digitChar d) - 48)))
          else acc).
  rewrite Hdig, Hval.
  destruct l as [|d' l].
  - change (leadingDigits (digitString [] ++ String c rest)
              (Some (10 * default 0 acc + Z.of_nat d)))
      with (if isDigit c
            then leadingDigits rest
                   (Some (10 * (10 * default 0 acc + Z.of_nat d)
                          + Z.of_nat (nat_of_ascii c - 48)))
            else Some (10 * default 0 acc + Z.of_nat d)).
    rewrite Hc. reflexivity.
  - rewrite (IH Hl') by discriminate. reflexivity.
Qed.

Lemma parseInt_digit_first (d : nat) (s : string) :
  (d < 10)%nat ->
  parseInt (String (digitChar d) s) = leadingDigits (String (digitChar d) s) None.
Proof.
  intros H. destruct (digitChar_spec d H) as (_ & _ & Hm & Hp).
  unfold parseInt.
  destruct (digitChar d) as [[] [] [] [] [] [] [] []]; try reflexivity; congruence.
Qed.

(** In positional notation [parseInt(x.toString())] is [Math.trunc(x)]:
    for a non-integer [x] with [1e-6 <= x < 1e21]. *)
Lemma parseInt_toString_positional (d : Decimal) :
  wf d ->
  -6 < exp10 d <= 21 ->
  exp10 d < Z.of_nat (length (digits d)) ->
  parseInt (toString d) = Some (trunc (value d)).
Proof.
  destruct d as [ds n]. unfold wf, toString, value, trunc. cbn [digits exp10].
  intros (Hne & Hall & Hhd & _) Hn Hk.
  set (k := Z.of_nat (length ds)) in *.
  assert (Ek : (k <=? n) = false) by (apply Z.leb_gt; lia).
  rewrite Ek. cbn [andb Qnum Qden].
  assert (Hpow : 0 < 10 ^ (k - n)) by (apply Z.pow_pos_nonneg; lia).
  rewrite Z2Pos.id by exact Hpow.
  pose proof (digitsValue_bound ds Hall) as HN. fold k in HN.
  destruct (0 <? n) eqn:E0.
  - (* 0 < n < k: "ddd.ddd" *)
    apply Z.ltb_lt in E0.
    assert (E21 : (n <=? 21) = true) by (apply Z.leb_le; lia).
    rewrite E21. cbn [andb].
    set (m := Z.to_nat n).
    assert (Hm : (0 < m <= length ds)%nat) by (subst m k; lia).
    assert (Hsplit : ds = (firstn m ds ++ skipn m ds)%list) by (symmetry; apply firstn_skipn).
    assert (Hf : Forall (fun x => (x < 10)%nat) (firstn m ds)).
    { rewrite Hsplit in Hall. apply Forall_app in Hall. tauto. }
    assert (Hs : Forall (fun x => (x < 10)%nat) (skipn m ds)).
    { rewrite Hsplit in Hall. apply Forall_app in Hall. tauto. }
    assert (Hfne : firstn m ds <> []).
    { destruct ds as [|x ds']; [congruence|]. destruct m; [lia|]. discriminate. }
    destruct (firstn m ds) as [|x xs] eqn:Efirst; [congruence|].
    inversion Hf as [|? ? Hx _]; subst.
    change (parseInt (digitString (x :: xs) ++ "." ++ digitString (skipn m ds)))
      with (parseInt (String (digitChar x)
                        (digitString xs ++ String "." (digitString (skipn m ds))))).
    rewrite parseInt_digit_first by exact Hx.
    change (String (digitChar x) (digitString xs ++ String "." (digitString (skipn m ds))))
      with (digitString (x :: xs) ++ String "." (digitString (skipn m ds))).
    rewrite leadingDigits_digitString by (auto; discriminate).
    f_equal. cbn [default]. rewrite fold_digits.
    rewrite Z.mul_0_l, Z.add_0_l.
    pose proof (digitsValue_bound (skipn m ds) Hs) as Hb.
    assert (Hlen : Z.of_nat (length (skipn m ds)) = k - n)
      by (rewrite length_skipn; subst m k; lia).
    rewrite Hlen in Hb.
    replace (digitsValue ds) with (digitsValue ((x :: xs) ++ skipn m ds)%list)
      by (f_equal; symmetry; exact Hsplit).
    rewrite digitsValue_app, Hlen.
    pose proof (digitsValue_bound (x :: xs) Hf) as Hb1.
    rewrite Z.quot_div_nonneg by nia.
    apply Z.div_unique with (digitsValue (skipn m ds)); lia.
  - (* -6 < n <= 0: "0.000ddd" *)
    apply Z.ltb_ge in E0.
    assert (E6 : (-6 <? n) = true) by (apply Z.ltb_lt; lia).
    assert (E0' : (n <=? 0) = true) by (apply Z.leb_le; lia).
    rewrite E6, E0'. cbn [andb].
    change (parseInt ("0." ++ zeros (Z.to_nat (- n)) ++ digitString ds)) with (Some 0).
    f_equal. symmetry.
    rewrite Z.quot_div_nonneg by lia.
    apply Z.div_small. split; [lia|].
    apply Z.lt_le_trans with (10 ^ k); [lia|].
    apply Z.pow_le_mono_r; lia.
Qed.

End ParseIntOfToString.

Section WithdrawTrx.
Import JsNumber.

(** The whole units of a positional number from 1 on are at least 1. *)
Lemma trunc_value_pos (d : Decimal) :
  wf d ->
  0 < exp10 d < Z.of_nat (length (digits d)) ->
  0 < trunc (value d).
Proof.
  destruct d as [ds n]. unfold wf, value, trunc. cbn [digits exp10].
  intros (Hne & Hall & Hhd & _) Hn.
  set (k := Z.of_nat (length ds)) in *.
  assert (Ek : (k <=? n) = false) by (apply Z.leb_gt; lia).
  rewrite Ek. cbn [Qnum Qden].
  assert (Hpow : 0 < 10 ^ (k - n)) by (apply Z.pow_pos_nonneg; lia).
  rewrite Z2Pos.id by exact Hpow.
  destruct ds as [|x xs]; [congruence|]. cbn [hd] in Hhd.
  inversion Hall as [|? ? Hx Hxs]; subst.
  pose proof (digitsValue_bound xs Hxs) as Hb.
  assert (Hlow : 10 ^ (k - 1) <= digitsValue (x :: xs)).
  { change (x :: xs) with ([x] ++ xs)%list. rewrite digitsValue_app.
    change (digitsValue [x]) with (10 * 0 + Z.of_nat x).
    replace (k - 1) with (Z.of_nat (length xs)) by (subst k; cbn [length]; lia).
    nia. }
  assert (Hle : 10 ^ (k - n) <= 10 ^ (k - 1)) by (apply Z.pow_le_mono_r; lia).
  rewrite Z.quot_div_nonneg by lia.
  apply Z.lt_le_trans with 1; [lia|].
  apply Z.div_le_lower_bound; lia.
Qed.

(** X3. For a non-integer amount printed in positional notation and a
    recipient that is an address: from 1 TRX on, [withdrawTrx] sends the
    whole units only, to a recipient other than the pool itself, and
    records the full amount; below 1 TRX the whole units are 0, the client
    refuses the amount, and nothing is sent or recorded. *)
Lemma withdrawTrx_positional (e : Tron.Env) (u : Z) (to txid : string) (d : Decimal) :
  wf d ->
  -6 < exp10 d <= 21 ->
  exp10 d < Z.of_nat (length (digits d)) ->
  Tron.isAddress e to = true ->
  (0 < exp10 d ->
   Tron.isOwnAddress e to = false ->
   Tron.sendTransaction e = Ok txid ->
   falsy txid = false ->
   Tron.saveTransactionFault e = None ->
   0 < trunc (value d)
   /\ Tron.withdrawTrx e u to d
      = (Ok tt,
         [ChainTransfer "TRX" to (trunc (value d) * 1000000);
          SaveTransaction u to (- value d) "TRX" txid "withdraw"]))
  /\ (exp10 d <= 0 ->
      trunc (value d) = 0
      /\ Tron.withdrawTrx e u to d
         = (Throw (JsError "Invalid amount provided"), [])).
Proof.
  intros Hwf Hn Hk Haddr.
  pose proof (parseInt_toString_positional d Hwf Hn Hk) as Hparse.
  unfold Tron.withdrawTrx, Tron.checkSendTransaction.
  rewrite Hparse, Haddr. cbn [negb option_map].
  split.
  - intros Hpos Hown Hsend Hfalsy Hsave.
    pose proof (trunc_value_pos d Hwf (conj Hpos Hk)) as Ht.
    split; [exact Ht|].
    assert (E : (trunc (value d) * 1000000 <=? 0) = false) by (apply Z.leb_gt; lia).
    rewrite E, Hown, Hsend, Hfalsy, Hsave. reflexivity.
  - intros Hsmall.
    assert (Ht : trunc (value d) = 0).
    { assert (E : Some (trunc (value d)) = Some 0); [|now injection E].
      rewrite <- Hparse. destruct d as [ds n]. cbn [exp10] in *.
      unfold toString. cbn [digits exp10].
      destruct Hwf as (Hne & _).  cbn [digits] in Hne.
      assert (E1 : (Z.of_nat (length ds) <=? n) = false).
      { apply Z.leb_gt. destruct ds; [congruence|]. cbn [length]. lia. }
      assert (E2 : (0 <? n) = false) by (apply Z.ltb_ge; lia).
      assert (E3 : (-6 <? n) = true) by (apply Z.ltb_lt; lia).
      assert (E4 : (n <=? 0) = true) by (apply Z.leb_le; lia).
      rewrite E1, E2, E3, E4. reflexivity. }
    split; [exact Ht|]. rewrite Ht. reflexivity.
Qed.

Lemma withdrawTrx_positional_witness :
  Tron.withdrawTrx Sample.tronEnv 7 "TQn9Y2khEsLJ" Sample.twelve75
  = (Ok tt,
     [ChainTransfer "TRX" "TQn9Y2khEsLJ" 12000000;
      SaveTransaction 7 "TQn9Y2khEsLJ" (- (1275 # 100)) "TRX" "d4e5f6" "withdraw"])
  /\ Tron.withdrawTrx Sample.tronEnv 7 "TQn9Y2khEsLJ" Sample.threeQuarters
     = (Throw (JsError "Invalid amount provided"), []).
Proof.
  assert (Hwf1 : wf Sample.twelve75).
  { unfold wf. simpl. repeat split; try discriminate. repeat constructor. }
  assert (Hwf2 : wf Sample.threeQuarters).
  { unfold wf. simpl. repeat split; try discriminate. repeat constructor. }
  destruct (withdrawTrx_positional Sample.tronEnv 7 "TQn9Y2khEsLJ" "d4e5f6"
              Sample.twelve75 Hwf1 ltac:(simpl; lia) ltac:(simpl; lia) eq_refl)
    as [Hbig _].
  destruct (withdrawTrx_positional Sample.tronEnv 7 "TQn9Y2khEsLJ" "d4e5f6"
              Sample.threeQuarters Hwf2 ltac:(simpl; lia) ltac:(simpl; lia) eq_refl)
    as [_ Hsmall].
  split.
  - apply Hbig; [simpl; lia|reflexivity|reflexivity|reflexivity|reflexivity].
  - apply Hsmall. simpl. lia.
Defined.

(** The whole units equal the amount only for an integer amount. *)
Lemma trunc_exact_is_integer (q : Q) :
  (inject_Z (trunc q) == q)%Q -> isInteger q = true.
Proof.
  destruct q as [n d]. unfold Qeq, isInteger, trunc. simpl.
  rewrite Z.mul_1_r. intros H. apply Z.eqb_eq.
  rewrite <- H. apply Z.mod_mul. lia.
Qed.

End WithdrawTrx.

(** C9. [withdrawTrx] with amount [1e-7]: the number prints as "1e-7",
    [parseInt] reads 1, and 1,000,000 Sun (one whole TRX) are sent, where the
    truncated amount is 0; the record carries [-1e-7]. *)
Theorem withdrawTrx_tiny_amount_sends_whole_trx :
  JsNumber.toString Sample.oneE7 = "1e-7"
  /\ JsNumber.trunc (JsNumber.value Sample.oneE7) * 1000000 = 0
  /\ Tron.withdrawTrx Sample.tronEnv 7 "TQn9Y2khEsLJ" Sample.oneE7
     = (Ok tt,
        [ChainTransfer "TRX" "TQn9Y2khEsLJ" 1000000;
         SaveTransaction 7 "TQn9Y2khEsLJ" (- (1 # 10000000)) "TRX" "d4e5f6" "withdraw"]).
Proof. repeat split. Qed.

Section Binary64Left.

Lemma SFmul_one_l (s : bool) (m : positive) (e : Z) :
  bounded prec emax m e = true ->
  SF64mul (S754_finite false 4503599627370496 (-52)) (S754_finite s m e)
  = S754_finite s m e.
Proof.
  intros Hb.
  unfold SF64mul, SFmul. rewrite xorb_false_l.
  unfold bounded, canonical_mantissa in Hb.
  apply andb_prop in Hb. destruct Hb as [Hc He].
  apply Z.eqb_eq in Hc.
  change (4503599627370496 * m)%positive with (Nat.iter 52 xO m).
  unfold binary_round_aux, shr_fexp, Zdigits2.
  rewrite digits2_pos_iter_xO.
  replace (Z.pos (digits2_pos m) + Z.of_nat 52 + (-52 + e))
    with (Z.pos (digits2_pos m) + e) by lia.
  rewrite Hc.
  replace (e - (-52 + e)) with 52 by lia.
  cbn -[fexp Z.add Z.sub Z.leb].
  replace (-52 + e + 52) with e by lia.
  rewrite Hc, Z.sub_diag. cbn -[Z.leb Z.sub].
  rewrite He. reflexivity.
Qed.

Lemma mul_one_l (x : float) : (1 * x)%float = x.
Proof.
  apply Prim2SF_inj. rewrite mul_spec.
  pose proof (Prim2SF_valid x) as Hv.
  change (Prim2SF 1) with (S754_finite false 4503599627370496 (-52)).
  destruct (Prim2SF x) as [s|s| |s m e].
  - reflexivity.
  - reflexivity.
  - reflexivity.
  - apply SFmul_one_l. exact Hv.
Qed.

End Binary64Left.

Section UsdValue.
Import Exchange.

Lemma convert_to_USD (data : PriceData) (a : float) (s : string) :
  convert (Ok data) a s "USD"
  = Ok (a * ToNumber (toUSDT {| TRX_USDT := tron_usd data;
                                ETH_USDT := ethereum_usd data;
                                SOL_USDT := solana_usd data;
                                USDT_USDT := 1%float |} !! toUpperCase s))%float.
Proof.
  unfold convert. simpl. f_equal.
  change (toUSDT _ !! "USD") with (Some 1%float). simpl.
  apply div_one_r.
Qed.

End UsdValue.

(** X4. With the price API up, the two deposit pipelines value a deposit
    alike, whatever the currency string: the listeners' [processDeposit] and
    db/deposits' [createDeposit] both store the table rate [r] of the
    uppercased currency as [rate] and the product [amount * r] as
    [realArrival] ([r] is [NaN] for a currency the table lacks). *)
Theorem pipelines_agree_on_usd_value
    (e : DepositListener.Env) (e' : DbDeposits.Env)
    (data : Exchange.PriceData) (cur : string) (a : float) :
  DepositListener.http_rate e = Ok data ->
  DepositListener.http_arrival e = Ok data ->
  DbDeposits.http e' = Ok data ->
  exists rates,
    Exchange.getRate (Ok data) = Ok rates
    /\ let r := Exchange.ToNumber
                  (Exchange.toUSDT rates !! Exchange.toUpperCase cur) in
       DepositListener.exchangeRate e cur a = (r, (a * r)%float)
       /\ DbDeposits.usdValue e' cur a = (Some r, Some (a * r)%float).
Proof.
  intros Hr Ha Hd. eexists. split; [reflexivity|]. cbv zeta.
  split.
  - unfold DepositListener.exchangeRate. rewrite Hr, Ha, !convert_to_USD.
    now rewrite mul_one_l.
  - unfold DbDeposits.usdValue. rewrite Hd.
    destruct (String.eqb cur "USD") eqn:E.
    + apply String.eqb_eq in E. subst cur. simpl.
      change (Exchange.toUSDT _ !! "USD") with (Some 1%float). simpl.
      now rewrite mul_one_r.
    + cbn [negb]. rewrite convert_to_USD. now rewrite mul_one_l.
Qed.

Lemma pipelines_agree_on_usd_value_witness :
  DepositListener.exchangeRate (Sample.envOk "SOL_1700000000_a") "sol" 2.5%float
    = (150%float, 375%float)
  /\ DbDeposits.usdValue Sample.dbEnvOracleUp "sol" 2.5%float
     = (Some 150%float, Some 375%float).
Proof.
  destruct (pipelines_agree_on_usd_value
              (Sample.envOk "SOL_1700000000_a") Sample.dbEnvOracleUp
              Sample.prices "sol" 2.5%float eq_refl eq_refl eq_refl)
    as (rates & Hrates & H1 & H2).
  injection Hrates as <-.
  split; [exact H1 | exact H2].
Defined.

(** X5. [getWithdrawRates] quotes exactly four symbols, TRX, ETH, USDT and
    SOL (spelled in upper case; not USD or USDC, which [convert] accepts),
    and the rate it quotes for each is what [convert(1, symbol, 'USD')]
    returns on the same price data. *)
Theorem getWithdrawRates_quotes_convert
    (http : result Exchange.PriceData) (m : gmap string float)
    (s : string) (r : float) :
  WithdrawRates.getWithdrawRates http = Ok m ->
  (m !! s = Some r
   <-> In s ["TRX"; "ETH"; "USDT"; "SOL"]
       /\ Exchange.convert http 1%float s "USD" = Ok r).
Proof.
  unfold WithdrawRates.getWithdrawRates.
  destruct http as [data|err]; simpl; [|discriminate].
  intros [= <-]. rewrite convert_to_USD, mul_one_l.
  split.
  - intros H.
    repeat match type of H with
           | <[?k := _]> _ !! s = Some r =>
               destruct (decide (s = k)) as [->|];
               [split; [simpl; tauto|];
                rewrite lookup_insert_eq in H; injection H as <-; reflexivity
               |rewrite lookup_insert_ne in H by congruence]
           end.
    rewrite lookup_empty in H. discriminate.
  - intros [Hin Hc]. injection Hc as Hc.
    simpl in Hin.
    destruct Hin as [<-|[<-|[<-|[<-|[]]]]]; subst r; reflexivity.
Qed.

Lemma getWithdrawRates_quotes_convert_witness :
  exists m,
    WithdrawRates.getWithdrawRates (Ok Sample.prices) = Ok m
    /\ m !! "SOL" = Some 150%float
    /\ m !! "USDC" = None.
Proof.
  eexists. split; [reflexivity|].
  split.
  - apply (getWithdrawRates_quotes_convert (Ok Sample.prices) _ "SOL" 150%float eq_refl).
    split; [simpl; tauto | reflexivity].
  - destruct (_ !! "USDC") as [r|] eqn:E; [|reflexivity].
    apply (getWithdrawRates_quotes_convert (Ok Sample.prices) _ "USDC" r eq_refl) in E.
    destruct E as [Hin _]. simpl in Hin.
    repeat (destruct Hin as [Hin|Hin]; [discriminate Hin|]). destruct Hin.
Defined.

(** ** Deposit listeners: what a scan does to the store *)

Section ListenerStore.
Import Store DepositListener.

Lemma find_none_count (h : string) (l : list Deposit) :
  List.find (has_txHash h) l = None ->
  length (List.filter (has_txHash h) l) = 0%nat.
Proof.
  induction l as [|x l IH]; simpl; [reflexivity|].
  destruct (has_txHash h x); [discriminate|exact IH].
Qed.

Lemma count_app_other (h : string) (l : list Deposit) (d : Deposit) :
  txHash d <> h ->
  length (List.filter (has_txHash h) (l ++ [d])) = length (List.filter (has_txHash h) l).
Proof.
  intros Hne. rewrite List.filter_app, length_app. simpl.
  unfold has_txHash at 2.
  destruct (String.eqb_spec (txHash d) h); [contradiction|]. simpl. lia.
Qed.

(** [isTransactionProcessed] never writes to the store. *)
Lemma isTransactionProcessed_db (e : Env) (h : string) (w : World) :
  db (snd (isTransactionProcessed e h w)) = db w.
Proof.
  unfold isTransactionProcessed.
  destruct (decide (h ∈ processedTransactions w)); [reflexivity|].
  unfold lift, deposit_findFirst.
  destruct (find_fault e); [reflexivity|].
  destruct (List.find _ _); reflexivity.
Qed.

Lemma isTransactionProcessed_false (e : Env) (h : string) (w w1 : World) :
  isTransactionProcessed e h w = (Ok false, w1) ->
  w1 = w /\ recordCount h w = 0%nat.
Proof.
  unfold isTransactionProcessed.
  destruct (decide (h ∈ processedTransactions w)); [discriminate|].
  unfold lift, deposit_findFirst.
  destruct (find_fault e); [discriminate|].
  destruct (List.find _ _) eqn:F; [discriminate|].
  intros [= <-]. split; [now destruct w|].
  now apply find_none_count.
Qed.

Lemma isTransactionProcessed_true (e : Env) (h : string) (w w1 : World) :
  isTransactionProcessed e h w = (Ok true, w1) ->
  db w1 = db w
  /\ (h ∈ processedTransactions w \/ (1 <= recordCount h w)%nat)
  /\ forall h', h' ∈ processedTransactions w1 ->
                h' = h \/ h' ∈ processedTransactions w.
Proof.
  unfold isTransactionProcessed.
  destruct (decide (h ∈ processedTransactions w)) as [Hin|Hn].
  - intros [= <-]. repeat split; auto.
  - unfold lift, deposit_findFirst.
    destruct (find_fault e); [discriminate|].
    destruct (List.find _ _) eqn:F; [|discriminate].
    intros [= <-]. simpl. split; [reflexivity|]. split.
    + right. eapply find_some_count. exact F.
    + intros h' Hh'. apply elem_of_union in Hh'.
      destruct Hh' as [Hh'|Hh']; [left; now apply elem_of_singleton in Hh'|now right].
Qed.

Lemma isTransactionProcessed_throw (e : Env) (h : string) (w w1 : World) (err : error) :
  isTransactionProcessed e h w = (Throw err, w1) ->
  w1 = w /\ find_fault e = Some err.
Proof.
  unfold isTransactionProcessed.
  destruct (decide (h ∈ processedTransactions w)); [discriminate|].
  unfold lift, deposit_findFirst.
  destruct (find_fault e).
  - intros [= <- <-]. split; [now destruct w|reflexivity].
  - destruct (List.find _ _); discriminate.
Qed.

Lemma deposit_create_cases (f : fault) (d : Deposit) (db0 : Db) :
  (exists err, deposit_create f d db0 = (Throw err, db0))
  \/ (length (List.filter (has_txHash (txHash d)) (deposits db0)) = 0%nat
      /\ deposit_create f d db0
         = (Ok d, {| deposits := deposits db0 ++ [d]; balances := balances db0 |})).
Proof.
  unfold deposit_create. destruct f as [err|]; [left; now exists err|].
  destruct (existsb _ _) eqn:Ex; [left; now eexists|].
  right. split; [|reflexivity].
  rewrite existsb_count in Ex. apply Nat.ltb_ge in Ex. lia.
Qed.

(** What [processDeposit] may have done to the world: nothing, or appended
    one row with the candidate's hash to a store that had none, with or
    without the credit. *)
Lemma processDeposit_effect (net cur : string) (e : Env) (c : Candidate) (w : World) :
  let w' := snd (processDeposit net cur e c w) in
  w' = w
  \/ (recordCount (c_txHash c) w = 0%nat
      /\ exists d, txHash d = c_txHash c
         /\ deposits (db w') = (deposits (db w) ++ [d])%list
         /\ (balances (db w') = balances (db w)
             /\ processedTransactions w' = processedTransactions w
             \/ balances (db w')
                = <[(c_userId c, cur) :=
                     creditedValue (c_amount c)
                       (balances (db w) !! (c_userId c, cur))]> (balances (db w))
                /\ processedTransactions w'
                   = {[ c_txHash c ]} ∪ processedTransactions w)).
Proof.
  cbv zeta. unfold processDeposit.
  destruct (exchangeRate e cur (c_amount c)) as [r ra].
  unfold lift.
  destruct (deposit_create_cases (create_fault e) (depositData net cur e c r ra) (db w))
    as [[err ->]|[H0 ->]].
  - left. now destruct w.
  - right. split; [exact H0|].
    exists (depositData net cur e c r ra). split; [reflexivity|].
    cbn [db with_db processedTransactions].
    destruct (balanceTx_outcome e (c_userId c) cur (c_amount c)
                {| deposits := deposits (db w) ++ [depositData net cur e c r ra];
                   balances := balances (db w) |}) as [[err ->]| ->].
    + cbn. split; [reflexivity|]. left. split; reflexivity.
    + cbn. split; [reflexivity|]. right. split; reflexivity.
Qed.

Lemma processDeposit_reliable (net cur : string) (e : Env) (c : Candidate) (w : World) :
  store_reliable e ->
  recordCount (c_txHash c) w = 0%nat ->
  recordCount (c_txHash c) (snd (processDeposit net cur e c w)) = 1%nat.
Proof.
  intros (_ & Hc & Hf & Hw) H0. unfold processDeposit.
  destruct (exchangeRate e cur (c_amount c)) as [r ra].
  unfold lift at 1. rewrite Hc. rewrite deposit_create_fresh by exact H0.
  unfold lift, with_db. cbn [db processedTransactions].
  rewrite balanceTx_reliable by assumption.
  cbn. unfold recordCount. cbn.
  unfold recordCount in H0.
  rewrite filter_app_one by reflexivity. now rewrite H0.
Qed.

End ListenerStore.

Section SolanaScan.
Import Store DepositListener SolanaListener.

Variables (userId : Z) (address : string).

Lemma extends_refl (u : Z) (cur : string) (w : World) : extends u cur w w.
Proof. repeat split; auto. Qed.

Lemma extends_trans (u : Z) (cur : string) (w1 w2 w3 : World) :
  extends u cur w1 w2 -> extends u cur w2 w3 -> extends u cur w1 w3.
Proof.
  intros (A1 & B1 & C1 & D1) (A2 & B2 & C2 & D2). repeat split.
  - intros h. specialize (A1 h). specialize (A2 h). lia.
  - auto.
  - auto.
  - intros k Hk. now rewrite D2, D1.
Qed.

Lemma isTransactionProcessed_extends (u : Z) (cur : string) (e : Env) (h : string) (w : World) :
  extends u cur w (snd (isTransactionProcessed e h w)).
Proof.
  destruct (isTransactionProcessed e h w) as [[[|]|err] w1] eqn:E; cbn [snd].
  - apply isTransactionProcessed_true in E. destruct E as (Hdb & Hsrc & Hset).
    unfold extends, cacheSound, recordCount. rewrite Hdb. repeat split; auto.
    intros Hs h' Hh'. destruct (Hset h' Hh') as [->|Hin]; [|now apply Hs].
    destruct Hsrc as [Hin|Hc]; [now apply Hs|exact Hc].
  - apply isTransactionProcessed_false in E. destruct E as [-> _]. apply extends_refl.
  - apply isTransactionProcessed_throw in E. destruct E as [-> _]. apply extends_refl.
Qed.

Lemma processDeposit_extends (net cur : string) (e : Env) (c : Candidate) (w : World) :
  extends (c_userId c) cur w (snd (processDeposit net cur e c w)).
Proof.
  destruct (processDeposit_effect net cur e c w) as [->|(H0 & d & Hd & Hdep & Hrest)];
    [apply extends_refl|].
  set (w' := snd (processDeposit net cur e c w)) in *.
  assert (Hcount : forall h,
            recordCount h w' = if String.eqb (c_txHash c) h then 1%nat else recordCount h w).
  { intros h. unfold recordCount. rewrite Hdep.
    destruct (String.eqb_spec (c_txHash c) h) as [<-|Hne].
    - rewrite filter_app_one by exact Hd. unfold recordCount in H0. now rewrite H0.
    - apply count_app_other. congruence. }
  repeat split.
  - intros h. rewrite Hcount. destruct (String.eqb_spec (c_txHash c) h) as [<-|]; lia.
  - intros Hu h. rewrite Hcount. destruct (String.eqb (c_txHash c) h); [lia|apply Hu].
  - intros Hs h Hh. rewrite Hcount.
    destruct (String.eqb_spec (c_txHash c) h) as [<-|Hne]; [lia|].
    apply Hs. destruct Hrest as [[_ Hset]|[_ Hset]]; rewrite Hset in Hh; [exact Hh|].
    apply elem_of_union in Hh.
    destruct Hh as [Hh|Hh]; [apply elem_of_singleton in Hh; congruence|exact Hh].
  - intros k Hk. destruct Hrest as [[-> _]|[-> _]]; [reflexivity|].
    now rewrite lookup_insert_ne by congruence.
Qed.

Lemma forSignature_extends (s : SignatureInfo) (w : World) :
  extends userId "SOL" w (snd (forSignature userId address s w)).
Proof.
  unfold forSignature.
  pose proof (isTransactionProcessed_extends userId "SOL" (env s) (signature s) w) as H1.
  destruct (isTransactionProcessed (env s) (signature s) w) as [[[|]|err] w1];
    cbn [snd] in *; try exact H1.
  destruct (getParsedTransaction s) as [[transaction|]|]; try exact H1.
  destruct (parseSOLTransfer transaction address) as [transfer|]; try exact H1.
  destruct (0 <? t_amount transfer)%float; try exact H1.
  cbn [snd]. eapply extends_trans; [exact H1|].
  apply (processDeposit_extends "Solana" "SOL" (env s)
           (candidate userId address s transfer) w1).
Qed.

Lemma forSignatures_extends (sigs : list SignatureInfo) (w : World) :
  extends userId "SOL" w (snd (forSignatures userId address sigs w)).
Proof.
  revert w. induction sigs as [|s rest IH]; intros w; [apply extends_refl|].
  cbn [forSignatures].
  pose proof (forSignature_extends s w) as H1.
  destruct (forSignature userId address s w) as [[[]|err] w1]; cbn [snd] in *.
  - eapply extends_trans; [exact H1|apply IH].
  - exact H1.
Qed.

(** With a store that serves every call, an iteration does not leave the
    loop, and a detected transfer is on record after it. *)
Lemma forSignature_reliable (s : SignatureInfo) (w : World) :
  store_reliable (env s) ->
  cacheSound w ->
  fst (forSignature userId address s w) = Ok tt
  /\ (forall t, detected address s = Some t ->
        (1 <= recordCount (signature s) (snd (forSignature userId address s w)))%nat).
Proof.
  intros Hrel Hs. unfold forSignature, detected.
  destruct (isTransactionProcessed (env s) (signature s) w) as [[[|]|err] w1] eqn:E.
  - split; [reflexivity|]. intros t _. cbn [snd].
    apply isTransactionProcessed_true in E. destruct E as (Hdb & Hsrc & _).
    unfold recordCount. rewrite Hdb.
    destruct Hsrc as [Hin|Hc]; [now apply Hs|exact Hc].
  - apply isTransactionProcessed_false in E. destruct E as [-> H0].
    destruct (getParsedTransaction s) as [[transaction|]|]; try (split; [reflexivity|discriminate]).
    destruct (parseSOLTransfer transaction address) as [transfer|];
      try (split; [reflexivity|discriminate]).
    destruct (0 <? t_amount transfer)%float; try (split; [reflexivity|discriminate]).
    split; [reflexivity|]. intros t _. cbn [snd].
    pose proof (processDeposit_reliable "Solana" "SOL" (env s)
                  (candidate userId address s transfer) w Hrel H0) as H1.
    cbn [c_txHash candidate] in H1. rewrite H1. lia.
  - apply isTransactionProcessed_throw in E. destruct E as [_ Hf].
    destruct Hrel as (Hfind & _). congruence.
Qed.

Lemma forSignatures_reliable (sigs : list SignatureInfo) (w : World) :
  Forall (fun s => store_reliable (env s)) sigs ->
  cacheSound w ->
  forall s t, In s sigs -> detected address s = Some t ->
    (1 <= recordCount (signature s) (snd (forSignatures userId address sigs w)))%nat.
Proof.
  revert w. induction sigs as [|s0 rest IH]; intros w Hrel Hs s t Hin Hd; [destruct Hin|].
  inversion Hrel as [|? ? Hrel0 Hrest]; subst.
  cbn [forSignatures].
  destruct (forSignature_reliable s0 w Hrel0 Hs) as [Hok Hrec].
  pose proof (forSignature_extends s0 w) as (Hmono & _ & Hsound & _).
  destruct (forSignature userId address s0 w) as [r w1]. cbn [fst snd] in *. subst r.
  destruct Hin as [<-|Hin].
  - pose proof (forSignatures_extends rest w1) as (Hmono' & _).
    specialize (Hrec t Hd). specialize (Hmono' (signature s0)). lia.
  - apply (IH w1 Hrest (Hsound Hs) s t Hin Hd).
Qed.

(** A scan over signatures whose detected transfers are all on record
    changes nothing in the store, whatever store and oracle answer. *)
Lemma forSignatures_recorded (sigs : list SignatureInfo) (w : World) :
  (forall s t, In s sigs -> detected address s = Some t ->
     (1 <= recordCount (signature s) w)%nat) ->
  db (snd (forSignatures userId address sigs w)) = db w.
Proof.
  revert w. induction sigs as [|s0 rest IH]; intros w Hrec; [reflexivity|].
  cbn [forSignatures].
  assert (H0 : db (snd (forSignature userId address s0 w)) = db w).
  { unfold forSignature.
    destruct (isTransactionProcessed (env s0) (signature s0) w) as [[[|]|err] w1] eqn:E.
    - apply isTransactionProcessed_true in E. now destruct E as (Hdb & _).
    - apply isTransactionProcessed_false in E. destruct E as [-> Hc].
      specialize (Hrec s0). unfold detected in Hrec.
      destruct (getParsedTransaction s0) as [[transaction|]|]; try reflexivity.
      destruct (parseSOLTransfer transaction address) as [transfer|]; try reflexivity.
      destruct (0 <? t_amount transfer)%float; try reflexivity.
      specialize (Hrec transfer (or_introl eq_refl) eq_refl). lia.
    - apply isTransactionProcessed_throw in E. now destruct E as [-> _]. }
  destruct (forSignature userId address s0 w) as [[[]|err] w1]; cbn [snd] in *;
    [|exact H0].
  rewrite IH; [exact H0|].
  intros s t Hin Hd. unfold recordCount. rewrite H0.
  apply (Hrec s t (or_intror Hin) Hd).
Qed.

End SolanaScan.

(** X6. One scan of an address by the Solana listener, with a store that
    serves every call: every signature of the list for which the node
    reports a positive transfer to the address has exactly one Deposit row
    afterwards; no hash gains a second row and none loses one; and no
    balance other than the user's SOL balance is touched. *)
Theorem scan_records_each_detected_transfer_once
    (userId : Z) (address : string)
    (sigs : list SolanaListener.SignatureInfo) (w : DepositListener.World) :
  Forall (fun s => DepositListener.store_reliable (SolanaListener.env s)) sigs ->
  SolanaListener.cacheSound w ->
  (forall h, (DepositListener.recordCount h w <= 1)%nat) ->
  let w' := SolanaListener.monitorSolanaAddress userId address true (Ok sigs) w in
  (forall s t, In s sigs -> SolanaListener.detected address s = Some t ->
     DepositListener.recordCount (SolanaListener.signature s) w' = 1%nat)
  /\ (forall h, (DepositListener.recordCount h w
                 <= DepositListener.recordCount h w' <= 1)%nat)
  /\ (forall k, k <> (userId, "SOL") ->
        Store.balances (DepositListener.db w') !! k
        = Store.balances (DepositListener.db w) !! k).
Proof.
  intros Hrel Hs Hu. cbv zeta. unfold SolanaListener.monitorSolanaAddress. cbn [negb].
  pose proof (forSignatures_extends userId address sigs w) as (Hmono & Huniq & _ & Hframe).
  split; [|split].
  - intros s t Hin Hd.
    pose proof (forSignatures_reliable userId address sigs w Hrel Hs s t Hin Hd) as H1.
    pose proof (Huniq Hu (SolanaListener.signature s)) as H2. lia.
  - intros h. split; [apply Hmono|apply (Huniq Hu)].
  - exact Hframe.
Qed.

Lemma scan_records_each_detected_transfer_once_witness :
  DepositListener.recordCount "5VERv8NMvzbJMEkV"
    (SolanaListener.monitorSolanaAddress 7 "A" true (Ok Sample.solSignatures)
       Sample.world0) = 1%nat.
Proof.
  assert (Hrel : Forall (fun s => DepositListener.store_reliable (SolanaListener.env s))
                   Sample.solSignatures).
  { repeat constructor. }
  assert (Hs : SolanaListener.cacheSound Sample.world0).
  { intros h Hh. vm_compute in Hh. discriminate Hh. }
  assert (Hu : forall h, (DepositListener.recordCount h Sample.world0 <= 1)%nat).
  { intros h. vm_compute. lia. }
  destruct (scan_records_each_detected_transfer_once 7 "A" Sample.solSignatures
              Sample.world0 Hrel Hs Hu) as [H _].
  apply (H {| SolanaListener.signature := "5VERv8NMvzbJMEkV";
              SolanaListener.slot := 250000000;
              SolanaListener.getParsedTransaction := Ok (Some Sample.solTransferTx);
              SolanaListener.env := Sample.envOk "SOL_1700000000_a" |}
           {| SolanaListener.t_amount := 2.5%float;
              SolanaListener.t_fromAddress := "sender11111111111" |}).
  - simpl. tauto.
  - reflexivity.
Defined.

(** X7. After a scan during which the store served every call, scanning
    again changes nothing in the store: whatever the store and the oracle
    answer the second time, and whether or not the process was restarted in
    between, the Deposit rows and the balances stay as the first scan left
    them, as long as the node reports the same signatures and
    transactions. *)
Theorem rescan_changes_nothing
    (userId : Z) (address : string)
    (sigs sigs' : list SolanaListener.SignatureInfo)
    (w : DepositListener.World) (restarted : bool) :
  Forall (fun s => DepositListener.store_reliable (SolanaListener.env s)) sigs ->
  SolanaListener.cacheSound w ->
  map SolanaListener.chainView sigs' = map SolanaListener.chainView sigs ->
  let w1 := SolanaListener.monitorSolanaAddress userId address true (Ok sigs) w in
  DepositListener.db
    (SolanaListener.monitorSolanaAddress userId address true (Ok sigs')
       (if restarted then DepositListener.restart w1 else w1))
  = DepositListener.db w1.
Proof.
  intros Hrel Hs Hview. cbv zeta. unfold SolanaListener.monitorSolanaAddress. cbn [negb].
  set (w1 := snd (SolanaListener.forSignatures userId address sigs w)).
  assert (Hrec : forall s t, In s sigs' -> SolanaListener.detected address s = Some t ->
                   (1 <= DepositListener.recordCount (SolanaListener.signature s) w1)%nat).
  { intros s' t Hin Hd.
    apply (in_map SolanaListener.chainView) in Hin. rewrite Hview in Hin.
    apply in_map_iff in Hin. destruct Hin as (s & Hcv & Hin).
    unfold SolanaListener.chainView in Hcv. injection Hcv as Hsig _ Hget.
    rewrite <- Hsig.
    apply (forSignatures_reliable userId address sigs w Hrel Hs s t Hin).
    unfold SolanaListener.detected in *. now rewrite Hget. }
  destruct restarted.
  - rewrite forSignatures_recorded; [reflexivity|exact Hrec].
  - apply forSignatures_recorded. exact Hrec.
Qed.

Lemma rescan_changes_nothing_witness :
  let w1 := SolanaListener.monitorSolanaAddress 7 "A" true (Ok Sample.solSignatures)
              Sample.world0 in
  DepositListener.db
    (SolanaListener.monitorSolanaAddress 7 "A" true (Ok Sample.solSignaturesLater)
       (DepositListener.restart w1))
  = DepositListener.db w1.
Proof.
  apply (rescan_changes_nothing 7 "A" Sample.solSignatures Sample.solSignaturesLater
           Sample.world0 true).
  - repeat constructor.
  - intros h Hh. vm_compute in Hh. discriminate Hh.
  - reflexivity.
Defined.

Section RecordedIsFinal.
Import Store DepositListener ListenerCycles.

Lemma handleCandidate_recorded (net cur : string) (e : Env) (c : Candidate) (w : World) :
  (1 <= recordCount (c_txHash c) w)%nat ->
  db (snd (handleCandidate net cur e c w)) = db w
  /\ fst (handleCandidate net cur e c w) <> Processed.
Proof.
  intros Hc. unfold handleCandidate.
  destruct (isTransactionProcessed e (c_txHash c) w) as [[[|]|err] w1] eqn:E.
  - apply isTransactionProcessed_true in E. destruct E as (Hdb & _).
    split; [exact Hdb|discriminate].
  - apply isTransactionProcessed_false in E. destruct E as [_ H0]. lia.
  - apply isTransactionProcessed_throw in E. destruct E as [-> _].
    split; [reflexivity|discriminate].
Qed.

End RecordedIsFinal.

(** X8. Once a Deposit row with the transaction's hash exists, no later
    handling of that transaction by a listener changes the store: over any
    number of later cycles, with or without restarts in between, and
    whatever the store and the oracle answer, the rows and the balances stay
    as they are. In particular a deposit whose row was written but whose
    credit failed is never credited by the listener. *)
Theorem recorded_deposit_is_final
    (net cur : string) (c : DepositListener.Candidate)
    (ks : list ListenerCycles.Cycle) (w : DepositListener.World) :
  (1 <= DepositListener.recordCount (DepositListener.c_txHash c) w)%nat ->
  DepositListener.db (ListenerCycles.laterCycles net cur c ks w)
  = DepositListener.db w.
Proof.
  unfold ListenerCycles.laterCycles.
  revert w. induction ks as [|k ks IH]; intros w Hc; [reflexivity|].
  cbn [fold_left].
  assert (H1 : DepositListener.db (ListenerCycles.handleAgain net cur c w k)
               = DepositListener.db w).
  { unfold ListenerCycles.handleAgain.
    destruct (ListenerCycles.restarted k).
    - now destruct (handleCandidate_recorded net cur (ListenerCycles.env k) c
                      (DepositListener.restart w) Hc).
    - now destruct (handleCandidate_recorded net cur (ListenerCycles.env k) c w Hc). }
  rewrite IH.
  - exact H1.
  - unfold DepositListener.recordCount in *. now rewrite H1.
Qed.

Lemma recorded_deposit_is_final_witness :
  DepositListener.recordCount "5VERv8NMvzbJMEkV" Sample.worldUncredited = 1%nat
  /\ DepositListener.balanceOf 7 "SOL"
       (ListenerCycles.laterCycles "Solana" "SOL" Sample.solCandidate
          [ {| ListenerCycles.restarted := false;
               ListenerCycles.env := Sample.envOk "SOL_1700000005_c" |};
            {| ListenerCycles.restarted := true;
               ListenerCycles.env := Sample.envOk "SOL_1700000010_d" |} ]
          Sample.worldUncredited) = None.
Proof.
  split; [reflexivity|].
  unfold DepositListener.balanceOf.
  rewrite (recorded_deposit_is_final "Solana" "SOL" Sample.solCandidate).
  - reflexivity.
  - vm_compute. lia.
Defined.

(** X9. [parseSOLTransfer] reports the first [transfer] instruction whose
    destination is the address, with its lamports divided by 10^9 and its
    source as sender; the instructions after it, further transfers to the
    same address included, play no part. A transaction that failed on chain
    ([meta.err] set, or no [meta]) parses to nothing. *)
Theorem parseSOLTransfer_first_transfer_wins
    (transaction : SolanaListener.ParsedTransaction) (userAddress : string)
    (before after : list SolanaListener.Instruction) (i : SolanaListener.Instruction) :
  SolanaListener.instructions transaction = (before ++ i :: after)%list ->
  Forall (fun j => SolanaListener.isTransferTo userAddress j = false) before ->
  SolanaListener.isTransferTo userAddress i = true ->
  SolanaListener.parseSOLTransfer transaction userAddress
  = if SolanaListener.metaOk transaction
    then Some {| SolanaListener.t_amount :=
                   (SolanaListener.lamports i / 1000000000)%float;
                 SolanaListener.t_fromAddress := SolanaListener.source i |}
    else None.
Proof.
  intros Hi Hb Ht. unfold SolanaListener.parseSOLTransfer.
  destruct (SolanaListener.metaOk transaction); [|reflexivity]. cbn [negb].
  rewrite Hi. clear Hi.
  induction Hb as [|j before Hj Hb IH]; cbn [app SolanaListener.firstTransfer].
  - now rewrite Ht.
  - now rewrite Hj.
Qed.

Lemma parseSOLTransfer_first_transfer_wins_witness :
  SolanaListener.parseSOLTransfer
    {| SolanaListener.metaOk := true;
       SolanaListener.instructions := Sample.paysTwice |} "A"
  = Some {| SolanaListener.t_amount := 1%float;
            SolanaListener.t_fromAddress := "sender11111111111" |}.
Proof.
  apply (parseSOLTransfer_first_transfer_wins
           {| SolanaListener.metaOk := true;
              SolanaListener.instructions := Sample.paysTwice |} "A"
           (firstn 1 Sample.paysTwice) (skipn 2 Sample.paysTwice)
           {| SolanaListener.parsedType := Some "transfer";
              SolanaListener.destination := "A";
              SolanaListener.source := "sender11111111111";
              SolanaListener.lamports := 1000000000%float |}).
  - reflexivity.
  - repeat constructor.
  - reflexivity.
Defined.

(** ** db/deposits pipeline: one record per transaction *)

Section OneRecordPerTransaction.
Import Store DbDeposits SolanaDeposits SolanaTransfers.

Lemma recordTransfer_skip (signature : string) (slot : Z) (x : Detected) (db0 : Db) :
  qualifies x = false -> recordTransfer signature slot x db0 = (Ok tt, db0).
Proof.
  unfold qualifies, recordTransfer.
  destruct (String.eqb _ "Solana"); cbn [negb andb]; [|reflexivity].
  now intros ->.
Qed.

Lemma depositExists_db (e : DbDeposits.Env) (h : string) (db0 : Db) :
  snd (depositExists e h db0) = db0.
Proof.
  unfold depositExists, deposit_count. now destruct (count_fault e).
Qed.

Lemma depositExists_false (e : DbDeposits.Env) (h : string) (db0 db1 : Db) :
  (1 <= length (List.filter (has_txHash h) (deposits db0)))%nat ->
  depositExists e h db0 = (Ok false, db1) ->
  exists err, count_fault e = Some err.
Proof.
  unfold depositExists, deposit_count. destruct (count_fault e) as [err|]; [eauto|].
  intros Hc [= Hn _]. apply Nat.ltb_ge in Hn. lia.
Qed.

Lemma createDeposit_recorded (e : DbDeposits.Env) (data : CreateDepositData) (db0 : Db) :
  (1 <= length (List.filter (has_txHash (d_txHash data)) (deposits db0)))%nat ->
  exists err, createDeposit e data db0 = (Throw err, db0).
Proof.
  intros Hc. unfold createDeposit.
  destruct (usdValue e (d_currency data) (d_amount data)) as [r ra].
  match goal with |- context [deposit_create ?f ?d db0] =>
    destruct (deposit_create_cases f d db0) as [[err ->]|[H0 _]] end.
  - now exists err.
  - cbn [txHash] in H0. lia.
Qed.

(** An iteration for a signature that already has a row leaves the store
    as it is, whatever the store answers. *)
Lemma recordTransfer_recorded (signature : string) (slot : Z) (x : Detected) (db0 : Db) :
  (1 <= length (List.filter (has_txHash signature) (deposits db0)))%nat ->
  snd (recordTransfer signature slot x db0) = db0.
Proof.
  intros Hc. unfold recordTransfer.
  destruct (negb _); [reflexivity|].
  destruct (_ && _); [|reflexivity].
  unfold Store.bind at 1.
  pose proof (depositExists_db (env x) signature db0) as Hdb.
  destruct (depositExists (env x) signature db0) as [[[|]|err] db1] eqn:E;
    cbn [snd] in Hdb; subst db1; try reflexivity.
  unfold Store.bind at 1.
  match goal with |- context [createDeposit ?e ?data db0] =>
    destruct (createDeposit_recorded e data db0 Hc) as [err ->] end.
  reflexivity.
Qed.

Lemma forEach_recorded (signature : string) (slot : Z) (xs : list Detected) (db0 : Db) :
  (1 <= length (List.filter (has_txHash signature) (deposits db0)))%nat ->
  snd (forEach signature slot xs db0) = db0.
Proof.
  intros Hc. induction xs as [|x xs IH]; [reflexivity|].
  cbn [forEach]. unfold Store.bind.
  pose proof (recordTransfer_recorded signature slot x db0 Hc) as H1.
  destruct (recordTransfer signature slot x db0) as [[[]|err] db1];
    cbn [snd] in H1; subst db1; [exact IH|reflexivity].
Qed.

(** An iteration that passes the guards, for a fresh signature and a store
    that serves every call. *)
Lemma recordTransfer_fresh (signature : string) (slot : Z) (x : Detected) (db0 : Db) :
  qualifies x = true ->
  store_reliable (env x) ->
  length (List.filter (has_txHash signature) (deposits db0)) = 0%nat ->
  exists d,
    recordTransfer signature slot x db0
    = (Ok tt,
       {| deposits := deposits db0 ++ [d];
          balances :=
            <[(ua_userId (userAddress x), "SOL") :=
                DepositListener.creditedValue (ti_amount (transferInfo x))
                  (balances db0 !! (ua_userId (userAddress x), "SOL"))]>
              (balances db0) |})
    /\ txHash d = signature
    /\ userId d = ua_userId (userAddress x)
    /\ amount d = ti_amount (transferInfo x)
    /\ status d = confirmed.
Proof.
  intros Hq (Fn & Fc & Fu & Fbf & Fbw) Hfresh.
  unfold qualifies in Hq. apply andb_prop in Hq. destruct Hq as [Hsol Hq].
  unfold recordTransfer. rewrite Hsol, Hq. cbn [negb].
  unfold Store.bind.
  rewrite depositExists_fresh by assumption.
  unfold createDeposit.
  match goal with |- context [usdValue ?e ?c ?a] =>
    destruct (usdValue e c a) as [r ra] end.
  rewrite Fc. rewrite deposit_create_fresh by exact Hfresh.
  rewrite updateDepositStatus_last by (assumption || reflexivity).
  rewrite updateUserBalance_reliable by assumption.
  cbn [deposits balances]. eexists. split; [reflexivity|].
  repeat split.
Qed.

End OneRecordPerTransaction.

(** X10. In the db/deposits pipeline a signature that already has a Deposit
    row is never processed again: [processSolanaTransaction] leaves rows and
    balances exactly as they are, for any list of user addresses and
    whatever the store answers (a failing existence check is read as "not
    there" and the insert is then refused). *)
Theorem processSolanaTransaction_recorded_is_noop
    (signature : string) (metaOk : bool) (slot : Z)
    (userAddresses : list SolanaDeposits.Detected) (db : Store.Db) :
  (1 <= length (List.filter (Store.has_txHash signature) (Store.deposits db)))%nat ->
  SolanaDeposits.processSolanaTransaction signature metaOk slot userAddresses db = db.
Proof.
  intros Hc. unfold SolanaDeposits.processSolanaTransaction.
  destruct (negb metaOk); [reflexivity|].
  now apply forEach_recorded.
Qed.

Lemma processSolanaTransaction_recorded_is_noop_witness :
  let db1 := SolanaDeposits.processSolanaTransaction "5VERv8NMvzbJMEkV" true 250000000
               [Sample.detectedFor 7 "A" 2.5%float Sample.dbEnvOracleUp] Store.empty in
  SolanaDeposits.processSolanaTransaction "5VERv8NMvzbJMEkV" true 250000000
    [Sample.detectedFor 7 "A" 2.5%float Sample.dbEnvDown;
     Sample.detectedFor 8 "B" 1%float Sample.dbEnvOracleUp] db1
  = db1.
Proof.
  intros db1.
  apply (processSolanaTransaction_recorded_is_noop "5VERv8NMvzbJMEkV" true 250000000).
  vm_compute. lia.
Defined.

(** X11. A transaction credits at most one user in the db/deposits pipeline.
    For a fresh signature and a store that serves every call,
    [processSolanaTransaction] over a list of user addresses does what it
    does for the first address of the list that passes its guards (Solana
    address, positive transfer) alone: one Deposit row, confirmed, for that
    user and amount, and one credit to that user's SOL balance; the
    addresses after it get nothing, and with no such address the store is
    unchanged. *)
Theorem transaction_credits_first_matching_address
    (signature : string) (slot : Z)
    (userAddresses : list SolanaDeposits.Detected) (db : Store.Db) :
  Forall (fun x => DbDeposits.store_reliable (SolanaDeposits.env x)) userAddresses ->
  length (List.filter (Store.has_txHash signature) (Store.deposits db)) = 0%nat ->
  let db' := SolanaDeposits.processSolanaTransaction signature true slot userAddresses db in
  match List.find SolanaTransfers.qualifies userAddresses with
  | None => db' = db
  | Some x =>
      let u := SolanaDeposits.ua_userId (SolanaDeposits.userAddress x) in
      let a := SolanaDeposits.ti_amount (SolanaDeposits.transferInfo x) in
      db' = SolanaDeposits.processSolanaTransaction signature true slot [x] db
      /\ (exists d,
            Store.deposits db' = (Store.deposits db ++ [d])%list
            /\ Store.txHash d = signature /\ Store.userId d = u
            /\ Store.amount d = a /\ Store.status d = Store.confirmed)
      /\ Store.balances db'
         = <[(u, "SOL") :=
              DepositListener.creditedValue a (Store.balances db !! (u, "SOL"))]>
             (Store.balances db)
  end.
Proof.
  intros Hrel Hfresh. cbv zeta.
  unfold SolanaDeposits.processSolanaTransaction. cbn [negb].
  induction Hrel as [|x xs Hx Hrel IH]; [reflexivity|].
  cbn [List.find SolanaDeposits.forEach]. unfold Store.bind.
  destruct (SolanaTransfers.qualifies x) eqn:Hq.
  - destruct (recordTransfer_fresh signature slot x db Hq Hx Hfresh)
      as (d & Hrec & Hh & Hu & Ha & Hs).
    rewrite Hrec.
    rewrite forEach_recorded
      by (cbn [Store.deposits]; rewrite filter_app_one by exact Hh; lia).
    cbn [snd Store.ret Store.deposits Store.balances].
    split; [reflexivity|]. split; [|reflexivity].
    exists d. repeat split; assumption.
  - rewrite (recordTransfer_skip signature slot x db Hq). exact IH.
Qed.

Lemma transaction_credits_first_matching_address_witness :
  let db' := SolanaDeposits.processSolanaTransaction "5VERv8NMvzbJMEkV" true 250000000
               [Sample.detectedFor 7 "A" 2.5%float Sample.dbEnvOracleUp;
                Sample.detectedFor 8 "B" 1%float Sample.dbEnvOracleUp] Store.empty in
  Store.balances db' !! (7, "SOL") = Some 2.5%float
  /\ Store.balances db' !! (8, "SOL") = None.
Proof.
  intros db'.
  pose proof (transaction_credits_first_matching_address "5VERv8NMvzbJMEkV" 250000000
                [Sample.detectedFor 7 "A" 2.5%float Sample.dbEnvOracleUp;
                 Sample.detectedFor 8 "B" 1%float Sample.dbEnvOracleUp] Store.empty) as H.
  cbv zeta in H. cbn [List.find] in H.
  change (SolanaTransfers.qualifies
            (Sample.detectedFor 7 "A" 2.5%float Sample.dbEnvOracleUp)) with true in H.
  cbv iota in H.
  destruct H as (_ & _ & Hb).
  - repeat constructor.
  - reflexivity.
  - fold db' in Hb. rewrite Hb. split; reflexivity.
Defined.

(** X12. If [updateDepositStatus] rejects after [createDeposit] has written
    the row, the deposit stays on record as pending and uncredited, and it
    stays so for good: every later [processSolanaTransaction] of the same
    signature finds the row and leaves the store untouched. *)
Theorem status_update_failure_strands_deposit
    (signature : string) (slot : Z) (x : SolanaDeposits.Detected)
    (db : Store.Db) (err : error) :
  SolanaTransfers.qualifies x = true ->
  DbDeposits.count_fault (SolanaDeposits.env x) = None ->
  DbDeposits.create_fault (SolanaDeposits.env x) = None ->
  DbDeposits.update_fault (SolanaDeposits.env x) = Some err ->
  length (List.filter (Store.has_txHash signature) (Store.deposits db)) = 0%nat ->
  let db1 := SolanaDeposits.processSolanaTransaction signature true slot [x] db in
  (exists d,
     Store.deposits db1 = (Store.deposits db ++ [d])%list
     /\ Store.txHash d = signature
     /\ Store.amount d = SolanaDeposits.ti_amount (SolanaDeposits.transferInfo x)
     /\ Store.status d = Store.pending)
  /\ Store.balances db1 = Store.balances db
  /\ forall metaOk slot' later,
       SolanaDeposits.processSolanaTransaction signature metaOk slot' later db1 = db1.
Proof.
  intros Hq Fn Fc Fu Hfresh. cbv zeta.
  assert (Hdb1 : exists d,
    SolanaDeposits.processSolanaTransaction signature true slot [x] db
    = {| Store.deposits := Store.deposits db ++ [d]; Store.balances := Store.balances db |}
    /\ Store.txHash d = signature
    /\ Store.amount d = SolanaDeposits.ti_amount (SolanaDeposits.transferInfo x)
    /\ Store.status d = Store.pending).
  { unfold SolanaTransfers.qualifies in Hq. apply andb_prop in Hq. destruct Hq as [Hsol Hq].
    unfold SolanaDeposits.processSolanaTransaction, SolanaDeposits.forEach,
      SolanaDeposits.recordTransfer.
    rewrite Hsol, Hq. cbn [negb]. unfold Store.bind.
    rewrite depositExists_fresh by assumption.
    unfold DbDeposits.createDeposit.
    match goal with |- context [DbDeposits.usdValue ?e ?c ?a] =>
      destruct (DbDeposits.usdValue e c a) as [r ra] end.
    rewrite Fc. rewrite deposit_create_fresh by exact Hfresh.
    unfold DbDeposits.updateDepositStatus, Store.deposit_update. rewrite Fu.
    cbn [snd]. eexists. split; [reflexivity|]. repeat split. }
  destruct Hdb1 as (d & -> & Hh & Ha & Hs).
  split; [exists d; repeat split; assumption|].
  split; [reflexivity|].
  intros metaOk slot' later.
  unfold SolanaDeposits.processSolanaTransaction.
  destruct (negb metaOk); [reflexivity|]. apply forEach_recorded.
  cbn [Store.deposits]. rewrite filter_app_one by exact Hh. lia.
Qed.

Lemma status_update_failure_strands_deposit_witness :
  let db1 := SolanaDeposits.processSolanaTransaction "5VERv8NMvzbJMEkV" true 250000000
               [Sample.detectedFor 7 "A" 2.5%float Sample.dbEnvUpdateFails] Store.empty in
  Store.balances db1 = ∅
  /\ SolanaDeposits.processSolanaTransaction "5VERv8NMvzbJMEkV" true 250000000
       [Sample.detectedFor 7 "A" 2.5%float Sample.dbEnvOracleUp] db1 = db1.
Proof.
  intros db1.
  destruct (status_update_failure_strands_deposit "5VERv8NMvzbJMEkV" 250000000
              (Sample.detectedFor 7 "A" 2.5%float Sample.dbEnvUpdateFails)
              Store.empty (StoreError "connection closed")
              eq_refl eq_refl eq_refl eq_refl eq_refl) as (_ & Hb & Hl).
  split; [exact Hb | apply Hl].
Defined.

(** ** Solana withdrawals: order of effects, and the advance check *)

Section SolanaWithdrawals.
Import BigNumber Solana SolanaChecks.

Lemma settleLedger_cases (e : Env) (u : Z) (to : string) (a : Q)
    (cur sig : string) (done : list effect) :
  let '(r, effs) := settleLedger e u to a cur sig done in
  (is_ok r = false /\ effs = done)
  \/ (is_ok r = false
      /\ effs = (done ++ [SaveTransaction u to (- a) cur sig "withdraw"])%list)
  \/ (r = Ok sig
      /\ effs = (done ++ [SaveTransaction u to (- a) cur sig "withdraw";
                          MinusBalance u a cur])%list).
Proof.
  unfold settleLedger.
  destruct (saveTransactionFault e); [left; split; reflexivity|].
  destruct (minusBalanceFault e).
  - right. left. split; reflexivity.
  - right. right. split; [reflexivity|]. now rewrite <- app_assoc.
Qed.

(** The reserve check implies the plain balance check that precedes it. *)
Lemma reserve_implies_balance (pool : Z) (total : Q) :
  (MIN_SOL_BALANCE <= inject_Z pool / inject_Z LAMPORTS_PER_SOL - total)%Q ->
  (pool <? JsNumber.trunc (total * inject_Z LAMPORTS_PER_SOL)) = false.
Proof.
  intros H. apply Z.ltb_ge. apply trunc_le_integer.
  unfold MIN_SOL_BALANCE, LAMPORTS_PER_SOL in *.
  assert (Hk : ~ (inject_Z 1000000000 == 0)%Q) by (intros C; discriminate C).
  assert (E : (inject_Z pool == inject_Z pool / inject_Z 1000000000 * inject_Z 1000000000)%Q)
    by (field; exact Hk).
  rewrite E. clear E.
  set (p := (inject_Z pool / inject_Z 1000000000)%Q) in *.
  change (inject_Z 1000000000) with (1000000000 # 1)%Q.
  nra.
Qed.

Lemma afterTransfer (e : Env) (u : Z) (to : string) (a : Q) (cur : string) (units : Z) :
  let '(r, effs) :=
    match transferSend e with
    | Throw err => (Throw err, [ChainTransfer cur to units])
    | Ok signature =>
        if falsy signature
        then (Throw (JsError "Transaction failed or not broadcasted"),
              [ChainTransfer cur to units])
        else settleLedger e u to a cur signature [ChainTransfer cur to units]
    end in
  transferThenLedger u to a cur r effs.
Proof.
  destruct (transferSend e) as [sig|err].
  - destruct (falsy sig).
    + exists units, sig. left. split; reflexivity.
    + pose proof (settleLedger_cases e u to a cur sig [ChainTransfer cur to units]) as H.
      destruct (settleLedger e u to a cur sig [ChainTransfer cur to units]) as [r effs].
      exists units, sig. destruct H as [[H1 ->]|[[H1 ->]|[-> ->]]].
      * left. split; [exact H1|reflexivity].
      * right. left. split; [exact H1|reflexivity].
      * right. right. split; reflexivity.
  - exists units, "". left. split; reflexivity.
Qed.

Lemma u64_nonneg (units : Z) : 0 <= units -> u64 units = Ok units.
Proof. intros H. unfold u64. now apply Z.ltb_ge in H as ->. Qed.

Lemma u64_negative (units : Z) :
  units < 0 -> u64 units = Throw (JsError "amount is not an unsigned integer").
Proof. intros H. unfold u64. now apply Z.ltb_lt in H as ->. Qed.

(** The sign of an amount in base units: [k] is the number of base units per
    unit. *)
Lemma trunc_scaled_nonneg (total : Q) (k : Z) :
  (0 <= total)%Q -> (0 <? k) = true ->
  0 <= JsNumber.trunc (total * inject_Z k).
Proof.
  intros H Hk. apply Z.ltb_lt in Hk.
  destruct total as [n d]. unfold Qle in H. simpl in H.
  unfold JsNumber.trunc. simpl. apply Z.quot_pos; nia.
Qed.

Lemma trunc_scaled_negative (total : Q) (k : Z) :
  (total <= - (1 # Z.to_pos k))%Q -> (0 <? k) = true ->
  JsNumber.trunc (total * inject_Z k) < 0.
Proof.
  intros H Hk. apply Z.ltb_lt in Hk.
  assert (Hle : (total * inject_Z k <= inject_Z (-1))%Q).
  { destruct total as [n d]. unfold Qle in *. simpl in *.
    rewrite Z2Pos.id in H by exact Hk. nia. }
  apply trunc_le_integer in Hle. lia.
Qed.

End SolanaWithdrawals.

(** X13. In both Solana withdrawal functions the user is debited only after
    the transfer has been confirmed and recorded. A call either rejects
    before asking anything of the chain, or (USDC only) after asking for
    nothing but the creation of the recipient's token account, or it has
    submitted the transfer, for USDC possibly after creating that account;
    from then on its effects are, in this order, the transfer, the
    withdrawal record and the debit, and it resolves exactly when all three
    were made. A failure after the transfer therefore leaves the pool paid
    and the user not debited. *)
Theorem solana_withdrawal_debits_only_after_transfer
    (e : Solana.Env) (u : Z) (to : string) (a : Q) :
  (let '(r, effs) := Solana.withdrawSol e u to a in
   (is_ok r = false /\ effs = [])
   \/ SolanaChecks.transferThenLedger u to a "SOL" r effs)
  /\ (let '(r, effs) := Solana.withdrawUsdc e u to a in
      (is_ok r = false /\ (effs = [] \/ effs = [CreateTokenAccount to]))
      \/ SolanaChecks.transferThenLedger u to a "USDC" r effs
      \/ exists rest,
           effs = CreateTokenAccount to :: rest
           /\ SolanaChecks.transferThenLedger u to a "USDC" r rest).
Proof.
  split.
  - unfold Solana.withdrawSol.
    destruct (negb _); [left; split; reflexivity|].
    destruct (Solana.getBalance e) as [pool|err]; [|left; split; reflexivity].
    destruct (_ <? _); [left; split; reflexivity|].
    destruct (BigNumber.isLessThan _ _); [left; split; reflexivity|].
    destruct (Solana.u64 _) as [lamports|err]; [|left; split; reflexivity].
    pose proof (afterTransfer e u to a "SOL" lamports) as H.
    match type of H with (let '(_, _) := ?t in _) =>
      match goal with |- (let '(_, _) := ?t' in _) => change t' with t end;
      destruct t as [r effs] end.
    right. exact H.
  - unfold Solana.withdrawUsdc.
    destruct (negb _); [left; split; [reflexivity|now left]|].
    destruct (Solana.getAssociatedTokenAddress e to);
      [|left; split; [reflexivity|now left]].
    destruct (BigNumber.isLessThan _ _); [left; split; [reflexivity|now left]|].
    destruct (BigNumber.isLessThan _ _); [left; split; [reflexivity|now left]|].
    destruct (Solana.recipientTokenAccount e) as [[]|err0].
    + destruct (Solana.u64 _) as [units|err]; [|left; split; [reflexivity|now left]].
      cbn [app].
      pose proof (afterTransfer e u to a "USDC" units) as H.
      match type of H with (let '(_, _) := ?t in _) =>
        match goal with |- (let '(_, _) := ?t' in _) => change t' with t end;
        destruct t as [r effs] end.
      right. left. exact H.
    + destruct (Solana.createAccountSend e) as [sig0|err1];
        [|left; split; [reflexivity|now right]].
      destruct (Solana.u64 _) as [units|err]; [|left; split; [reflexivity|now right]].
      cbn [app].
      pose proof (afterTransfer e u to a "USDC" units) as H.
      destruct (Solana.transferSend e) as [sig|err].
      * destruct (falsy sig).
        -- right. right. eexists. split; [reflexivity|exact H].
        -- unfold Solana.settleLedger in *.
           destruct (Solana.saveTransactionFault e);
             [right; right; eexists; split; [reflexivity|exact H]|].
           destruct (Solana.minusBalanceFault e);
             right; right; eexists; (split; [reflexivity|exact H]).
      * right. right. eexists. split; [reflexivity|exact H].
Qed.

(** X14. [canWithdrawSol] and [canWithdrawUsdc] answer for the balance
    guards of the withdrawal functions on the same pool balance. When the
    answer is no, the withdrawal of that amount rejects without asking
    anything of the chain or the ledger, whatever the recipient. When it is
    yes, the recipient address is valid (for USDC also on the curve) and the
    amount plus the fee is not negative, the withdrawal gets past its guards
    and makes its request to the chain. The check does not look at the sign
    of the amount: a withdrawal whose amount plus fee is negative by a base
    unit or more rejects while its instruction is built, with no transfer
    and no ledger write, whatever the check answers. *)
Theorem canWithdraw_agrees_with_withdraw
    (e : Solana.Env) (u : Z) (to : string) (a : Q) :
  (SolanaChecks.canWithdraw (SolanaChecks.canWithdrawSol e a) = false ->
     is_ok (fst (Solana.withdrawSol e u to a)) = false
     /\ snd (Solana.withdrawSol e u to a) = [])
  /\ (SolanaChecks.canWithdraw (SolanaChecks.canWithdrawUsdc e a) = false ->
       is_ok (fst (Solana.withdrawUsdc e u to a)) = false
       /\ snd (Solana.withdrawUsdc e u to a) = [])
  /\ (Solana.isValidSolanaAddress e to = true ->
       (SolanaChecks.canWithdraw (SolanaChecks.canWithdrawSol e a) = true ->
          (0 <= a + Solana.SOL_WITHDRAWAL_FEE)%Q ->
          snd (Solana.withdrawSol e u to a) <> [])
       /\ (SolanaChecks.canWithdraw (SolanaChecks.canWithdrawUsdc e a) = true ->
            Solana.isOnCurve e to = true ->
            (0 <= a + Solana.USDC_WITHDRAWAL_FEE)%Q ->
            snd (Solana.withdrawUsdc e u to a) <> []))
  /\ ((a + Solana.SOL_WITHDRAWAL_FEE <= - (1 # 1000000000))%Q ->
       is_ok (fst (Solana.withdrawSol e u to a)) = false
       /\ snd (Solana.withdrawSol e u to a) = [])
  /\ ((a + Solana.USDC_WITHDRAWAL_FEE <= - (1 # 1000000))%Q ->
       is_ok (fst (Solana.withdrawUsdc e u to a)) = false
       /\ (snd (Solana.withdrawUsdc e u to a) = []
           \/ snd (Solana.withdrawUsdc e u to a) = [CreateTokenAccount to])).
Proof.
  split; [|split; [|split; [|split]]].
  - unfold SolanaChecks.canWithdrawSol, SolanaChecks.getMainPoolSolBalance,
      Solana.withdrawSol.
    destruct (negb _); [now intros _|].
    destruct (Solana.getBalance e) as [pool|err]; [|now intros _].
    cbv zeta.
    destruct (pool <? _); [now intros _|].
    destruct (BigNumber.isLessThan _ _); [now intros _|discriminate].
  - unfold SolanaChecks.canWithdrawUsdc, SolanaChecks.getMainPoolUsdcBalance,
      Solana.withdrawUsdc.
    destruct (negb _); [now intros _|].
    destruct (Solana.getAssociatedTokenAddress e to); [|now intros _].
    cbv zeta.
    destruct (BigNumber.isLessThan (Solana.getUsdcBalance e) _); [now intros _|].
    destruct (BigNumber.isLessThan _ _); [now intros _|discriminate].
  - intros Hvalid. split.
    + unfold SolanaChecks.canWithdrawSol, SolanaChecks.getMainPoolSolBalance,
        Solana.withdrawSol.
      rewrite Hvalid. cbn [negb].
      destruct (Solana.getBalance e) as [pool|err]; [|discriminate].
      cbv zeta.
      destruct (BigNumber.isLessThan _ Solana.MIN_SOL_BALANCE) eqn:Hres; [discriminate|].
      intros _ Hsign.
      apply isLessThan_false in Hres.
      unfold BigNumber.integerValue_ROUND_DOWN.
      rewrite (reserve_implies_balance pool _ Hres).
      rewrite (u64_nonneg _ (trunc_scaled_nonneg _ Solana.LAMPORTS_PER_SOL Hsign eq_refl)).
      destruct (Solana.transferSend e) as [sig|err]; [|discriminate].
      destruct (falsy sig); [discriminate|].
      unfold Solana.settleLedger.
      destruct (Solana.saveTransactionFault e); [discriminate|].
      destruct (Solana.minusBalanceFault e); discriminate.
    + unfold SolanaChecks.canWithdrawUsdc, SolanaChecks.getMainPoolUsdcBalance,
        Solana.withdrawUsdc, Solana.getAssociatedTokenAddress.
      rewrite Hvalid. cbn [negb]. cbv zeta.
      destruct (BigNumber.isLessThan _ Solana.MIN_USDC_BALANCE) eqn:Hres; [discriminate|].
      intros _ -> Hsign.
      apply isLessThan_false in Hres.
      assert (Hbal : BigNumber.isLessThan (Solana.getUsdcBalance e)
                       (a + Solana.USDC_WITHDRAWAL_FEE) = false).
      { apply isLessThan_false. unfold Solana.MIN_USDC_BALANCE in Hres. lra. }
      rewrite Hbal.
      unfold BigNumber.integerValue_ROUND_DOWN.
      change (1000000%Q) with (inject_Z 1000000).
      rewrite (u64_nonneg _ (trunc_scaled_nonneg _ 1000000 Hsign eq_refl)).
      destruct (Solana.recipientTokenAccount e) as [[]|err0].
      * destruct (Solana.transferSend e) as [sig|err]; [|discriminate].
        destruct (falsy sig); [discriminate|].
        unfold Solana.settleLedger.
        destruct (Solana.saveTransactionFault e); [discriminate|].
        destruct (Solana.minusBalanceFault e); discriminate.
      * destruct (Solana.createAccountSend e) as [sig0|err1]; [|discriminate].
        destruct (Solana.transferSend e) as [sig|err]; [|discriminate].
        destruct (falsy sig); [discriminate|].
        unfold Solana.settleLedger.
        destruct (Solana.saveTransactionFault e); [discriminate|].
        destruct (Solana.minusBalanceFault e); discriminate.
  - intros Hneg. unfold Solana.withdrawSol.
    destruct (negb _); [now split|].
    destruct (Solana.getBalance e) as [pool|err]; [|now split].
    cbv zeta.
    destruct (pool <? _); [now split|].
    destruct (BigNumber.isLessThan _ _); [now split|].
    unfold BigNumber.integerValue_ROUND_DOWN.
    rewrite (u64_negative _ (trunc_scaled_negative _ Solana.LAMPORTS_PER_SOL Hneg eq_refl)).
    now split.
  - intros Hneg. unfold Solana.withdrawUsdc.
    destruct (negb _); [split; [reflexivity|now left]|].
    destruct (Solana.getAssociatedTokenAddress e to); [|split; [reflexivity|now left]].
    cbv zeta.
    destruct (BigNumber.isLessThan (Solana.getUsdcBalance e) _);
      [split; [reflexivity|now left]|].
    destruct (BigNumber.isLessThan _ _); [split; [reflexivity|now left]|].
    unfold BigNumber.integerValue_ROUND_DOWN.
    change (1000000%Q) with (inject_Z 1000000).
    rewrite (u64_negative _ (trunc_scaled_negative _ 1000000 Hneg eq_refl)).
    destruct (Solana.recipientTokenAccount e) as [[]|err0];
      [split; [reflexivity|now left]|].
    destruct (Solana.createAccountSend e); split; try reflexivity; now right.
Qed.

Lemma canWithdraw_agrees_with_withdraw_witness :
  SolanaChecks.canWithdrawUsdc Sample.solanaEnv 100
  = SolanaChecks.BelowReserve 101 (inject_Z 90000000 / 1000000) 1
  /\ snd (Solana.withdrawUsdc Sample.solanaEnv 7 "9WzDXwBbmkg8" 100) = []
  /\ SolanaChecks.canWithdrawSol Sample.solanaEnv 1 = SolanaChecks.Allowed
  /\ snd (Solana.withdrawSol Sample.solanaEnv 7 "9WzDXwBbmkg8" 1) <> []
  /\ SolanaChecks.canWithdrawSol Sample.solanaEnv (- 2) = SolanaChecks.Allowed
  /\ snd (Solana.withdrawSol Sample.solanaEnv 7 "9WzDXwBbmkg8" (- 2)) = [].
Proof.
  destruct (canWithdraw_agrees_with_withdraw Sample.solanaEnv 7 "9WzDXwBbmkg8" 100)
    as (_ & Hno & _).
  destruct (canWithdraw_agrees_with_withdraw Sample.solanaEnv 7 "9WzDXwBbmkg8" 1)
    as (_ & _ & Hyes & _).
  destruct (canWithdraw_agrees_with_withdraw Sample.solanaEnv 7 "9WzDXwBbmkg8" (- 2))
    as (_ & _ & _ & Hneg & _).
  split; [reflexivity|]. split; [apply Hno; reflexivity|].
  split; [reflexivity|].
  split; [apply Hyes; [reflexivity|reflexivity|vm_compute; discriminate]|].
  split; [reflexivity|]. apply Hneg. vm_compute. discriminate.
Defined.

(** ** Ethereum: which blocks are looked at *)

Section EthereumWindows.
Import Store Ethers.

Lemma listener_collect_ext (p p' : Provider) (logs : list Log) :
  (forall h, getTransaction p h = getTransaction p' h) ->
  EthereumListener.collect p logs = EthereumListener.collect p' logs.
Proof.
  intros Ht. induction logs as [|l logs IH]; [reflexivity|].
  cbn [EthereumListener.collect]. now rewrite Ht, IH.
Qed.

Lemma deposits_collect_ext (p p' : Provider) (logs : list Log) :
  (forall h, getTransaction p h = getTransaction p' h) ->
  (forall h, getTransactionReceipt p h = getTransactionReceipt p' h) ->
  EthereumDeposits.collect p logs = EthereumDeposits.collect p' logs.
Proof.
  intros Ht Hr. induction logs as [|l logs IH]; [reflexivity|].
  cbn [EthereumDeposits.collect]. now rewrite Ht, Hr, IH.
Qed.

Lemma fold_left_ext {A B} (f g : A -> B -> A) (l : list B) (a : A) :
  (forall x y, f x y = g x y) -> fold_left f l a = fold_left g l a.
Proof.
  intros H. revert a. induction l as [|y l IH]; intros a; [reflexivity|].
  cbn [fold_left]. now rewrite H, IH.
Qed.

Lemma fold_left_id {A B} (f : A -> B -> A) (l : list B) (a : A) :
  (forall x y, f x y = x) -> fold_left f l a = a.
Proof.
  intros H. induction l as [|y l IH]; [reflexivity|].
  cbn [fold_left]. now rewrite H.
Qed.

End EthereumWindows.

(** X15. The block cursor of the Ethereum poller. With the chain at block
    [c] and at least one Ethereum address to watch,
    [checkRecentBlocksForDeposits] asks the node for the logs of one range
    per address, from [max (c - 100) (lastProcessedBlock + 1)] to [c], and
    for nothing else: two nodes that agree on that range (and on the block
    number and on the transactions) give the same result. The range starts
    after the previous cursor and spans at most 101 blocks, and the cursor
    moves to [c] whatever the queries answer; if they all reject, the store
    is unchanged and the range is still behind the cursor, so it is not
    asked for again. *)
Theorem block_scan_never_looks_back
    (p p' : Ethers.Provider) (valueOf : Ethers.TransactionResponse -> float)
    (userAddresses : list EthereumScan.Watched)
    (lastProcessedBlock c : Z) (db : Store.Db) :
  Ethers.getBlockNumber p = Ok c ->
  Ethers.getBlockNumber p' = Ok c ->
  (forall h, Ethers.getTransaction p h = Ethers.getTransaction p' h) ->
  (forall h, Ethers.getTransactionReceipt p h = Ethers.getTransactionReceipt p' h) ->
  Exists (fun x => SolanaDeposits.ua_blockchain (EthereumScan.userAddress x) = "Ethereum")
    userAddresses ->
  let from := Z.max (c - EthereumScan.BLOCK_RANGE) (lastProcessedBlock + 1) in
  let run q := EthereumScan.checkRecentBlocksForDeposits q valueOf userAddresses
                 lastProcessedBlock db in
  ((forall address,
      Ethers.getLogs p (EthereumScan.query address from c)
      = Ethers.getLogs p' (EthereumScan.query address from c)) ->
   run p = run p')
  /\ lastProcessedBlock < from /\ c - from <= 100
  /\ fst (run p) = c
  /\ ((forall f, is_ok (Ethers.getLogs p f) = false) -> run p = (c, db)).
Proof.
  intros Hc Hc' Ht Hr Hex. cbv zeta.
  unfold EthereumScan.checkRecentBlocksForDeposits. rewrite Hc, Hc'.
  set (from := Z.max (c - EthereumScan.BLOCK_RANGE) (lastProcessedBlock + 1)).
  set (addrs := map _ (List.filter _ userAddresses)).
  assert (Hne : addrs <> []).
  { subst addrs. induction Hex as [x l Hx|x l _ IH]; cbn [List.filter].
    - rewrite Hx. discriminate.
    - destruct (String.eqb _ _); [discriminate|exact IH]. }
  destruct addrs as [|a0 rest] eqn:Ea; [contradiction|].
  split; [|split; [|split; [|split]]].
  - intros Hlogs. f_equal. apply fold_left_ext. intros d address.
    unfold EthereumDeposits.getRecentTransactionsForAddress.
    change {| Ethers.f_address := address; Ethers.fromBlock := from;
              Ethers.toBlock := c; Ethers.topics := [] |}
      with (EthereumScan.query address from c).
    rewrite Hlogs. destruct (Ethers.getLogs p' _); [|reflexivity].
    now rewrite (deposits_collect_ext p p' _ Ht Hr).
  - subst from. lia.
  - subst from. unfold EthereumScan.BLOCK_RANGE. lia.
  - reflexivity.
  - intros Hdead. f_equal. apply fold_left_id. intros d address.
    unfold EthereumDeposits.getRecentTransactionsForAddress.
    specialize (Hdead {| Ethers.f_address := address; Ethers.fromBlock := from;
                         Ethers.toBlock := c; Ethers.topics := [] |}).
    destruct (Ethers.getLogs p _); [discriminate|reflexivity].
Qed.

(** ** Ethereum: what a transaction must be to be recorded *)

Section EthereumTransactions.
Import Store DbDeposits EthereumScan.

Lemma eth_recordTransfer_recorded (h to : string) (from : option string) (v : float)
    (bn : Z) (x : Watched) (db0 : Db) :
  (1 <= length (List.filter (has_txHash h) (deposits db0)))%nat ->
  snd (recordTransfer h to from v bn x db0) = db0.
Proof.
  intros Hc. unfold recordTransfer.
  destruct (negb _); [reflexivity|].
  destruct (String.eqb to _); [|reflexivity].
  unfold Store.bind at 1.
  pose proof (depositExists_db (env x) h db0) as Hdb.
  destruct (depositExists (env x) h db0) as [[[|]|err] db1] eqn:E;
    cbn [snd] in Hdb; subst db1; try reflexivity.
  unfold Store.bind at 1. unfold await at 1.
  destruct (confirmationsAtCreate x) as [c1|err]; [|reflexivity].
  unfold Store.bind at 1.
  match goal with |- context [createDeposit ?e ?data db0] =>
    destruct (createDeposit_recorded e data db0 Hc) as [err ->] end.
  reflexivity.
Qed.

Lemma eth_forEach_recorded (h to : string) (from : option string) (v : float)
    (bn : Z) (xs : list Watched) (db0 : Db) :
  (1 <= length (List.filter (has_txHash h) (deposits db0)))%nat ->
  snd (forEach h to from v bn xs db0) = db0.
Proof.
  intros Hc. induction xs as [|x xs IH]; [reflexivity|].
  cbn [forEach]. unfold Store.bind.
  pose proof (eth_recordTransfer_recorded h to from v bn x db0 Hc) as H1.
  destruct (recordTransfer h to from v bn x db0) as [[[]|err] db1];
    cbn [snd] in H1; subst db1; [exact IH|reflexivity].
Qed.

End EthereumTransactions.

(** X16. [processEthereumTransaction] leaves the store as it is for a
    transaction whose receipt does not report success, that has no
    recipient (a contract creation), that carries no value, or whose hash
    already has a Deposit row, whatever the user addresses and whatever the
    store answers. *)
Theorem processEthereumTransaction_ignores
    (tx : Ethers.TransactionResponse) (receipt : Ethers.TransactionReceipt)
    (value : float) (userAddresses : list EthereumScan.Watched) (db : Store.Db) :
  Ethers.receipt_status receipt <> 1
  \/ Ethers.tx_to tx = None
  \/ (value <=? 0)%float = true
  \/ (1 <= length (List.filter (Store.has_txHash (Ethers.hash tx)) (Store.deposits db)))%nat ->
  EthereumScan.processEthereumTransaction (Some tx) (Some receipt) value userAddresses db
  = db.
Proof.
  intros H. unfold EthereumScan.processEthereumTransaction.
  destruct (Ethers.receipt_status receipt =? 1) eqn:Es; [|reflexivity]. cbn [negb].
  apply Z.eqb_eq in Es.
  destruct (Ethers.tx_to tx) as [to|]; [|reflexivity]. cbn [option_map].
  destruct (falsy (JsString.toLowerCase to)); [reflexivity|]. cbn [orb].
  destruct (value <=? 0)%float eqn:Ev; [reflexivity|].
  destruct H as [H|[H|[H|H]]]; try congruence.
  now apply eth_forEach_recorded.
Qed.

Lemma block_scan_never_looks_back_witness :
  EthereumScan.checkRecentBlocksForDeposits Sample.flakyProvider (fun _ => 5%float)
    [Sample.ethWatched] 18999000 Store.empty
  = (19000100, Store.empty).
Proof.
  apply (block_scan_never_looks_back Sample.flakyProvider Sample.flakyProvider
           (fun _ => 5%float) [Sample.ethWatched] 18999000 19000100 Store.empty).
  - reflexivity.
  - reflexivity.
  - reflexivity.
  - reflexivity.
  - constructor. reflexivity.
  - reflexivity.
Defined.

Lemma processEthereumTransaction_ignores_witness :
  EthereumScan.processEthereumTransaction (Some Sample.ethTx)
    (Some Sample.revertedReceipt) 5%float [Sample.ethWatched] Store.empty
  = Store.empty.
Proof.
  apply processEthereumTransaction_ignores. left. simpl. lia.
Defined.

(** X17. The blocks the Ethereum listener looks at for an address. With the
    last recorded deposit to the address in block [b] (the one the store
    returns for the lookup), one scan asks the node for the Transfer logs of
    blocks [b + 1] to [min current (b + 1001)] and for nothing else: two
    nodes that agree on that one query (and on the block number and the
    transactions) leave the same world. For an address without a recorded
    deposit the range is blocks 0 to [min current 1000], at every scan. *)
Theorem listener_scan_window
    (p p' : Ethers.Provider) (valueOf : Ethers.TransactionResponse -> float)
    (find_last : Store.fault) (envOf : Ethers.TransactionResponse -> DepositListener.Env)
    (userId : Z) (address : string) (w : DepositListener.World) (c : Z)
    (lastDeposit : option Store.Deposit) :
  Ethers.getBlockNumber p = Ok c ->
  Ethers.getBlockNumber p' = Ok c ->
  (forall h, Ethers.getTransaction p h = Ethers.getTransaction p' h) ->
  fst (EthereumMonitor.findLastDeposit find_last userId address (DepositListener.db w))
    = Ok lastDeposit ->
  let from := EthereumMonitor.nextBlock lastDeposit in
  (Ethers.getLogs p (EthereumMonitor.query address from c)
   = Ethers.getLogs p' (EthereumMonitor.query address from c) ->
   EthereumMonitor.monitorEthereumAddress p valueOf find_last envOf userId address w
   = EthereumMonitor.monitorEthereumAddress p' valueOf find_last envOf userId address w)
  /\ Ethers.toBlock (EthereumMonitor.query address from c) <= from + 1000
  /\ (List.filter (EthereumMonitor.toThisAddress userId address)
        (Store.deposits (DepositListener.db w)) = [] ->
      from = 0).
Proof.
  intros Hc Hc' Ht Hlast. cbv zeta.
  split; [|split].
  - intros Hlogs. unfold EthereumMonitor.monitorEthereumAddress.
    destruct (EthereumMonitor.findLastDeposit find_last userId address
                (DepositListener.db w)) as [r d].
    cbn [fst] in Hlast. subst r. rewrite Hc, Hc'.
    destruct (c <=? _); [reflexivity|].
    unfold EthereumListener.getRecentTransactions. rewrite Hc, Hc'. cbv zeta.
    change {| Ethers.f_address := address;
              Ethers.fromBlock := EthereumMonitor.nextBlock lastDeposit;
              Ethers.toBlock := Z.min c (EthereumMonitor.nextBlock lastDeposit + 1000);
              Ethers.topics := [EthereumListener.transferTopic] |}
      with (EthereumMonitor.query address (EthereumMonitor.nextBlock lastDeposit) c).
    rewrite Hlogs. destruct (Ethers.getLogs p' _); [|reflexivity].
    now rewrite (listener_collect_ext p p' _ Ht).
  - cbn. lia.
  - intros Hnone. unfold EthereumMonitor.findLastDeposit in Hlast.
    destruct find_last; [discriminate|]. cbn [fst] in Hlast.
    rewrite Hnone in Hlast. cbn in Hlast. injection Hlast as <-. reflexivity.
Qed.

Lemma listener_scan_window_witness :
  EthereumMonitor.monitorEthereumAddress Sample.ethProvider (fun _ => 5%float) None
    (fun _ => Sample.envOk "ETH_1700000000_a") 7 "0xa11ce" Sample.world0
  = EthereumMonitor.monitorEthereumAddress Sample.silentProvider (fun _ => 5%float) None
      (fun _ => Sample.envOk "ETH_1700000000_a") 7 "0xa11ce" Sample.world0
  /\ EthereumMonitor.monitorEthereumAddress Sample.ethProvider (fun _ => 5%float) None
       (fun _ => Sample.envOk "ETH_1700000000_a") 7 "0xa11ce" Sample.world0
     = Sample.world0.
Proof.
  destruct (listener_scan_window Sample.ethProvider Sample.silentProvider
              (fun _ => 5%float) None (fun _ => Sample.envOk "ETH_1700000000_a")
              7 "0xa11ce" Sample.world0 19000100 None
              eq_refl eq_refl (fun _ => eq_refl) eq_refl) as (H & _ & _).
  split.
  - apply H. reflexivity.
  - rewrite H by reflexivity. reflexivity.
Defined.

(** ** Tron: sweeps into the main pool *)

(** X18. A USDT sweep credits what it moved, after it moved it. Below 10
    USDT [maybeSweepUserDeposit] does nothing. From 10 USDT on, its effects
    are, in this order: the gas top-up of 2,000,000 Sun from the pool (made
    only when the deposit address holds less than that), the transfer of the
    whole token balance to the main pool, the deposit record and the USD
    credit, both for the balance in whole tokens; the call resolves, with
    the id of the transfer, exactly when all of them were made, and a
    rejection in between leaves the effects made so far. *)
Theorem usdt_sweep_credits_what_it_moved
    (e : TronSweep.SweepEnv) (depositAddr incomingTxId : string)
    (userId balanceRaw : Z) :
  let '(r, effs) :=
    TronSweep.maybeSweepUserDeposit e depositAddr incomingTxId userId balanceRaw in
  let amount := Numbers.toNumber (inject_Z balanceRaw / 1000000) in
  let gas := TronSweep.PoolSendsTrx depositAddr 2000000 in
  let move := TronSweep.DepositSendsToken depositAddr balanceRaw in
  let record :=
    TronSweep.saveTransaction userId depositAddr amount "USDT" incomingTxId "deposit" in
  let credit := TronSweep.topBalance userId amount "USD" in
  if (amount <? 10)%float then r = Ok None /\ effs = []
  else
    exists pre,
      (pre = []
       \/ pre = [gas]
          /\ exists trxBalance,
               TronSweep.getBalance e = Ok trxBalance /\ trxBalance < 2000000)
      /\ ((is_ok r = false
           /\ (effs = pre \/ effs = (pre ++ [move])%list
               \/ effs = (pre ++ [move; record])%list))
          \/ exists txId,
               TronSweep.transferSend e = Ok txId
               /\ r = Ok (Some txId)
               /\ effs = (pre ++ [move; record; credit])%list).
Proof.
  unfold TronSweep.maybeSweepUserDeposit. cbv zeta.
  unfold TronSweep.MIN_SWEEP_USDT.
  destruct (Numbers.toNumber (inject_Z balanceRaw / 1000000) <? 10)%float;
    [split; reflexivity|].
  unfold TronSweep.topUp, TronSweep.GAS_AMOUNT.
  destruct (TronSweep.getBalance e) as [trxBalance|err] eqn:Hbal;
    [|cbv beta iota; exists []; split; [now left|left; split; [reflexivity|now left]]].
  destruct (trxBalance <? 2000000) eqn:Hgas;
    [apply Z.ltb_lt in Hgas|];
    destruct (TronSweep.topUpSend e);
    destruct (TronSweep.waitForConfirmation e);
    destruct (TronSweep.contractAt e);
    destruct (TronSweep.transferSend e) as [txId|];
    destruct (TronSweep.saveTransactionFault e);
    destruct (TronSweep.topBalanceFault e);
    cbv beta iota;
    first
      [ solve [exists []; split; [now left|];
        first [ left; split; [reflexivity|];
                first [now left | right; now left | right; now right]
              | right; exists txId; split; [reflexivity|split; reflexivity] ]]
      | exists [TronSweep.PoolSendsTrx depositAddr 2000000];
        split; [right; split; [reflexivity|now exists trxBalance]|];
        first [ left; split; [reflexivity|];
                first [now left | right; now left | right; now right]
              | right; exists txId; split; [reflexivity|split; reflexivity] ] ].
Qed.

Section ToNumber.
Import Numbers.

(** [toNumber] depends on the value of the fraction only. *)
Lemma toNumber_Qeq (q q' : Q) : (q == q')%Q -> toNumber q = toNumber q'.
Proof. intros H. unfold toNumber. now rewrite (Qred_complete q q' H). Qed.

Lemma Qred_inject_Z (n : Z) : Qred (inject_Z n) = inject_Z n.
Proof.
  unfold Qred, inject_Z.
  pose proof (Z.ggcd_gcd n 1) as Hg. pose proof (Z.ggcd_correct_divisors n 1) as Hd.
  destruct (Z.ggcd n 1) as [g [a b]]. simpl in *.
  rewrite Z.gcd_1_r in Hg. subst g. destruct Hd as [Ha Hb].
  f_equal; [lia|]. destruct b; try discriminate. simpl. f_equal. lia.
Qed.


Lemma iter_xO_pow (k : nat) (n : positive) :
  Zpos (Nat.iter k xO n) = Zpos n * 2 ^ Z.of_nat k.
Proof.
  induction k as [|k IH]; [simpl; lia|].
  change (Nat.iter (S k) xO n) with (xO (Nat.iter k xO n)).
  rewrite Pos2Z.inj_xO, IH, Nat2Z.inj_succ, Z.pow_succ_r by lia. lia.
Qed.

(** An integer of at most 53 binary digits is a binary64 value: dividing it
    by 1 gives its normal form. *)
Lemma SFdiv_integer (s : bool) (n : positive) :
  let dn := Zpos (digits2_pos n) in
  dn <= 53 ->
  SFdiv prec emax (S754_finite s n 0) (S754_finite false 1 0)
  = S754_finite s (Nat.iter (Z.to_nat (53 - dn)) xO n) (dn - 53).
Proof.
  intros dn Hdn.
  unfold SFdiv, SFdiv_core_binary. rewrite xorb_false_r.
  change (Zdigits2 (Z.pos n)) with dn.
  change (Zdigits2 1) with 1.
  assert (Hf : fexp prec emax (dn + 0 - (1 + 0)) = dn - 54).
  { unfold fexp, emin, prec, emax. subst dn. lia. }
  rewrite Hf.
  replace (Z.min (dn - 54) (0 - 0)) with (dn - 54) by (subst dn; lia).
  replace (0 - 0 - (dn - 54)) with (Z.of_nat (S (Z.to_nat (53 - dn))))
    by (subst dn; lia).
  set (j := Z.to_nat (53 - dn)).
  assert (Hsh : Z.shiftl (Z.pos n) (Z.of_nat (S j)) = Zpos (xO (Nat.iter j xO n))).
  { rewrite Z.shiftl_mul_pow2 by lia.
    change (xO (Nat.iter j xO n)) with (Nat.iter (S j) xO n).
    now rewrite iter_xO_pow. }
  destruct (Z.of_nat (S j)) as [|p|p] eqn:Ep; [lia| |lia].
  rewrite Hsh.
  rewrite <- (Z.mul_1_r (Z.pos (Nat.iter j xO n)~0)), div_eucl_exact by lia.
  change (new_location 1 0) with loc_Exact.
  unfold binary_round_aux, shr_fexp.
  change (Zdigits2 (Z.pos (Nat.iter j xO n)~0))
    with (Z.pos (Pos.succ (digits2_pos (Nat.iter j xO n)))).
  rewrite Pos2Z.inj_succ, digits2_pos_iter_xO. fold dn.
  assert (Hj : Z.of_nat j = 53 - dn) by (subst j dn; lia).
  rewrite Hj.
  replace (Z.succ (dn + (53 - dn)) + (dn - 54)) with dn by lia.
  assert (Hf2 : fexp prec emax dn = dn - 53).
  { unfold fexp, emin, prec, emax. subst dn. lia. }
  rewrite Hf2.
  replace (dn - 53 - (dn - 54)) with 1 by lia.
  cbn -[fexp Z.add Z.sub Z.leb Nat.iter].
  change (Zdigits2 (Z.pos (Nat.iter j xO n)))
    with (Z.pos (digits2_pos (Nat.iter j xO n))).
  rewrite digits2_pos_iter_xO. fold dn. rewrite Hj.
  replace (dn + (53 - dn) + (dn - 54 + 1)) with dn by lia.
  rewrite Hf2.
  replace (dn - 53 - (dn - 54 + 1)) with 0 by lia.
  cbn -[Z.leb Z.sub Z.add Nat.iter].
  replace (dn - 54 + 1) with (dn - 53) by lia.
  assert (Hle : (dn - 53 <=? emax - prec) = true)
    by (apply Z.leb_le; unfold emax, prec; lia).
  now rewrite Hle.
Qed.

Lemma digits2_pos_lower (p : positive) :
  2 ^ (Zpos (digits2_pos p) - 1) <= Zpos p.
Proof.
  induction p as [p IH|p IH|]; cbn [digits2_pos]; [| |simpl; lia];
    rewrite Pos2Z.inj_succ;
    replace (Z.succ (Z.pos (digits2_pos p)) - 1)
      with (Z.succ (Z.pos (digits2_pos p) - 1)) by lia;
    rewrite Z.pow_succ_r by lia; lia.
Qed.

(** A positive integer below 2^53 is converted exactly: the result is the
    integer itself in normal form. *)
Lemma toNumber_integer (n : positive) :
  Zpos n < 2 ^ 53 ->
  let dn := Zpos (digits2_pos n) in
  Prim2SF (toNumber (inject_Z (Zpos n)))
  = S754_finite false (Nat.iter (Z.to_nat (53 - dn)) xO n) (dn - 53).
Proof.
  intros Hn dn.
  assert (Hdn : dn <= 53).
  { pose proof (digits2_pos_lower n) as Hl. fold dn in Hl.
    apply Z.nlt_ge. intros Hgt.
    assert (2 ^ 53 <= 2 ^ (dn - 1)) by (apply Z.pow_le_mono_r; lia). lia. }
  unfold toNumber. rewrite Qred_inject_Z. cbn [inject_Z Qnum Qden].
  rewrite (SFdiv_integer false n Hdn). fold dn.
  apply Prim2SF_SF2Prim.
  unfold valid_binary, bounded, canonical_mantissa.
  rewrite digits2_pos_iter_xO. fold dn.
  replace (dn + Z.of_nat (Z.to_nat (53 - dn)) + (dn - 53)) with dn by lia.
  apply andb_true_intro. split.
  - apply Z.eqb_eq. unfold fexp, emin, prec, emax. subst dn. lia.
  - apply Z.leb_le. unfold emax, prec. lia.
Qed.

Lemma toNumber_integer_valid (n : Z) :
  0 < n < 2 ^ 53 ->
  isInteger (toNumber (inject_Z n)) = true
  /\ (toNumber (inject_Z n) <=? 0)%float = false.
Proof.
  intros [Hpos Hn]. destruct n as [|p|p]; try lia.
  pose proof (toNumber_integer p Hn) as H. cbv zeta in H.
  split.
  - unfold isInteger. rewrite H.
    set (dn := Zpos (digits2_pos p)) in *.
    apply orb_true_intro. right. apply Z.eqb_eq.
    rewrite iter_xO_pow.
    assert (Hdn : 0 <= 53 - dn).
    { pose proof (digits2_pos_lower p) as Hl. fold dn in Hl.
      apply Z.nlt_ge. intros Hgt.
      assert (2 ^ 53 <= 2 ^ (dn - 1)) by (apply Z.pow_le_mono_r; lia). lia. }
    replace (- (dn - 53)) with (Z.of_nat (Z.to_nat (53 - dn))) by lia.
    apply Z.mod_mul. apply Z.pow_nonzero; lia.
  - rewrite leb_spec, H. reflexivity.
Qed.

(** The amount of a sweep in Sun, for a deposit of [deposit] Sun. *)
Lemma sweep_amount (amount : Q) (deposit : Z) :
  (amount == inject_Z deposit / 1000000)%Q ->
  toNumber ((amount - (1 # 10)) * 1000000)
  = toNumber (inject_Z (deposit - 100000)).
Proof.
  intros H. apply toNumber_Qeq. rewrite H. unfold Qeq. simpl. lia.
Qed.

End ToNumber.

(** X19. A TRX sweep keeps a fee buffer of 0.1 TRX on the deposit address
    and credits the full deposit. [transferToMain] never rejects; its
    effects are, in this order, a transfer of the amount less 0.1 TRX to
    the main pool, a deposit record of the amount less 0.1 TRX, and a USD
    credit of the whole amount times the TRX price. A failure (of the
    transfer, of the price fetch, of the record) ends it silently with the
    effects made so far: once the transfer is submitted, a failing price
    fetch leaves the deposit swept and uncredited. The transfer is asked of
    the node only for a whole number of Sun above 0; for a deposit of more
    than 100,000 and less than 2^53 Sun whose key decrypts it is asked, for
    exactly the deposit less 100,000 Sun. *)
Theorem trx_sweep_keeps_fee_buffer
    (e : TronSweep.MainEnv) (wallet : TronSweep.Wallet) (amount : Q) (txId : string) :
  let effs := TronSweep.transferToMain e wallet amount txId in
  let u := TronSweep.userId wallet in
  let addr := TronSweep.publicKey wallet in
  let sun := Numbers.toNumber ((amount - (1 # 10)) * 1000000) in
  let move := TronSweep.DepositSendsTrx addr sun in
  let record :=
    TronSweep.saveTransaction u addr (Numbers.toNumber (amount - (1 # 10)))
      "TRX" txId "deposit" in
  (effs = [] \/ effs = [move] \/ effs = [move; record]
   \/ exists data,
        TronSweep.http e = Ok data
        /\ effs = [move; record;
                   TronSweep.topBalance u
                     (Numbers.toNumber amount * Exchange.tron_usd data)%float "USD"])
  /\ (effs <> [] ->
      Numbers.isInteger sun = true /\ (sun <=? 0)%float = false)
  /\ (forall deposit : Z,
        (amount == inject_Z deposit / 1000000)%Q ->
        100000 < deposit < 2 ^ 53 ->
        is_ok (TronSweep.decryptPrivateKey e) = true ->
        sun = Numbers.toNumber (inject_Z (deposit - 100000))
        /\ exists rest, effs = move :: rest).
Proof.
  cbv zeta. split; [|split].
  - unfold TronSweep.transferToMain.
    destruct (TronSweep.decryptPrivateKey e); [|now left].
    destruct (negb _ || _); [now left|].
    destruct (TronSweep.sendTransaction e); [|right; now left].
    destruct (TronSweep.http e) as [data|err] eqn:Hh; [|right; now left].
    unfold Exchange.convert. cbn [Exchange.getRate].
    change (Exchange.toUSDT _ !! Exchange.toUpperCase "TRX")
      with (Some (Exchange.tron_usd data)).
    change (Exchange.toUSDT _ !! Exchange.toUpperCase "USDT") with (Some 1%float).
    cbn [Exchange.ToNumber]. rewrite div_one_r.
    destruct (TronSweep.main_saveTransactionFault e); [right; now left|].
    destruct (TronSweep.main_topBalanceFault e); [right; right; now left|].
    right. right. right. exists data. split; reflexivity.
  - unfold TronSweep.transferToMain.
    destruct (TronSweep.decryptPrivateKey e); [|congruence].
    destruct (Numbers.isInteger _); cbn [negb orb]; [|congruence].
    destruct (_ <=? 0)%float; [congruence|]. now intros _.
  - intros deposit Hamount Hrange Hkey.
    pose proof (sweep_amount amount deposit Hamount) as Hsun.
    destruct (toNumber_integer_valid (deposit - 100000) ltac:(lia)) as [Hint Hpos].
    split; [exact Hsun|].
    unfold TronSweep.transferToMain.
    destruct (TronSweep.decryptPrivateKey e); [|discriminate Hkey].
    rewrite Hsun, Hint, Hpos. cbn [negb orb].
    destruct (TronSweep.sendTransaction e); [|eexists; reflexivity].
    destruct (Exchange.convert _ _ _ _); [|eexists; reflexivity].
    destruct (TronSweep.main_saveTransactionFault e); [eexists; reflexivity|].
    destruct (TronSweep.main_topBalanceFault e); eexists; reflexivity.
Qed.

Lemma trx_sweep_keeps_fee_buffer_witness :
  let amount := (inject_Z 500000000001 / 1000000)%Q in
  let effs :=
    TronSweep.transferToMain Sample.sweepEnv Sample.tronWallet amount "c0ffee02" in
  Numbers.toNumber ((amount - (1 # 10)) * 1000000) = 499999900001%float
  /\ Numbers.isInteger 499999900001%float = true
  /\ exists rest,
       effs = TronSweep.DepositSendsTrx "TUserDeposit1" 499999900001%float :: rest.
Proof.
  intros amount effs.
  destruct (trx_sweep_keeps_fee_buffer Sample.sweepEnv Sample.tronWallet amount
              "c0ffee02") as (_ & Hvalid & Hexact).
  destruct (Hexact 500000000001 ltac:(reflexivity) ltac:(lia) eq_refl)
    as [Hsun Hmove].
  assert (Hvalue : Numbers.toNumber (inject_Z (500000000001 - 100000))
                   = 499999900001%float) by (vm_compute; reflexivity).
  rewrite Hvalue in Hsun.
  split; [exact Hsun|].
  split.
  - rewrite <- Hsun. apply Hvalid.
    destruct Hmove as [rest Hrest]. intros Hnone.
    rewrite Hnone in Hrest. discriminate Hrest.
  - rewrite <- Hsun. exact Hmove.
Defined.

Section PollBlocks.
Import TronSweep.




End PollBlocks.



(** ** Tron listener: one entry per transaction id *)

Section TronUnique.
Import TronListener.

Lemma mapSet_ids (tx : TronTx) (m : list TronTx) :
  map txID (mapSet tx m)
  = if existsb (fun x => String.eqb (txID x) (txID tx)) m
    then map txID m else (map txID m ++ [txID tx])%list.
Proof.
  induction m as [|x m IH]; [reflexivity|].
  cbn [mapSet existsb map].
  destruct (String.eqb_spec (txID x) (txID tx)) as [E|_]; cbn [orb map].
  - destruct (existsb _ m); now rewrite E.
  - rewrite IH. now destruct (existsb _ m).
Qed.

Lemma mapSet_In (tx x : TronTx) (m : list TronTx) :
  In x (mapSet tx m) -> x = tx \/ In x m.
Proof.
  induction m as [|y m IH]; cbn [mapSet].
  - intros [<-|[]]. now left.
  - destruct (String.eqb (txID y) (txID tx)).
    + intros [<-|H]; [now left|right; now right].
    + intros [<-|H]; [right; now left|].
      destruct (IH H) as [->|H']; [now left|right; now right].
Qed.

Lemma existsb_ids (tx : TronTx) (m : list TronTx) :
  existsb (fun x => String.eqb (txID x) (txID tx)) m = true
  <-> In (txID tx) (map txID m).
Proof.
  rewrite existsb_exists, in_map_iff. split.
  - intros (x & Hin & E). apply String.eqb_eq in E. now exists x.
  - intros (x & E & Hin). exists x. split; [exact Hin|now apply String.eqb_eq].
Qed.

Lemma uniq_fold (results m : list TronTx) :
  NoDup (map txID m) ->
  let out := fold_left (fun m tx => mapSet tx m) results m in
  NoDup (map txID out)
  /\ (forall tx, In tx out -> In tx m \/ In tx results)
  /\ (forall id, In id (map txID m) \/ In id (map txID results) -> In id (map txID out)).
Proof.
  revert m. induction results as [|tx results IH]; intros m Hnd; cbv zeta.
  - cbn [fold_left]. split; [exact Hnd|]. split; [now left|].
    intros id [H|[]]. exact H.
  - cbn [fold_left].
    assert (Hnd' : NoDup (map txID (mapSet tx m))).
    { rewrite mapSet_ids.
      destruct (existsb _ m) eqn:Ex; [exact Hnd|].
      apply NoDup_app. split; [exact Hnd|]. split; [|apply NoDup_singleton].
      intros id Hin Hin'. apply list_elem_of_In in Hin, Hin'.
      destruct Hin' as [<-|[]]. apply existsb_ids in Hin. congruence. }
    destruct (IH (mapSet tx m) Hnd') as (H1 & H2 & H3).
    split; [exact H1|]. split.
    + intros x Hx. destruct (H2 x Hx) as [H|H].
      * destruct (mapSet_In _ _ _ H) as [->|H']; [right; now left|now left].
      * right. now right.
    + intros id Hid. apply H3. rewrite mapSet_ids.
      destruct (existsb _ m) eqn:Ex.
      * destruct Hid as [H|[<-|H]]; [now left| |now right].
        left. now apply existsb_ids.
      * destruct Hid as [H|[<-|H]]; [left; apply in_or_app; now left| |now right].
        left. apply in_or_app. right. now left.
Qed.

End TronUnique.

(** X21. The Tron listing hands each transaction id to the scan once:
    [getRecentTransactions] never rejects, the transactions it returns have
    pairwise distinct ids, each of them is one that an endpoint returned, and
    every id an endpoint returned is among them - so a transaction reported
    by both the Shasta and the Mainnet endpoint is listed once. *)
Theorem getRecentTransactions_distinct
    (cl : TronListener.Clients) (address : string) (limit : Z) :
  let fetched :=
    TronListener.pushRelated (TronListener.tronWebMainnet cl)
      (TronListener.pushRelated (TronListener.tronWebShasta cl) []) in
  exists txs,
    TronListener.getRecentTransactions cl address limit = Ok txs
    /\ NoDup (map TronListener.txID txs)
    /\ (forall tx, In tx txs -> In tx fetched)
    /\ (forall tx, In tx fetched -> In (TronListener.txID tx) (map TronListener.txID txs)).
Proof.
  cbv zeta. unfold TronListener.getRecentTransactions.
  set (fetched := TronListener.pushRelated (TronListener.tronWebMainnet cl)
                    (TronListener.pushRelated (TronListener.tronWebShasta cl) [])).
  destruct (uniq_fold fetched [] (NoDup_nil_2)) as (H1 & H2 & H3).
  assert (Hgen : exists txs, Ok (TronListener.uniqValues fetched) = Ok txs
             /\ NoDup (map TronListener.txID txs)
             /\ (forall tx, In tx txs -> In tx fetched)
             /\ (forall tx, In tx fetched ->
                   In (TronListener.txID tx) (map TronListener.txID txs))).
  { exists (TronListener.uniqValues fetched). split; [reflexivity|].
    split; [exact H1|]. split.
    - intros tx Hin. destruct (H2 tx Hin) as [[]|H]. exact H.
    - intros tx Hin. apply H3. right. now apply in_map. }
  destruct (TronListener.tronWebShasta cl) as [s|] eqn:Es;
    destruct (TronListener.tronWebMainnet cl) as [m|] eqn:Em; exact Hgen.
Qed.

(** ** The monitoring service *)

Section ServiceTimers.
Import MonitoringService.

Lemma react_timers (s : Service) (c : call) :
  intervals s = [] -> length (timers s) = nextId s ->
  intervals (react s c) = [] /\ length (timers (react s c)) = nextId (react s c).
Proof.
  intros Hi Ht. destruct c; cbn [react].
  - unfold start. destruct (isRunning s); [now split|].
    cbn. split; [exact Hi|]. rewrite !length_app. cbn. lia.
  - unfold stop. destruct (isRunning s); cbn [negb]; [|now split].
    rewrite Hi. cbn. now split.
Qed.

Lemma after_timers (calls : list call) (s : Service) :
  intervals s = [] -> length (timers s) = nextId s ->
  intervals (fold_left react calls s) = []
  /\ length (timers (fold_left react calls s)) = nextId (fold_left react calls s).
Proof.
  revert s. induction calls as [|c calls IH]; intros s Hi Ht; [now split|].
  cbn [fold_left]. destruct (react_timers s c Hi Ht) as [Hi' Ht']. now apply IH.
Qed.

End ServiceTimers.

(** X22. [DepositMonitoringService.stop] stops no timer. After any history
    of [start] and [stop] calls the list of intervals the service would
    clear is empty and every timer ever set is still alive; [stop] flips
    [isRunning] and leaves the timers as they are, and a [start] that
    follows sets three more. *)
Theorem stop_leaves_the_timers_running (calls : list MonitoringService.call) :
  let s := MonitoringService.after calls in
  MonitoringService.intervals s = []
  /\ length (MonitoringService.timers s) = MonitoringService.nextId s
  /\ MonitoringService.timers (MonitoringService.stop s) = MonitoringService.timers s
  /\ MonitoringService.isRunning (MonitoringService.stop s) = false
  /\ length (MonitoringService.timers
               (MonitoringService.start (MonitoringService.stop s)))
     = (length (MonitoringService.timers s) + 3)%nat.
Proof.
  cbv zeta. unfold MonitoringService.after.
  destruct (after_timers calls MonitoringService.initial eq_refl eq_refl) as [Hi Ht].
  set (s := fold_left MonitoringService.react calls MonitoringService.initial) in *.
  assert (Hstop : MonitoringService.timers (MonitoringService.stop s)
                  = MonitoringService.timers s
                  /\ MonitoringService.isRunning (MonitoringService.stop s) = false).
  { unfold MonitoringService.stop.
    destruct (MonitoringService.isRunning s) eqn:E; cbn [negb].
    - rewrite Hi. cbn. now split.
    - now split. }
  destruct Hstop as [Hs1 Hs2].
  split; [exact Hi|]. split; [exact Ht|]. split; [exact Hs1|]. split; [exact Hs2|].
  unfold MonitoringService.start. rewrite Hs2. cbn.
  rewrite !length_app, Hs1. cbn. lia.
Qed.

(** ** Pages of deposits *)

Section Pages.
Import Store DepositPages.

Lemma firstn_skipn_add {A} (l : list A) (n m : nat) :
  (firstn n l ++ firstn m (skipn n l))%list = firstn (n + m) l.
Proof.
  revert l. induction n as [|n IH]; intros l; [reflexivity|].
  destruct l as [|x l]; cbn [firstn skipn Nat.add app].
  - now rewrite firstn_nil.
  - now rewrite IH.
Qed.

Lemma firstPages_firstn (matching : list Deposit) (limit : positive) (n : nat) :
  firstPages matching limit n = firstn (n * Pos.to_nat limit) matching.
Proof.
  induction n as [|n IH]; [reflexivity|].
  cbn [firstPages getDeposits deposits]. rewrite IH. unfold findMany.
  rewrite Nat2Pos.id by discriminate.
  replace (S n - 1)%nat with n by lia.
  rewrite firstn_skipn_add. f_equal. lia.
Qed.

Lemma ceilDiv_spec (total limit : nat) :
  (0 < limit)%nat ->
  (total <= ceilDiv total limit * limit
   /\ (ceilDiv total limit - 1) * limit < total + Nat.b2n (total =? 0))%nat.
Proof.
  intros Hl. unfold ceilDiv.
  pose proof (Nat.div_mod_eq (total + limit - 1) limit) as E.
  pose proof (Nat.mod_upper_bound (total + limit - 1) limit ltac:(lia)) as Hm.
  set (q := ((total + limit - 1) / limit)%nat) in *.
  set (r := ((total + limit - 1) mod limit)%nat) in *.
  destruct (Nat.eqb_spec total 0) as [->|Hne]; cbn [Nat.b2n]; nia.
Qed.

End Pages.

(** X23. The pages of [getDeposits] partition the listing. For a page size
    [limit], pages 1 to [totalPages] put one after the other are exactly the
    matching deposits, in order; every page before the last holds [limit]
    rows, no page holds more, and a page after [totalPages] is empty. *)
Theorem pages_partition_the_listing
    (matching : list Store.Deposit) (limit : positive) :
  let n := DepositPages.totalPages (DepositPages.getDeposits matching 1 limit) in
  let rows page := DepositPages.deposits (DepositPages.getDeposits matching page limit) in
  DepositPages.firstPages matching limit n = matching
  /\ forall page,
       (length (rows page) <= Pos.to_nat limit)%nat
       /\ (if (Pos.to_nat page <? n)%nat then length (rows page) = Pos.to_nat limit
           else if (n <? Pos.to_nat page)%nat then rows page = []
           else True).
Proof.
  cbv zeta. cbn [DepositPages.totalPages DepositPages.getDeposits DepositPages.deposits].
  pose proof (Pos2Nat.is_pos limit) as HL.
  destruct (ceilDiv_spec (length matching) (Pos.to_nat limit) HL) as [Hup Hlow].
  set (n := DepositPages.ceilDiv (length matching) (Pos.to_nat limit)) in *.
  set (L := Pos.to_nat limit) in *.
  split.
  - rewrite firstPages_firstn. fold L. apply firstn_all2. exact Hup.
  - intros page. unfold DepositPages.findMany.
    pose proof (Pos2Nat.is_pos page) as HP. set (p := Pos.to_nat page) in *.
    split.
    + rewrite length_firstn. lia.
    + destruct (Nat.ltb_spec p n) as [Hlt|Hge].
      * rewrite length_firstn, length_skipn.
        assert ((p - 1) * L + L <= (n - 1) * L)%nat by nia.
        destruct (Nat.eqb_spec (length matching) 0) as [E0|_]; cbn [Nat.b2n] in Hlow; nia.
      * destruct (Nat.ltb_spec n p) as [Hgt|_]; [|exact I].
        rewrite skipn_all2; [apply firstn_nil|]. nia.
Qed.

(** ** Two balance updates at once *)

(** X24. [updateUserBalanceAfterDeposit] run twice at once for a user's
    first balance in a currency loses a credit. With a store that serves
    every call and no Balance row yet, two overlapping calls (each looks the
    balance up before either writes) leave the balance at the first amount
    and reject the second call on the unique key, whereas the same calls one
    after the other credit both amounts. When the row exists already, the
    overlapping calls credit both, as the calls in turn do. *)
Theorem overlapping_first_credits_lose_one
    (eA eB : DbDeposits.Env) (u : Z) (cur : string) (a b : float) (db : Store.Db) :
  DbDeposits.balance_find_fault eA = None ->
  DbDeposits.balance_write_fault eA = None ->
  DbDeposits.balance_find_fault eB = None ->
  DbDeposits.balance_write_fault eB = None ->
  match Store.balances db !! (u, cur) with
  | None =>
      BalanceUpdates.overlapped eA eB u cur a b db
      = (Ok tt, Throw (UniqueViolation "userId_currency"),
         {| Store.deposits := Store.deposits db;
            Store.balances := <[(u, cur) := a]> (Store.balances db) |})
      /\ BalanceUpdates.inTurn eA eB u cur a b db
         = (Ok tt, Ok tt,
            {| Store.deposits := Store.deposits db;
               Store.balances := <[(u, cur) := (a + b)%float]> (Store.balances db) |})
  | Some b0 =>
      BalanceUpdates.overlapped eA eB u cur a b db
      = BalanceUpdates.inTurn eA eB u cur a b db
      /\ BalanceUpdates.inTurn eA eB u cur a b db
         = (Ok tt, Ok tt,
            {| Store.deposits := Store.deposits db;
               Store.balances :=
                 <[(u, cur) := (b0 + a + b)%float]> (Store.balances db) |})
  end.
Proof.
  intros FfA FwA FfB FwB.
  unfold BalanceUpdates.overlapped, BalanceUpdates.inTurn,
    DbDeposits.updateUserBalanceAfterDeposit, BalanceUpdates.find,
    BalanceUpdates.write, Store.bind, Store.balance_findFirst,
    Store.balance_create, Store.balance_increment.
  rewrite FfA, FwA, FfB, FwB.
  destruct (Store.balances db !! (u, cur)) as [b0|] eqn:E;
    repeat (first [ rewrite E | rewrite lookup_insert_eq | rewrite insert_insert_eq
                  | progress cbn [Store.balances Store.deposits] ]);
    split; reflexivity.
Qed.

Lemma overlapping_first_credits_lose_one_witness :
  BalanceUpdates.overlapped Sample.dbEnvOracleUp Sample.dbEnvOracleUp 7 "SOL"
    2.5%float 1%float Store.empty
  = (Ok tt, Throw (UniqueViolation "userId_currency"),
     {| Store.deposits := []; Store.balances := <[(7, "SOL") := 2.5%float]> ∅ |}).
Proof.
  exact (proj1 (overlapping_first_credits_lose_one
                  Sample.dbEnvOracleUp Sample.dbEnvOracleUp 7 "SOL"
                  2.5%float 1%float Store.empty eq_refl eq_refl eq_refl eq_refl)).
Defined.

(** ** Tron listener: the manual check *)

Section ManualCheck.
Import Store DepositListener TronListener TronCheck.

Lemma processDeposit_recorded (net cur : string) (e : Env) (c : Candidate) (w : World) :
  (1 <= recordCount (c_txHash c) w)%nat ->
  exists err, processDeposit net cur e c w = (Throw err, w).
Proof.
  intros Hc. unfold processDeposit.
  destruct (exchangeRate e cur (c_amount c)) as [r ra].
  unfold lift.
  destruct (deposit_create_cases (create_fault e) (depositData net cur e c r ra) (db w))
    as [[err ->]|[H0 _]].
  - exists err. now destruct w.
  - cbn [txHash depositData] in H0. unfold recordCount in Hc. lia.
Qed.

End ManualCheck.

(** X25. The manual check of a Tron address consults only the in-memory
    set before it processes a transaction. When the listing reaches a
    deposit to the address that has a Deposit row but is not in the set (as
    after a restart), [processDeposit] is refused by the store, the check
    resolves with an error and the world is as before: that deposit is not
    credited again, and the transactions listed after it are not looked
    at. *)
Theorem manual_check_stops_at_recorded_deposit
    (cl : TronListener.Clients) (fromHex : string -> string)
    (findWallet : TronListener.TronTx -> result (option Z))
    (envOf : TronListener.TronTx -> DepositListener.Env)
    (address : string) (w : DepositListener.World)
    (before after : list TronListener.TronTx) (tx : TronListener.TronTx) (u : Z) :
  TronListener.getRecentTransactions cl address 20 = Ok (before ++ tx :: after)%list ->
  Forall (fun t => TronListener.txID t ∈ DepositListener.processedTransactions w
                   \/ TronCheck.isDepositTo fromHex address t = false) before ->
  TronListener.txID tx ∉ DepositListener.processedTransactions w ->
  TronCheck.isDepositTo fromHex address tx = true ->
  findWallet tx = Ok (Some u) ->
  (1 <= DepositListener.recordCount (TronListener.txID tx) w)%nat ->
  exists err,
    TronCheck.checkTronDepositsForAddress cl fromHex findWallet envOf address w
    = (TronCheck.Error err, w).
Proof.
  intros Hlist Hbefore Hnew Hdep Hwallet Hrec.
  assert (Hloop : forall f p,
            exists err,
              TronCheck.forTransactions fromHex findWallet envOf address
                (before ++ tx :: after) f p w = (Throw err, w)).
  { clear Hlist.
    induction Hbefore as [|t before Ht _ IH]; intros f p; cbn [app TronCheck.forTransactions].
    - destruct (decide (TronListener.txID tx ∈ DepositListener.processedTransactions w))
        as [Hin|_]; [destruct (Hnew Hin)|].
      rewrite Hdep, Hwallet.
      match goal with |- context [DepositListener.processDeposit ?n ?c ?e ?x w] =>
        destruct (processDeposit_recorded n c e x w Hrec) as [err ->] end.
      now exists err.
    - destruct (decide (TronListener.txID t ∈ DepositListener.processedTransactions w))
        as [Hin|Hn]; [apply IH|].
      destruct Ht as [Ht|Ht]; [destruct (Hn Ht)|]. rewrite Ht. apply IH. }
  unfold TronCheck.checkTronDepositsForAddress. rewrite Hlist.
  destruct (Hloop 0%nat 0%nat) as [err ->].
  unfold TronListener.getRecentTransactions in Hlist.
  destruct (TronListener.tronWebShasta cl), (TronListener.tronWebMainnet cl);
    try (now exists err).
  destruct before; discriminate.
Qed.

Lemma manual_check_stops_at_recorded_deposit_witness :
  exists err,
    TronCheck.checkTronDepositsForAddress Sample.tronClients (fun _ => "TUserDeposit1")
      (fun _ => Ok (Some 7)) (fun _ => Sample.envOk "TRX_1700000060_b")
      "TUserDeposit1" Sample.worldRestarted
    = (TronCheck.Error err, Sample.worldRestarted).
Proof.
  apply (manual_check_stops_at_recorded_deposit Sample.tronClients
           (fun _ => "TUserDeposit1") (fun _ => Ok (Some 7))
           (fun _ => Sample.envOk "TRX_1700000060_b") "TUserDeposit1"
           Sample.worldRestarted [] [] Sample.tronDeposit 7).
  - reflexivity.
  - constructor.
  - apply not_elem_of_empty.
  - reflexivity.
  - reflexivity.
  - vm_compute. lia.
Defined.

(** ** Stopping and restarting the pollers *)

(** X26. The stop function of a poller ends no scan and lifts the guard of
    [pollForDeposits]: after any history of events, a call of
    [stop...DepositMonitoring] leaves the scans in flight as they are, and
    the invocation that follows starts a scan whether or not one is in
    flight; so with a scan in flight, two are. *)
Theorem stop_lifts_the_guard (trace : list Poller.event) :
  let r := Poller.runEvents Poller.pollForDeposits trace Poller.idle in
  Poller.inFlight
    (Poller.runEvents Poller.pollForDeposits (trace ++ [Poller.Stop])
       Poller.idle)
  = Poller.inFlight r
  /\ Poller.inFlight
       (Poller.runEvents Poller.pollForDeposits
          (trace ++ [Poller.Stop; Poller.Invoke]) Poller.idle)
     = S (Poller.inFlight r)
  /\ ((1 <= Poller.inFlight r)%nat ->
      ~ singleFlight Poller.pollForDeposits
          (trace ++ [Poller.Stop; Poller.Invoke])).
Proof.
  cbv zeta. unfold singleFlight, Poller.runEvents. rewrite !fold_left_app.
  cbn [fold_left Poller.react].
  set (r := fold_left (Poller.react Poller.pollForDeposits) trace Poller.idle).
  unfold Poller.stop, Poller.invoke. cbn.
  split; [reflexivity|]. split; [reflexivity|]. lia.
Qed.

Lemma stop_lifts_the_guard_witness :
  (1 <= Poller.inFlight
          (Poller.runEvents Poller.pollForDeposits [Poller.Invoke]
             Poller.idle))%nat
  /\ ~ singleFlight Poller.pollForDeposits
        ([Poller.Invoke] ++ [Poller.Stop; Poller.Invoke]).
Proof.
  assert (H : (1 <= Poller.inFlight
                     (Poller.runEvents Poller.pollForDeposits [Poller.Invoke]
                        Poller.idle))%nat) by (vm_compute; lia).
  split; [exact H|].
  exact (proj2 (proj2 (stop_lifts_the_guard [Poller.Invoke])) H).
Defined.

(** X27. A start of the deposit monitor service that fails half-way cannot
    be undone through the service. If the Solana monitor starts and the
    Ethereum one throws, [start] rejects with the service not running, the
    Solana network flagged and its timer set; [stop] then does nothing,
    because the service is not running, and the next [start] sets a second
    Solana timer beside the first. *)
Theorem failed_start_leaves_network_running
    (s : MonitorService.Service) (i : MonitorService.Inits) (err : error) :
  MonitorService.isRunning s = false ->
  MonitorService.initializeSolanaConnection i = Ok tt ->
  MonitorService.initializeEthereumProvider i = Throw err ->
  let '(r, s1) := MonitorService.start i s in
  r = Throw err
  /\ MonitorService.isRunning s1 = false
  /\ MonitorService.solana (MonitorService.networks s1) = true
  /\ MonitorService.solanaTimers s1 = S (MonitorService.solanaTimers s)
  /\ MonitorService.stop s1 = s1
  /\ forall i',
       MonitorService.initializeSolanaConnection i' = Ok tt ->
       MonitorService.solanaTimers (snd (MonitorService.start i' s1))
       = S (S (MonitorService.solanaTimers s)).
Proof.
  intros Hr Hs He. destruct s as [run nets st et tr]. cbn in Hr. subst run.
  unfold MonitorService.start, MonitorService.stop. cbn. rewrite Hs, He. cbn.
  split; [reflexivity|]. split; [reflexivity|]. split; [reflexivity|].
  split; [reflexivity|]. split; [reflexivity|].
  intros i' ->. now destruct (MonitorService.initializeEthereumProvider i').
Qed.

Lemma failed_start_leaves_network_running_witness :
  let '(r, s1) :=
    MonitorService.start
      {| MonitorService.initializeSolanaConnection := Ok tt;
         MonitorService.initializeEthereumProvider :=
           Throw (JsError "invalid JSON-RPC URL") |}
      MonitorService.initial in
  is_ok r = false
  /\ MonitorService.isRunning s1 = false
  /\ MonitorService.solanaTimers s1 = 1%nat
  /\ MonitorService.stop s1 = s1.
Proof.
  pose proof (failed_start_leaves_network_running MonitorService.initial
                {| MonitorService.initializeSolanaConnection := Ok tt;
                   MonitorService.initializeEthereumProvider :=
                     Throw (JsError "invalid JSON-RPC URL") |}
                (JsError "invalid JSON-RPC URL") eq_refl eq_refl eq_refl) as H.
  destruct (MonitorService.start _ MonitorService.initial) as [r s1].
  destruct H as (Hr & Hrun & _ & Ht & Hstop & _).
  split; [now rewrite Hr|]. split; [exact Hrun|]. split; [exact Ht|exact Hstop].
Defined.
